(** * Group Order Splitter: the cost-distribution calculator

    A shallow embedding of the content script's [calculateDistribution],
    [calculateAlternativeDistribution], [validateOrderData] and
    [calculateAndDisplay], and of the background script's
    [calculateOrderDistribution].

    JavaScript numbers are modelled as exact rationals extended with the three
    non-finite values [Infinity], [-Infinity] and [NaN]: binary rounding,
    overflow of finite arithmetic and the sign of zero are outside the model.
    A JavaScript object used as a map is an association list in property
    enumeration order. *)

From Stdlib Require Import List String Ascii Bool ZArith QArith Qround Qabs.
From Stdlib Require Import Lia Lqa Setoid Morphisms Permutation.
Import ListNotations.

Local Open Scope Q_scope.

(** ** Numbers *)

Module JsNum.

Inductive number : Type :=
| Fin (q : Q)
| PosInf
| NegInf
| NaN.

Definition Qlt_bool (a b : Q) : bool := negb (Qle_bool b a).

Definition is_finite (x : number) : bool :=
  match x with Fin _ => true | _ => false end.

(** [isNaN(x)] *)
Definition isNaN (x : number) : bool :=
  match x with NaN => true | _ => false end.

(** Equality of numbers as values of the model: rationals up to [==]. *)
Definition numeq (x y : number) : Prop :=
  match x, y with
  | Fin a, Fin b => a == b
  | PosInf, PosInf | NegInf, NegInf | NaN, NaN => True
  | _, _ => False
  end.

(** [-x] *)
Definition neg (x : number) : number :=
  match x with
  | Fin a => Fin (- a)
  | PosInf => NegInf
  | NegInf => PosInf
  | NaN => NaN
  end.

(** [x + y] *)
Definition add (x y : number) : number :=
  match x, y with
  | NaN, _ | _, NaN => NaN
  | Fin a, Fin b => Fin (a + b)
  | PosInf, NegInf | NegInf, PosInf => NaN
  | PosInf, _ | _, PosInf => PosInf
  | NegInf, _ | _, NegInf => NegInf
  end.

(** [x - y] *)
Definition sub (x y : number) : number := add x (neg y).

(** The infinity with the sign of [s * q]; [NaN] when [q] is zero. *)
Definition inf_times (positive : bool) (q : Q) : number :=
  if Qeq_bool q 0 then NaN
  else if xorb positive (Qle_bool 0 q) then NegInf else PosInf.

(** [x * y] *)
Definition mul (x y : number) : number :=
  match x, y with
  | NaN, _ | _, NaN => NaN
  | Fin a, Fin b => Fin (a * b)
  | PosInf, Fin b => inf_times true b
  | NegInf, Fin b => inf_times false b
  | Fin a, PosInf => inf_times true a
  | Fin a, NegInf => inf_times false a
  | PosInf, PosInf | NegInf, NegInf => PosInf
  | PosInf, NegInf | NegInf, PosInf => NegInf
  end.

(** [x / y]; a zero divisor is the positive zero (a length, or a sum of
    positive amounts). *)
Definition div (x y : number) : number :=
  match x, y with
  | NaN, _ | _, NaN => NaN
  | Fin a, Fin b =>
      if Qeq_bool b 0 then
        if Qeq_bool a 0 then NaN
        else if Qle_bool 0 a then PosInf else NegInf
      else Fin (a / b)
  | Fin _, PosInf | Fin _, NegInf => Fin 0
  | PosInf, Fin b => if Qle_bool 0 b then PosInf else NegInf
  | NegInf, Fin b => if Qle_bool 0 b then NegInf else PosInf
  | _, _ => NaN
  end.

(** [x <= y] *)
Definition le (x y : number) : bool :=
  match x, y with
  | NaN, _ | _, NaN => false
  | Fin a, Fin b => Qle_bool a b
  | NegInf, _ | _, PosInf => true
  | _, _ => false
  end.

(** [x < y] *)
Definition lt (x y : number) : bool :=
  match x, y with
  | NaN, _ | _, NaN => false
  | Fin a, Fin b => Qlt_bool a b
  | PosInf, _ | _, NegInf => false
  | _, _ => true
  end.

(** [x > y] *)
Definition gt (x y : number) : bool := lt y x.

(** [x === y] on numbers *)
Definition strict_eq (x y : number) : bool :=
  match x, y with
  | Fin a, Fin b => Qeq_bool a b
  | PosInf, PosInf | NegInf, NegInf => true
  | _, _ => false
  end.

(** [Math.max(x, y)] *)
Definition max (x y : number) : number :=
  match x, y with
  | NaN, _ | _, NaN => NaN
  | _, _ => if le x y then y else x
  end.

(** [Math.min(x, y)] *)
Definition min (x y : number) : number :=
  match x, y with
  | NaN, _ | _, NaN => NaN
  | _, _ => if le x y then x else y
  end.

(** The integer [n] for which [n / 100 - x] is closest to zero, the larger
    one of two; for [0 <= x]. *)
Definition nearest_cents (x : Q) : Z := Qfloor (x * 100 + (1 # 2)).

Definition ten_pow_21 : Q := inject_Z (10 ^ 21).

(** [parseFloat(x.toFixed(2))] on a finite number: [toFixed] rounds the
    magnitude to the nearest hundredth, ties upwards, keeps the sign, and
    falls back to [ToString] from 1e21 on. *)
Definition toFixed2Q (x : Q) : Q :=
  if Qle_bool ten_pow_21 (Qabs x) then x
  else if Qle_bool 0 x then nearest_cents x # 100
  else - (nearest_cents (- x) # 100).

(** [parseFloat(x.toFixed(2))] *)
Definition round2 (x : number) : number :=
  match x with
  | Fin a => Fin (toFixed2Q a)
  | other => other
  end.

(** [values.reduce((a, b) => a + b, 0)] *)
Definition sum (l : list number) : number :=
  fold_left add l (Fin 0).

Definition of_nat (n : nat) : number := Fin (inject_Z (Z.of_nat n)).

End JsNum.

Import JsNum.

(** ** Strings *)

Module JsStr.

Definition lower_ascii (c : ascii) : ascii :=
  let n := nat_of_ascii c in
  if (65 <=? n)%nat && (n <=? 90)%nat then ascii_of_nat (n + 32) else c.

(** [s.toLowerCase()], on the ASCII letters; no other letter lower-cases to
    a letter of the creator patterns. *)
Fixpoint toLowerCase (s : string) : string :=
  match s with
  | EmptyString => EmptyString
  | String c r => String (lower_ascii c) (toLowerCase r)
  end.

Fixpoint startsWith (s pat : string) : bool :=
  match pat, s with
  | EmptyString, _ => true
  | String _ _, EmptyString => false
  | String p pr, String c r => Ascii.eqb p c && startsWith r pr
  end.

(** [s.includes(pat)] *)
Fixpoint includes (s pat : string) : bool :=
  startsWith s pat ||
  match s with
  | EmptyString => false
  | String _ r => includes r pat
  end.

Definition is_space (c : ascii) : bool :=
  let n := nat_of_ascii c in
  ((9 <=? n)%nat && (n <=? 13)%nat) || (n =? 32)%nat.

(** [s.trim().length === 0], on the ASCII white space. *)
Fixpoint blank (s : string) : bool :=
  match s with
  | EmptyString => true
  | String c r => is_space c && blank r
  end.

End JsStr.

Import JsStr.

(** ** Objects used as maps *)

Module JsObj.

Section Obj.
Context {A : Type}.

(** An object: its own properties in enumeration order.  Names that read
    as array indices, which JavaScript enumerates first and in numeric
    order, are not told apart: the list is the order [Object.keys] gives. *)
Definition obj := list (string * A).

(** [Object.keys(o)] *)
Definition keys (o : obj) : list string := map fst o.

(** [Object.values(o)] *)
Definition values (o : obj) : list A := map snd o.

(** [Object.entries(o)] *)
Definition entries (o : obj) : list (string * A) := o.

(** [o[k]]; [None] stands for [undefined]. *)
Fixpoint get (o : obj) (k : string) : option A :=
  match o with
  | [] => None
  | (k', v) :: r => if String.eqb k' k then Some v else get r k
  end.

(** [o[k] = v]: an existing property keeps its place, a new one goes last. *)
Fixpoint set (o : obj) (k : string) (v : A) : obj :=
  match o with
  | [] => [(k, v)]
  | (k', v') :: r =>
      if String.eqb k' k then (k', v) :: r else (k', v') :: set r k v
  end.

Fixpoint mem (k : string) (l : list string) : bool :=
  match l with
  | [] => false
  | k' :: r => String.eqb k' k || mem k r
  end.

(** The keys of an object are pairwise distinct. *)
Fixpoint distinct (l : list string) : bool :=
  match l with
  | [] => true
  | k :: r => negb (mem k r) && distinct r
  end.

Definition well_formed (o : obj) : bool := distinct (keys o).

End Obj.

Arguments obj : clear implicits.

End JsObj.

Import JsObj.

(** ** Data model of the content script *)

(** [settings.dailyBudget] as the settings store supplies it. *)
Inductive setting : Type :=
| Undefined
| Null
| Num (n : number).

Record Settings : Type := { dailyBudget : setting }.

Record OrderData : Type := {
  people : obj number;
  delivery : number;
  service : number;
  discount : number
}.

Inductive Status : Type := pays | covered | helps_others | exact.

(** An entry of [participantDetails], as Step 1 stores it. *)
Module Details.
Record t : Type := {
  individualOrder : number;
  sharedCosts : number;
  totalCost : number;
  budgetUsage : number;
  extraBudget : number;
  overBudget : number;
  isOrderCreator : bool
}.
End Details.

(** An entry of [finalPayments]: the details spread, plus the Step 2 fields. *)
Record ParticipantDetail : Type := {
  individualOrder : number;
  sharedCosts : number;
  totalCost : number;
  budgetUsage : number;
  extraBudget : number;
  overBudget : number;
  isOrderCreator : bool;
  budgetHelpReceived : number;
  finalPayment : number;
  status : Status
}.

Module Breakdown.
Record t : Type := {
  orderSubtotal : number;
  delivery : number;
  service : number;
  discount : number;
  grandTotal : number;
  totalBudget : number;
  sharedCostsTotal : number;
  sharedCostsPerPerson : number;
  totalExtraBudget : number;
  totalOverBudget : number;
  participantCount : nat
}.
End Breakdown.

Record DistributionResult : Type := {
  results : obj ParticipantDetail;
  withinBudget : bool;
  orderCreator : option string;
  breakdown : Breakdown.t
}.

(** ** calculateDistribution *)

(** [(settings.dailyBudget !== undefined && settings.dailyBudget !== null)
     ? settings.dailyBudget : 14] *)
Definition budget_of (settings : Settings) : number :=
  match dailyBudget settings with
  | Undefined | Null => Fin 14
  | Num n => n
  end.

(** [people[name]]; a missing property is [undefined], [NaN] in arithmetic. *)
Definition person (people : obj number) (name : string) : number :=
  match get people name with
  | Some amount => amount
  | None => NaN
  end.

Definition orderCreatorPatterns : list string :=
  ["you"; "yu"; "me"; "myself"]%string.

Definition matches_creator (name : string) : bool :=
  existsb (fun pattern => includes (toLowerCase name) pattern)
          orderCreatorPatterns.

(** The [for (const name of participantNames)] loop with its [break]. *)
Fixpoint identify_creator (participantNames : list string) : option string :=
  match participantNames with
  | [] => None
  | name :: rest =>
      if matches_creator name then Some name else identify_creator rest
  end.

(** [name === orderCreator] *)
Definition is_creator (name : string) (orderCreator : option string) : bool :=
  match orderCreator with
  | Some c => String.eqb name c
  | None => false
  end.

Definition sharedCostsTotal (od : OrderData) : number :=
  add (add (delivery od) (service od)) (discount od).

Definition sharedCostsPerPerson (od : OrderData) : number :=
  div (sharedCostsTotal od) (of_nat (List.length (keys (people od)))).

(** State of the Step 1 [forEach]. *)
Record Step1 : Type := {
  participantDetails : obj Details.t;
  totalExtraBudget : number;
  totalOverBudget : number
}.

Definition step1 (people : obj number) (budget shared : number)
    (creator : option string) (st : Step1) (name : string) : Step1 :=
  let individualOrder := person people name in
  let sharedCosts := shared in
  let totalCost := add individualOrder sharedCosts in
  let budgetUsage := min totalCost budget in
  let extraBudget := max (Fin 0) (sub budget totalCost) in
  let overBudget := max (Fin 0) (sub totalCost budget) in
  {| participantDetails :=
       set (participantDetails st) name
         {| Details.individualOrder := round2 individualOrder;
            Details.sharedCosts := round2 sharedCosts;
            Details.totalCost := round2 totalCost;
            Details.budgetUsage := round2 budgetUsage;
            Details.extraBudget := round2 extraBudget;
            Details.overBudget := round2 overBudget;
            Details.isOrderCreator := is_creator name creator |};
     totalExtraBudget :=
       if gt extraBudget (Fin 0)
       then add (totalExtraBudget st) extraBudget
       else totalExtraBudget st;
     totalOverBudget :=
       if gt overBudget (Fin 0)
       then add (totalOverBudget st) overBudget
       else totalOverBudget st |}.

(** [{ ...details, budgetHelpReceived, finalPayment, status }] *)
Definition spread (d : Details.t) (help payment : number) (st : Status)
    : ParticipantDetail :=
  {| individualOrder := Details.individualOrder d;
     sharedCosts := Details.sharedCosts d;
     totalCost := Details.totalCost d;
     budgetUsage := Details.budgetUsage d;
     extraBudget := Details.extraBudget d;
     overBudget := Details.overBudget d;
     isOrderCreator := Details.isOrderCreator d;
     budgetHelpReceived := help;
     finalPayment := payment;
     status := st |}.

Definition proportionOfOverBudget (totalOver : number) (details : Details.t)
    : number :=
  if gt totalOver (Fin 0) then div (Details.overBudget details) totalOver
  else Fin 0.

(** The body of the Step 2 [forEach] for one stored entry. *)
Definition final_entry (totalExtra totalOver : number) (details : Details.t)
    : ParticipantDetail :=
  if gt (Details.overBudget details) (Fin 0) then
    let proportion := proportionOfOverBudget totalOver details in
    let budgetHelpReceived :=
      min (Details.overBudget details) (mul totalExtra proportion) in
    let finalPayment :=
      max (Fin 0) (sub (Details.overBudget details) budgetHelpReceived) in
    spread details (round2 budgetHelpReceived) (round2 finalPayment)
      (if gt finalPayment (Fin 0) then pays else covered)
  else
    spread details (Fin 0) (Fin 0)
      (if gt (Details.extraBudget details) (Fin 0) then helps_others
       else exact).

(** [participantDetails[name]] always finds the entry Step 1 stored; on a
    missing entry the source would raise and nothing is stored here. *)
Definition step2 (st : Step1) (finalPayments : obj ParticipantDetail)
    (name : string) : obj ParticipantDetail :=
  match get (participantDetails st) name with
  | Some details =>
      set finalPayments name
        (final_entry (totalExtraBudget st) (totalOverBudget st) details)
  | None => finalPayments
  end.

Definition calculateDistribution (orderData : OrderData) (settings : Settings)
    : DistributionResult :=
  let budget := budget_of settings in
  let participantNames := keys (people orderData) in
  let orderSubtotal := sum (values (people orderData)) in
  let grandTotal :=
    add (add (add orderSubtotal (delivery orderData)) (service orderData))
        (discount orderData) in
  let totalCompanyBudget := mul budget (of_nat (List.length participantNames)) in
  let orderCreator := identify_creator participantNames in
  let st1 :=
    fold_left
      (step1 (people orderData) budget (sharedCostsPerPerson orderData)
             orderCreator)
      participantNames
      {| participantDetails := [];
         totalExtraBudget := Fin 0;
         totalOverBudget := Fin 0 |} in
  let finalPayments := fold_left (step2 st1) participantNames [] in
  {| results := finalPayments;
     withinBudget := le grandTotal totalCompanyBudget;
     orderCreator := orderCreator;
     breakdown :=
       {| Breakdown.orderSubtotal := orderSubtotal;
          Breakdown.delivery := delivery orderData;
          Breakdown.service := service orderData;
          Breakdown.discount := discount orderData;
          Breakdown.grandTotal := grandTotal;
          Breakdown.totalBudget := totalCompanyBudget;
          Breakdown.sharedCostsTotal := sharedCostsTotal orderData;
          Breakdown.sharedCostsPerPerson := sharedCostsPerPerson orderData;
          Breakdown.totalExtraBudget := totalExtraBudget st1;
          Breakdown.totalOverBudget := totalOverBudget st1;
          Breakdown.participantCount := List.length participantNames |} |}.

(** ** calculateAlternativeDistribution *)

(** The body of the [forEach] of the over-budget branch. *)
Definition overage_of (people : obj number)
    (budget extraPerPerson discount orderSubtotal : number) (name : string)
    : number :=
  let subtotal := person people name in
  let total := add subtotal extraPerPerson in
  let total :=
    if negb (strict_eq discount (Fin 0)) && gt orderSubtotal (Fin 0)
    then add total (mul (div subtotal orderSubtotal) discount)
    else total in
  let overage := max (Fin 0) (sub total budget) in
  round2 overage.



(** ** The background script: calculateOrderDistribution *)

Module Background.

Definition DEFAULT_dailyBudget : number := Fin 14.

(** JavaScript truthiness of [settings.dailyBudget]. *)
Definition truthy (s : setting) : bool :=
  match s with
  | Undefined | Null => false
  | Num (Fin q) => negb (Qeq_bool q 0)
  | Num NaN => false
  | Num _ => true
  end.

(** [settings.dailyBudget || DEFAULT_SETTINGS.dailyBudget] *)
Definition budget_of (settings : Settings) : number :=
  match dailyBudget settings with
  | Num n => if truthy (Num n) then n else DEFAULT_dailyBudget
  | _ => DEFAULT_dailyBudget
  end.

Record Breakdown : Type := {
  orderSubtotal : number;
  b_delivery : number;
  b_service : number;
  b_discount : number;
  grandTotal : number;
  totalBudget : number;
  extraForOwner : number;
  participantCount : nat
}.

Record Distribution : Type := {
  results : obj number;
  breakdown : Breakdown
}.

Definition owner_row : string := "You (Order Owner)".

Definition extraPerPerson (orderData : OrderData) : number :=
  let extraFeesTotal := add (delivery orderData) (service orderData) in
  let participantNames := keys (people orderData) in
  if (0 <? List.length participantNames)%nat
  then div extraFeesTotal (of_nat (List.length participantNames))
  else Fin 0.

Definition calculateOrderDistribution (orderData : OrderData)
    (settings : Settings) : Distribution :=
  let budget := budget_of settings in
  let extraFeesTotal := add (delivery orderData) (service orderData) in
  let participantNames := keys (people orderData) in
  let orderSubtotal := sum (values (people orderData)) in
  let results :=
    fold_left
      (fun results name =>
         set results name
           (overage_of (people orderData) budget (extraPerPerson orderData)
                       (discount orderData) orderSubtotal name))
      participantNames [] in
  let grandTotal :=
    add (add orderSubtotal extraFeesTotal) (discount orderData) in
  let totalBudget := mul budget (of_nat (List.length participantNames)) in
  let extraForOwner := max (Fin 0) (sub grandTotal totalBudget) in
  let results :=
    if gt extraForOwner (Fin 0)
    then set results owner_row (round2 extraForOwner)
    else results in
  {| results := results;
     breakdown :=
       {| orderSubtotal := orderSubtotal;
          b_delivery := delivery orderData;
          b_service := service orderData;
          b_discount := discount orderData;
          grandTotal := grandTotal;
          totalBudget := totalBudget;
          extraForOwner := extraForOwner;
          participantCount := List.length participantNames |} |}.

End Background.

(** ** Parsed order data and its validation *)

(** Fallible code: a value, or a thrown [Error] with its message. *)
Inductive result (A : Type) : Type :=
| Ok (a : A)
| Throw (message : string).

Arguments Ok {A} a.
Arguments Throw {A} message.

Definition bind {A B : Type} (r : result A) (k : A -> result B) : result B :=
  match r with
  | Ok a => k a
  | Throw m => Throw m
  end.

Notation "x <- r ;; k" := (bind r (fun x => k))
  (at level 61, r at next level, right associativity).
Notation "r ;;; k" := (bind r (fun _ => k))
  (at level 61, right associativity).

(** What the page parsers can put into a property. *)
Inductive value : Type :=
| VUndefined
| VNull
| VBoolean (b : bool)
| VNumber (n : number)
| VString (s : string).

(** The parsed order; [raw_people = None] stands for a [people] property that
    is missing, falsy or not an object. *)
Record RawOrderData : Type := {
  raw_people : option (obj value);
  raw_delivery : value;
  raw_service : value;
  raw_discount : value
}.

Definition dquote : string := String (ascii_of_nat 34) EmptyString.

Section Validation.

(** Template literals print a number through [ToString], whose digits are
    outside the model. *)
Variable show_number : number -> string.

Definition show (v : value) : string :=
  match v with
  | VUndefined => "undefined"
  | VNull => "null"
  | VBoolean true => "true"
  | VBoolean false => "false"
  | VNumber n => show_number n
  | VString s => s
  end.

(** One round of the [for (const [name, amount] of Object.entries(...))]
    loop. *)
Definition validate_participant (entry : string * value) : result unit :=
  let (name, amount) := entry in
  if (name =? EmptyString)%string || blank name then
    Throw "Invalid participant name detected"
  else
    match amount with
    | VNumber n =>
        if isNaN n || lt n (Fin 0) then
          Throw ("Invalid price data for participant " ++ dquote ++ name
                 ++ dquote ++ ": " ++ show amount)
        else if gt n (Fin 1000) then
          Throw ("Unusually high amount detected for " ++ dquote ++ name
                 ++ dquote ++ ": €" ++ show amount
                 ++ ". Please verify the order data.")
        else Ok tt
    | _ =>
        Throw ("Invalid price data for participant " ++ dquote ++ name
               ++ dquote ++ ": " ++ show amount)
    end.

Fixpoint validate_participants (entries : list (string * value))
    : result unit :=
  match entries with
  | [] => Ok tt
  | entry :: rest =>
      validate_participant entry ;;; validate_participants rest
  end.

(** One round of [fees.forEach]. *)
Definition validate_fee (fee : string) (v : value) : result unit :=
  match v with
  | VUndefined => Ok tt
  | VNumber n =>
      if isNaN n then Throw ("Invalid " ++ fee ++ " fee data: " ++ show v)
      else Ok tt
  | _ => Throw ("Invalid " ++ fee ++ " fee data: " ++ show v)
  end.

Definition validateOrderData (orderData : option RawOrderData)
    : result unit :=
  match orderData with
  | None => Throw "Invalid order data structure"
  | Some orderData =>
      match raw_people orderData with
      | None => Throw "No participants found in order data"
      | Some people =>
          let participantCount := List.length (keys people) in
          if (participantCount =? 0)%nat then
            Throw "No participants found in the order"
          else if (50 <? participantCount)%nat then
            Throw "Too many participants detected (>50). This may indicate a parsing error."
          else
            validate_participants (entries people) ;;;
            validate_fee "delivery" (raw_delivery orderData) ;;;
            validate_fee "service" (raw_service orderData) ;;;
            validate_fee "discount" (raw_discount orderData)
      end
  end.

(** ** parseOrderData and calculateAndDisplay *)

(** What the page and the DOM helpers answer during one calculation. *)
Record Page : Type := {
  validatePageContext : result unit;
  parseFromStructuredElements : option RawOrderData;
  parseFromText : option RawOrderData;
  showLoadingState : result unit;
  displayResults : result unit;
  displayError : result unit
}.

(** [Object.keys(orderData.people || {}).length === 0] *)
Definition no_people (orderData : RawOrderData) : bool :=
  match raw_people orderData with
  | None => true
  | Some people => (List.length (keys people) =? 0)%nat
  end.

(** The order data that the two parsing strategies hand to validation. *)
Definition parsed (page : Page) : option RawOrderData :=
  match parseFromStructuredElements page with
  | Some orderData =>
      if no_people orderData then parseFromText page else Some orderData
  | None => parseFromText page
  end.

(** The [catch] block of [parseOrderData]. *)
Definition explain (message : string) : string :=
  if includes message "not a valid order page" then
    "This page does not appear to be a Thuisbezorgd order page. Please navigate to an order confirmation or food tracker page."
  else if includes message "No participants found" then
    "No order participants detected. The order may still be loading or the page format has changed."
  else if includes message "Invalid price data" then
    "Order prices could not be parsed correctly. Please refresh the page and try again."
  else
    "Order parsing failed: " ++ message
    ++ ". Please refresh the page or contact support if the issue persists.".

Definition parseOrderData (page : Page) : result RawOrderData :=
  let attempt :=
    validatePageContext page ;;;
    match parsed page with
    | None =>
        Throw "Unable to parse order data from page. Please ensure you are on a valid Thuisbezorgd order page."
    | Some orderData =>
        validateOrderData (Some orderData) ;;; Ok orderData
    end in
  match attempt with
  | Ok orderData => Ok orderData
  | Throw message => Throw (explain message)
  end.

(** Arithmetic on a parsed property: validation leaves numbers only and, for
    a fee, [undefined], which arithmetic turns into [NaN]. *)
Definition as_number (v : value) : number :=
  match v with
  | VNumber n => n
  | _ => NaN
  end.

Definition typed (orderData : RawOrderData) : OrderData :=
  {| people :=
       match raw_people orderData with
       | Some people => map (fun e => (fst e, as_number (snd e))) people
       | None => []
       end;
     delivery := as_number (raw_delivery orderData);
     service := as_number (raw_service orderData);
     discount := as_number (raw_discount orderData) |}.

(** What the content script does to the page and to the background. *)
Inductive event : Type :=
| LoadingShown
| DistributionCalculated (orderData : OrderData) (settings : Settings)
| ResultsDisplayed (r : DistributionResult) (fromPopup : bool)
    (displayBudget : number)
| ErrorLogged (message : string)
| ErrorDisplayed (message : string).

(** The module-level variables of the content script, and its effects so
    far, latest first. *)
Record State : Type := {
  currentSettings : Settings;
  calculationResults : option DistributionResult;
  isCalculating : bool;
  trace : list event
}.

Definition emit (e : event) (st : State) : State :=
  {| currentSettings := currentSettings st;
     calculationResults := calculationResults st;
     isCalculating := isCalculating st;
     trace := e :: trace st |}.

Definition set_isCalculating (b : bool) (st : State) : State :=
  {| currentSettings := currentSettings st;
     calculationResults := calculationResults st;
     isCalculating := b;
     trace := trace st |}.

Definition set_calculationResults (r : DistributionResult) (st : State)
    : State :=
  {| currentSettings := currentSettings st;
     calculationResults := Some r;
     isCalculating := isCalculating st;
     trace := trace st |}.

(** How a call ends: it returns the results, or [undefined] after an error
    was displayed, or it throws. *)
Inductive outcome : Type :=
| Returned (r : option DistributionResult)
| Thrown (message : string).

(** The [try] block. *)
Definition attempt (page : Page) (fromPopup : bool) (st : State)
    : result DistributionResult * State :=
  let shown :=
    if fromPopup then
      match showLoadingState page with
      | Ok _ => (Ok tt, emit LoadingShown st)
      | Throw m => (Throw m, st)
      end
    else (Ok tt, st) in
  match shown with
  | (Throw m, st) => (Throw m, st)
  | (Ok _, st) =>
      match parseOrderData page with
      | Throw m => (Throw m, st)
      | Ok orderData =>
          if no_people orderData then
            (Throw "No order data found on this page. Make sure you are on an order confirmation or tracking page.",
             st)
          else
            let results :=
              calculateDistribution (typed orderData) (currentSettings st) in
            let st :=
              emit (DistributionCalculated (typed orderData)
                      (currentSettings st)) st in
            let st := set_calculationResults results st in
            let displayBudget := budget_of (currentSettings st) in
            match displayResults page with
            | Throw m => (Throw m, st)
            | Ok _ =>
                (Ok results,
                 emit (ResultsDisplayed results fromPopup displayBudget) st)
            end
      end
  end.

Definition already_in_progress : string := "Calculation already in progress".

Definition calculateAndDisplay (page : Page) (fromPopup : bool) (st : State)
    : outcome * State :=
  if isCalculating st then (Thrown already_in_progress, st)
  else
    let st := set_isCalculating true st in
    let (r, st) := attempt page fromPopup st in
    let (o, st) :=
      match r with
      | Ok results => (Returned (Some results), st)
      | Throw message =>
          let st := emit (ErrorLogged message) st in
          if fromPopup then (Thrown message, st)
          else
            match displayError page with
            | Ok _ => (Returned None, emit (ErrorDisplayed message) st)
            | Throw m => (Thrown m, st)
            end
      end in
    (o, set_isCalculating false st).

End Validation.


(** ** Derived quantities used in the statements *)

(** The rational held by a finite number. *)
Definition toQ (x : number) : Q :=
  match x with
  | Fin q => q
  | _ => 0
  end.

Definition Qsum (l : list Q) : Q := fold_right Qplus 0 l.

(** The accumulation [if (x > 0) total += x] over a list. *)
Definition pos_sum (l : list number) : number :=
  fold_left (fun t x => if gt x (Fin 0) then add t x else t) l (Fin 0).

(** The unrounded Step 1 values of a participant. *)
Definition totalCost_of (od : OrderData) (name : string) : number :=
  add (person (people od) name) (sharedCostsPerPerson od).

Definition extraBudget_of (od : OrderData) (settings : Settings)
    (name : string) : number :=
  max (Fin 0) (sub (budget_of settings) (totalCost_of od name)).

Definition overBudget_of (od : OrderData) (settings : Settings)
    (name : string) : number :=
  max (Fin 0) (sub (totalCost_of od name) (budget_of settings)).

(** The entry Step 1 stores for a participant. *)
Definition details_of (od : OrderData) (settings : Settings) (name : string)
    : Details.t :=
  {| Details.individualOrder := round2 (person (people od) name);
     Details.sharedCosts := round2 (sharedCostsPerPerson od);
     Details.totalCost := round2 (totalCost_of od name);
     Details.budgetUsage :=
       round2 (min (totalCost_of od name) (budget_of settings));
     Details.extraBudget := round2 (extraBudget_of od settings name);
     Details.overBudget := round2 (overBudget_of od settings name);
     Details.isOrderCreator :=
       is_creator name (identify_creator (keys (people od))) |}.

Definition all_finite (l : list number) : bool := forallb is_finite l.

(** Amounts, fees and budget are finite numbers. *)
Definition finite_order (od : OrderData) : bool :=
  all_finite (values (people od)) && is_finite (delivery od)
  && is_finite (service od) && is_finite (discount od).

Definition finite_settings (settings : Settings) : bool :=
  is_finite (budget_of settings).

(** [pattern] occurs in [s]. *)
Definition substring (pattern s : string) : Prop :=
  exists before after : string, s = (before ++ pattern ++ after)%string.

(** A name holds one of the creator patterns, letter case aside. *)
Definition names_creator (name : string) : Prop :=
  exists pattern : string,
    In pattern ["you"; "yu"; "me"; "myself"]%string
    /\ substring pattern (toLowerCase name).

(** [c] is the first name of the list that names the creator. *)
Definition first_creator (names : list string) (c : string) : Prop :=
  exists before after : list string,
    names = before ++ c :: after
    /\ names_creator c
    /\ forall n, In n before -> ~ names_creator n.

Definition flagged (e : ParticipantDetail) : bool := isOrderCreator e.

(** ** Sample orders *)

Definition order (p : obj number) (d s c : Q) : OrderData :=
  {| people := p; delivery := Fin d; service := Fin s; discount := Fin c |}.

Definition unset : Settings := {| dailyBudget := Undefined |}.

Definition budget (q : Q) : Settings := {| dailyBudget := Num (Fin q) |}.

Definition you_bob_carol : OrderData :=
  order [("Bob", Fin 8); ("You", Fin 10); ("Carol", Fin 5)]%string 2 1 0.

(** ** Sample pages and states *)

Definition idle : State :=
  {| currentSettings := unset;
     calculationResults := None;
     isCalculating := false;
     trace := [] |}.


Definition raw (p : obj value) (d s c : Q) : RawOrderData :=
  {| raw_people := Some p;
     raw_delivery := VNumber (Fin d);
     raw_service := VNumber (Fin s);
     raw_discount := VNumber (Fin c) |}.

(** A page on which only the text parser finds the order. *)
Definition page_of (orderData : RawOrderData) : Page :=
  {| validatePageContext := Ok tt;
     parseFromStructuredElements := None;
     parseFromText := Some orderData;
     showLoadingState := Ok tt;
     displayResults := Ok tt;
     displayError := Ok tt |}.

Definition alice_bob_page : Page :=
  page_of (raw [("Alice", VNumber (Fin 10)); ("Bob", VNumber (Fin 8))]%string
               2 1 0).

(** A stand-in for [ToString] on numbers where a sample needs one. *)
Definition no_digits (_ : number) : string := "#".

(** The calculator runs recorded in a trace. *)
Definition is_calculation (e : event) : bool :=
  match e with
  | DistributionCalculated _ _ => true
  | _ => false
  end.

Definition calculations (st : State) : list event :=
  filter is_calculation (trace st).

(** ** Invalid order data *)

(** The amount is a finite, non-negative number. *)
Definition finite_nonneg (v : value) : bool :=
  match v with
  | VNumber (Fin q) => Qle_bool 0 q
  | _ => false
  end.

(** The amount is a number above 1000. *)
Definition above_1000 (v : value) : bool :=
  match v with
  | VNumber n => gt n (Fin 1000)
  | _ => false
  end.

(** The order has no participant, more than 50 of them, or an amount that
    is not a finite non-negative number or lies above 1000. *)
Definition invalid_order (orderData : RawOrderData) : Prop :=
  exists people : obj value,
    raw_people orderData = Some people
    /\ (people = []
        \/ (50 < List.length people)%nat
        \/ exists name amount,
             In (name, amount) people
             /\ (finite_nonneg amount = false \/ above_1000 amount = true)).

Definition minus_one_page : Page :=
  page_of (raw [("Alice", VNumber (Fin 10)); ("Bob", VNumber (Fin (-1)))]%string
               2 1 0).

(** ** Sample orders for the budget and for the alternative split *)

Definition alice_20 : OrderData := order [("Alice", Fin 20)]%string 0 0 0.








(** Three orders of 14.00 and a delivery fee of two cents. *)
Definition two_cent_fee : OrderData :=
  order [("Alice", Fin 14); ("Bob", Fin 14); ("Carol", Fin 14)]%string
        0.02 0 0.

(** The sums of the conservation property. *)
Definition total_finalPayment (r : DistributionResult) : number :=
  sum (map finalPayment (values (results r))).

Definition total_budgetHelpReceived (r : DistributionResult) : number :=
  sum (map budgetHelpReceived (values (results r))).

(** ** Step 2 as the specification words it *)

(** [overBudget / totalOverBudget], 0 when [totalOverBudget] is 0. *)
Definition proportionOfShortfall (ob totalOver : number) : number :=
  if strict_eq totalOver (Fin 0) then Fin 0 else div ob totalOver.

(** [min(overBudget, totalExtraBudget * proportionOfShortfall)] *)
Definition planned_help (ob totalExtra totalOver : number) : number :=
  min ob (mul totalExtra (proportionOfShortfall ob totalOver)).


(** Orders of 15, 16 and 13 on a budget of 14, without fees. *)
Definition two_short_one_spare : OrderData :=
  order [("Alice", Fin 15); ("Bob", Fin 16); ("Carol", Fin 13)]%string 0 0 0.

(** Orders of 5, 14 and 23 sharing a delivery fee of 1. *)
Definition thirds : OrderData :=
  order [("Alice", Fin 5); ("Bob", Fin 14); ("Carol", Fin 23)]%string 1 0 0.

(** ** Finite results *)





(** An order without participants, as the calculator never receives it. *)
Definition nobody : OrderData := order [] 2 1 0.


(** ** Further quantities of the calculator *)

(** Amounts are not negative and the shared costs do not lower anyone's
    total. *)
Definition nonneg_order (od : OrderData) : bool :=
  forallb (le (Fin 0)) (values (people od))
  && le (Fin 0) (sharedCostsTotal od).

(** ** Acceptable order data *)

(** A name that is not blank with an amount between 0 and 1000. *)
Definition valid_participant (entry : string * value) : bool :=
  negb (blank (fst entry))
  && match snd entry with
     | VNumber (Fin q) => Qle_bool 0 q && Qle_bool q 1000
     | _ => false
     end.

(** A fee that is absent or a number other than [NaN]. *)
Definition valid_fee (v : value) : bool :=
  match v with
  | VUndefined => true
  | VNumber n => negb (isNaN n)
  | _ => false
  end.

Definition acceptable (orderData : RawOrderData) : bool :=
  match raw_people orderData with
  | Some p =>
      (1 <=? List.length p)%nat && (List.length p <=? 50)%nat
      && forallb valid_participant p
      && valid_fee (raw_delivery orderData)
      && valid_fee (raw_service orderData)
      && valid_fee (raw_discount orderData)
  | None => false
  end.

(** ** The entry points of the content script *)

(** The reply sent to the popup. *)
Inductive response : Type :=
| Success (results : obj ParticipantDetail) (breakdown : Breakdown.t)
    (withinBudget : bool) (orderCreator : option string)
| Failure (error : string).

(** [message || fallback] on strings. *)
Definition or_else (message fallback : string) : string :=
  if (message =? EmptyString)%string then fallback else message.

(** Reading [result.results] when [calculateAndDisplay] returned
    [undefined] raises this [TypeError]. *)
Definition undefined_results : string :=
  "Cannot read properties of undefined (reading 'results')".

(** [message.settings], as far as the calculator reads it: [None] when it
    has no [dailyBudget] property. *)
Definition settings_patch : Type := option setting.

(** The messages the content script listens to. *)
Inductive message : Type :=
| TRIGGER_CALCULATION
| SETTINGS_UPDATED (settings : settings_patch)
| OtherMessage (type : string).

(** [{ ...currentSettings, ...settings }] *)
Definition merge_settings (currentSettings : Settings)
    (settings : settings_patch) : Settings :=
  match settings with
  | Some v => {| dailyBudget := v |}
  | None => currentSettings
  end.

Definition set_currentSettings (s : Settings) (st : State) : State :=
  {| currentSettings := s;
     calculationResults := calculationResults st;
     isCalculating := isCalculating st;
     trace := trace st |}.

Section EntryPoints.
Variable show_number : number -> string.

Definition handleTriggerCalculation (page : Page) (st : State)
    : response * State :=
  let (o, st) := calculateAndDisplay show_number page true st in
  match o with
  | Returned (Some result) =>
      (Success (results result) (breakdown result) (withinBudget result)
               (orderCreator result), st)
  | Returned None => (Failure undefined_results, st)
  | Thrown m => (Failure (or_else m "Calculation failed"), st)
  end.

(** The timer callback of [scheduleAutoCalculation]; [None] when it does
    not start a calculation. *)
Definition autoCalculation (page : Page) (st : State)
    : option outcome * State :=
  if negb (isCalculating st) then
    let (o, st) := calculateAndDisplay show_number page false st in
    (Some o, st)
  else (None, st).

(** The listener of [setupMessageListeners]: the reply, if one is sent,
    and whether the channel is kept open. *)
Definition onMessage (page : Page) (m : message) (st : State)
    : option response * bool * State :=
  match m with
  | TRIGGER_CALCULATION =>
      let (reply, st) := handleTriggerCalculation page st in
      (Some reply, true, st)
  | SETTINGS_UPDATED settings =>
      (None, false,
       set_currentSettings (merge_settings (currentSettings st) settings) st)
  | OtherMessage _ => (None, false, st)
  end.

End EntryPoints.

(** ** The popup: the payment request *)

Module Payment.
Record t : Type := { name : string; amount : number }.
End Payment.

Definition nl : string := String (ascii_of_nat 10) EmptyString.

(** The symbols of the message, as the source file spells them. *)
Definition card_symbol : string := "ðŸ’³".
Definition bullet_symbol : string := "â€¢".
Definition euro_symbol : string := "â‚¬".

(** [details.status === 'pays'] *)
Definition is_pays (s : Status) : bool :=
  match s with
  | pays => true
  | _ => false
  end.

(** One round of the [forEach] that collects the payments. *)
Definition collect_payment (acc : list Payment.t * number)
    (entry : string * ParticipantDetail) : list Payment.t * number :=
  let (paymentList, totalAmount) := acc in
  let (name, details) := entry in
  if is_pays (status details) && gt (finalPayment details) (Fin 0) then
    (paymentList
       ++ [{| Payment.name := name;
              Payment.amount := finalPayment details |}],
     add totalAmount (finalPayment details))
  else (paymentList, totalAmount).

Definition collect_payments (results : obj ParticipantDetail)
    : list Payment.t * number :=
  fold_left collect_payment (entries results) ([], Fin 0).

Definition no_payments : string := "No payments required for this order.".

(** [if (s)] on a string that may be [null]. *)
Definition nonempty (s : option string) : bool :=
  match s with
  | Some s => negb (s =? EmptyString)%string
  | None => false
  end.

Section Tikkie.

(** [x.toFixed(2)] as text; the digits are outside the model. *)
Variable toFixed : number -> string.

Definition payment_line (message : string) (payment : Payment.t) : string :=
  (message ++ bullet_symbol ++ " " ++ Payment.name payment ++ ": "
   ++ euro_symbol ++ toFixed (Payment.amount payment) ++ nl)%string.

Definition generateTikkieMessage (results : obj ParticipantDetail)
    (orderCreator : option string) (tikkieLink : string) : string :=
  let (paymentList, totalAmount) := collect_payments results in
  if (List.length paymentList =? 0)%nat then no_payments
  else
    let message :=
      (card_symbol ++ " Payment Request for Group Order" ++ nl ++ nl)%string
    in
    let message :=
      if negb (tikkieLink =? EmptyString)%string
      then (message ++ "Please transfer your share to: " ++ tikkieLink
            ++ nl ++ nl)%string
      else (message
            ++ "Please transfer your share using the payment details below:"
            ++ nl ++ nl)%string in
    let message := (message ++ "Payment breakdown:" ++ nl)%string in
    let message := fold_left payment_line paymentList message in
    let message :=
      (message ++ nl ++ "Total to collect: " ++ euro_symbol
       ++ toFixed totalAmount)%string in
    let message :=
      match orderCreator with
      | Some c =>
          if nonempty orderCreator
          then (message ++ nl ++ "Payments to: " ++ c)%string
          else message
      | None => message
      end in
    (message ++ nl ++ nl ++ "Thank you!")%string.

End Tikkie.

(** [hasPaymentObligations] of the popup's [displayResults]: whether the
    payment request is shown. *)
Definition hasPaymentObligations (results : obj ParticipantDetail)
    (withinBudget : bool) : bool :=
  (0 <? List.length (keys results))%nat && negb withinBudget.

(** An entry whose payment is a finite amount, not negative, and 0 unless
    the status is 'pays'. *)
Definition settled (e : ParticipantDetail) : Prop :=
  exists f : Q,
    finalPayment e = Fin f /\ 0 <= f
    /\ (is_pays (status e) = false -> f == 0).

(** ** The charges of the background script *)

(** What [calculateOrderDistribution] charges a participant. *)
Definition background_charge (od : OrderData) (settings : Settings)
    (name : string) : number :=
  overage_of (people od) (Background.budget_of settings)
             (Background.extraPerPerson od) (discount od)
             (sum (values (people od))) name.

(** The discount can be shared by order size: there is none, or the order
    subtotal is positive. *)
Definition discount_shared (od : OrderData) : bool :=
  strict_eq (discount od) (Fin 0) || gt (sum (values (people od))) (Fin 0).

(** * Reading amounts from the text of the page *)

(** ** Text *)

(** The text handled by the parsers: a JavaScript string as the list of its
    UTF-16 code units. *)
Module Text.

Definition text : Type := list N.

(** An ASCII literal of the source. *)
Definition of_string (s : string) : text :=
  map N_of_ascii (list_ascii_of_string s).

(** U+20AC, the euro sign *)
Definition euro : N := 8364%N.
Definition dot : N := 46%N.
Definition comma : N := 44%N.
Definition minus : N := 45%N.
Definition plus : N := 43%N.

(** [\d] *)
Definition is_digit (c : N) : bool := (48 <=? c)%N && (c <=? 57)%N.

(** [\s], and the white space [parseFloat] skips: TAB, LF, VT, FF, CR,
    space, U+00A0, U+1680, U+2000 to U+200A, U+2028, U+2029, U+202F, U+205F,
    U+3000 and U+FEFF. *)
Definition is_space (c : N) : bool :=
  ((9 <=? c)%N && (c <=? 13)%N) || (c =? 32)%N || (c =? 160)%N
  || (c =? 5760)%N || ((8192 <=? c)%N && (c <=? 8202)%N)
  || (c =? 8232)%N || (c =? 8233)%N || (c =? 8239)%N || (c =? 8287)%N
  || (c =? 12288)%N || (c =? 65279)%N.

(** The canonical form under the flag [i]: upper case.  Only the ASCII
    letters are mapped: the patterns of this program hold ASCII characters
    and the euro sign, and no other character has one of those as its
    canonical form. *)
Definition canonicalize (c : N) : N :=
  if (97 <=? c)%N && (c <=? 122)%N then (c - 32)%N else c.

Definition lower (c : N) : N :=
  if (65 <=? c)%N && (c <=? 90)%N then (c + 32)%N else c.

(** [s.toLowerCase()], on the ASCII letters; it is applied to text matched
    by ASCII letters and white space. *)
Definition toLowerCase (s : text) : text := map lower s.

Fixpoint startsWith (s pat : text) : bool :=
  match pat, s with
  | [], _ => true
  | _ :: _, [] => false
  | p :: pr, c :: r => (p =? c)%N && startsWith r pr
  end.

(** [s.includes(pat)] *)
Fixpoint includes (s pat : text) : bool :=
  startsWith s pat ||
  match s with
  | [] => false
  | _ :: r => includes r pat
  end.

(** [s.replace(/c/g, '')] for a character [c] *)
Definition remove_all (c : N) (s : text) : text :=
  filter (fun x => negb (x =? c)%N) s.

(** [s.replace(a, b)] for characters [a] and [b]: the first [a] only. *)
Fixpoint replace_first (a b : N) (s : text) : text :=
  match s with
  | [] => []
  | c :: r => if (c =? a)%N then b :: r else c :: replace_first a b r
  end.

(** The longest prefix of characters in a class, and what follows it. *)
Fixpoint span (p : N -> bool) (s : text) : text * text :=
  match s with
  | [] => ([], [])
  | c :: r =>
      if p c then let (a, b) := span p r in (c :: a, b) else ([], s)
  end.

Fixpoint trimStart (s : text) : text :=
  match s with
  | [] => []
  | c :: r => if is_space c then trimStart r else s
  end.

(** ** parseFloat *)

Definition digit_of (c : N) : Z := Z.of_N (c - 48)%N.

(** The number a string of decimal digits denotes. *)
Definition number_of_digits (ds : text) : Z :=
  fold_left (fun acc c => (10 * acc + digit_of c)%Z) ds 0%Z.

Definition sign_of (s : text) : bool * text :=
  match s with
  | [] => (false, [])
  | c :: r =>
      if (c =? minus)%N then (true, r)
      else if (c =? plus)%N then (false, r)
      else (false, s)
  end.

(** The exponent part [e], [e+] or [e-] with digits, where there is one. *)
Definition exponent_of (s : text) : Z :=
  match s with
  | [] => 0%Z
  | c :: r =>
      if (c =? 101)%N || (c =? 69)%N then
        let (negative, r) := sign_of r in
        let (ds, _) := span is_digit r in
        match ds with
        | [] => 0%Z
        | _ => if negative then (- number_of_digits ds)%Z
               else number_of_digits ds
        end
      else 0%Z
  end.

Definition pow10 (e : Z) : Q :=
  if (0 <=? e)%Z then inject_Z (10 ^ e) else / inject_Z (10 ^ (- e)).

(** [parseFloat(s)]: the longest prefix of the trimmed string that is a
    decimal literal, [NaN] where there is none. *)
Definition parseFloat (s : text) : number :=
  let (negative, s) := sign_of (trimStart s) in
  if startsWith s (of_string "Infinity")
  then (if negative then NegInf else PosInf)
  else
    let (int, s1) := span is_digit s in
    let (frac, s2) :=
      match s1 with
      | [] => ([], [])
      | c :: r => if (c =? dot)%N then span is_digit r else ([], s1)
      end in
    match int ++ frac with
    | [] => NaN
    | ds =>
        let q := inject_Z (number_of_digits ds)
                 * pow10 (exponent_of s2 - Z.of_nat (List.length frac)) in
        Fin (if negative then - q else q)
    end.

End Text.

(** ** Regular expressions *)

(** The regular expressions of the parsers and their matching by
    backtracking: alternatives in order, quantifiers greedy. *)
Module RegExp.

Import Text.

Inductive regex : Type :=
| Eps
| Bol                          (* ^ *)
| Chr (c : N)
| Lit (s : text)               (* the characters of [s] in a row *)
| Set_ (p : N -> bool)         (* a class: \s, \d, [...] *)
| Seq (r1 r2 : regex)
| Alt (r1 r2 : regex)          (* r1|r2 *)
| Opt (r : regex)              (* r? *)
| Star (r : regex)             (* r* *)
| Plus (r : regex)             (* r+ *)
| Group (i : nat) (r : regex). (* the i-th pair of parentheses *)

Fixpoint cat (rs : list regex) : regex :=
  match rs with
  | [] => Eps
  | r :: rs => Seq r (cat rs)
  end.

Fixpoint any (r : regex) (rs : list regex) : regex :=
  match rs with
  | [] => r
  | r' :: rs => Alt r (any r' rs)
  end.

(** The captures of a match so far, the latest first. *)
Definition captures : Type := list (nat * text).

Fixpoint capture (caps : captures) (i : nat) : option text :=
  match caps with
  | [] => None
  | (j, s) :: r => if (j =? i)%nat then Some s else capture r i
  end.

(** What is left of the input after a match, and the captures. *)
Definition state : Type := (text * captures)%type.

Definition cont : Type := text -> captures -> option state.

(** Greedy repetition of [step]; an iteration that consumes nothing is
    given up. *)
Fixpoint star (step : text -> captures -> cont -> option state) (fuel : nat)
    (s : text) (caps : captures) (k : cont) : option state :=
  match fuel with
  | O => k s caps
  | S fuel =>
      match step s caps
              (fun s' caps' =>
                 if (List.length s' <? List.length s)%nat
                 then star step fuel s' caps' k
                 else None) with
      | Some x => Some x
      | None => k s caps
      end
  end.

Section Matcher.
Variable ignoreCase : bool.
Variable input : text.

(** A character of the pattern against one of the input. *)
Definition same (c h : N) : bool :=
  if ignoreCase then (canonicalize c =? canonicalize h)%N else (c =? h)%N.

Fixpoint literal (p s : text) : option text :=
  match p, s with
  | [], _ => Some s
  | _ :: _, [] => None
  | c :: p, h :: s => if same c h then literal p s else None
  end.

(** [m r s caps k]: match [r] at the suffix [s] of the input and go on with
    [k]; [None] when every way of matching fails. *)
Fixpoint m (r : regex) (s : text) (caps : captures) (k : cont) {struct r}
    : option state :=
  match r with
  | Eps => k s caps
  | Bol =>
      if (List.length s =? List.length input)%nat then k s caps else None
  | Chr c =>
      match s with
      | h :: t => if same c h then k t caps else None
      | [] => None
      end
  | Lit p =>
      match literal p s with
      | Some t => k t caps
      | None => None
      end
  | Set_ p =>
      match s with
      | h :: t => if p h then k t caps else None
      | [] => None
      end
  | Seq a b => m a s caps (fun s' caps' => m b s' caps' k)
  | Alt a b =>
      match m a s caps k with
      | Some x => Some x
      | None => m b s caps k
      end
  | Opt a =>
      match m a s caps k with
      | Some x => Some x
      | None => k s caps
      end
  | Star a => star (m a) (S (List.length s)) s caps k
  | Plus a =>
      m a s caps
        (fun s' caps' => star (m a) (S (List.length s')) s' caps' k)
  | Group i a =>
      m a s caps
        (fun s' caps' =>
           k s' ((i, firstn (List.length s - List.length s') s) :: caps'))
  end.

(** A match that starts at the suffix [s]. *)
Definition match_at (r : regex) (s : text) : option state :=
  m r s [] (fun s' caps => Some (s', caps)).

(** The first match, trying the start positions from the left. *)
Fixpoint search (r : regex) (s : text) : option state :=
  match match_at r s with
  | Some x => Some x
  | None =>
      match s with
      | [] => None
      | _ :: t => search r t
      end
  end.

End Matcher.

(** [s.match(r)] for a pattern without the flag [g]: the captures of the
    first match. *)
Definition exec (ignoreCase : bool) (r : regex) (s : text)
    : option captures :=
  match search ignoreCase s r s with
  | Some (_, caps) => Some caps
  | None => None
  end.

(** [m[i]] for a pair of parentheses that lies on every path of the
    pattern. *)
Definition group (caps : captures) (i : nat) : text :=
  match capture caps i with
  | Some s => s
  | None => []
  end.

End RegExp.

(** ** parseFeesFromText *)

Module Fees.
Record t : Type := {
  delivery : number;
  service : number;
  discount : number
}.
End Fees.

(** [[\d.,-]] *)
Definition is_amount_char (c : N) : bool :=
  Text.is_digit c || (c =? Text.dot)%N || (c =? Text.comma)%N
  || (c =? Text.minus)%N.

Definition white : RegExp.regex := RegExp.Set_ Text.is_space.

(** [([\d.,-]+)] as the second pair of parentheses *)
Definition amount_group : RegExp.regex :=
  RegExp.Group 2 (RegExp.Plus (RegExp.Set_ is_amount_char)).

Definition delivery_words : list Text.text :=
  [Text.of_string "Delivery cost"; Text.of_string "Bezorgkosten";
   Text.of_string "Delivery fee"; Text.of_string "Leveringskosten"].

(** [/^(Delivery costs?|Bezorgkosten|Delivery fee|Leveringskosten)\s+€\s*([\d.,-]+)/i] *)
Definition delivery_pattern : RegExp.regex :=
  RegExp.cat
    [RegExp.Bol;
     RegExp.Group 1
       (RegExp.any
          (RegExp.Seq (RegExp.Lit (Text.of_string "Delivery cost"))
                      (RegExp.Opt (RegExp.Chr 115%N)))
          [RegExp.Lit (Text.of_string "Bezorgkosten");
           RegExp.Lit (Text.of_string "Delivery fee");
           RegExp.Lit (Text.of_string "Leveringskosten")]);
     RegExp.Plus white;
     RegExp.Chr Text.euro;
     RegExp.Star white;
     amount_group].

Definition service_words : list Text.text :=
  [Text.of_string "Service fee"; Text.of_string "Servicekosten";
   Text.of_string "Service charge"].

(** [/^(Service fee|Servicekosten|Service charge)\s+€\s*([\d.,-]+)/i] *)
Definition service_pattern : RegExp.regex :=
  RegExp.cat
    [RegExp.Bol;
     RegExp.Group 1
       (RegExp.any
          (RegExp.Lit (Text.of_string "Service fee"))
          [RegExp.Lit (Text.of_string "Servicekosten");
           RegExp.Lit (Text.of_string "Service charge")]);
     RegExp.Plus white;
     RegExp.Chr Text.euro;
     RegExp.Star white;
     amount_group].

(** [/^(Thuisbezorgd\s+Pay|Discount|Voucher|Kortingsbon|Korting|Coupon)\s+[-]?€\s*([\d.,-]+)/i] *)
Definition discount_pattern : RegExp.regex :=
  RegExp.cat
    [RegExp.Bol;
     RegExp.Group 1
       (RegExp.any
          (RegExp.cat [RegExp.Lit (Text.of_string "Thuisbezorgd");
                       RegExp.Plus white;
                       RegExp.Lit (Text.of_string "Pay")])
          [RegExp.Lit (Text.of_string "Discount");
           RegExp.Lit (Text.of_string "Voucher");
           RegExp.Lit (Text.of_string "Kortingsbon");
           RegExp.Lit (Text.of_string "Korting");
           RegExp.Lit (Text.of_string "Coupon")]);
     RegExp.Plus white;
     RegExp.Opt (RegExp.Chr Text.minus);
     RegExp.Chr Text.euro;
     RegExp.Star white;
     amount_group].

(** [parseFloat(s.replace(/\./g, '').replace(',', '.'))]: how every parser
    of the content script reads an amount. *)
Definition price_of (s : Text.text) : number :=
  Text.parseFloat
    (Text.replace_first Text.comma Text.dot (Text.remove_all Text.dot s)).

(** The body of the loop over the lines. *)
Definition fee_line (fees : Fees.t) (line : Text.text) : Fees.t :=
  match RegExp.exec true delivery_pattern line with
  | Some m =>
      {| Fees.delivery := price_of (RegExp.group m 2);
         Fees.service := Fees.service fees;
         Fees.discount := Fees.discount fees |}
  | None =>
      match RegExp.exec true service_pattern line with
      | Some m =>
          {| Fees.delivery := Fees.delivery fees;
             Fees.service := price_of (RegExp.group m 2);
             Fees.discount := Fees.discount fees |}
      | None =>
          match RegExp.exec true discount_pattern line with
          | Some m =>
              let value := price_of (RegExp.group m 2) in
              let discount :=
                if Text.includes (Text.toLowerCase (RegExp.group m 1))
                                 (Text.of_string "thuisbezorgd")
                then sub (Fees.discount fees) value
                else if Text.includes line [Text.minus; Text.euro]
                        || Text.includes line [Text.minus; 32%N; Text.euro]
                     then sub (Fees.discount fees) value
                     else add (Fees.discount fees) value in
              {| Fees.delivery := Fees.delivery fees;
                 Fees.service := Fees.service fees;
                 Fees.discount := discount |}
          | None => fees
          end
      end
  end.

Definition parseFeesFromText (lines : list Text.text) : Fees.t :=
  fold_left fee_line lines
    {| Fees.delivery := Fin 0; Fees.service := Fin 0;
       Fees.discount := Fin 0 |}.

(** ** The budget field of the popup *)

(** The [dailyBudget] that [saveSettings] sends for the text of the budget
    field. *)
Definition saveSettings_dailyBudget (dailyBudgetInput : Text.text) : number :=
  match dailyBudgetInput with
  | [] => Fin 14
  | _ =>
      let dailyBudget := Text.parseFloat dailyBudgetInput in
      if isNaN dailyBudget || lt dailyBudget (Fin 0) then Fin 14
      else dailyBudget
  end.

(** ** Sample lines *)

Definition delivery_2_50 : Text.text :=
  Text.of_string "Delivery costs " ++ [Text.euro] ++ Text.of_string "2,50".

Definition bezorgkosten_1234_56 : Text.text :=
  Text.of_string "bezorgkosten  " ++ [Text.euro; 32%N]
  ++ Text.of_string "1.234,56".

Definition pay_5 : Text.text :=
  Text.of_string "Thuisbezorgd Pay " ++ [Text.euro]
  ++ Text.of_string "5,00".

Definition korting_3 : Text.text :=
  Text.of_string "Korting -" ++ [Text.euro] ++ Text.of_string "3,00".

(** ** Shapes of lines *)

(** [l] is [word] up to the case of its letters. *)
Definition spelled (l word : Text.text) : Prop :=
  map Text.canonicalize l = map Text.canonicalize word.

(** [line] begins with [word], up to the case of its letters. *)
Definition begins (line word : Text.text) : Prop :=
  exists l rest, line = l ++ rest /\ spelled l word.

(** White space, at least one character of it where [nonempty]. *)
Definition spaces (ws : Text.text) : bool := forallb Text.is_space ws.

(** [rest] does not go on with a character of the class. *)
Definition stops (p : N -> bool) (rest : Text.text) : bool :=
  match rest with
  | [] => true
  | c :: _ => negb (p c)
  end.

(** A run of the characters of an amount that stops at [rest]. *)
Definition amount_text (amount rest : Text.text) : bool :=
  negb (List.length amount =? 0)%nat && forallb is_amount_char amount
  && stops is_amount_char rest.

Definition digits (ds : Text.text) : bool := forallb Text.is_digit ds.

(** The first words of the three patterns. *)
Definition fee_words : list Text.text :=
  delivery_words ++ service_words
  ++ [Text.of_string "Thuisbezorgd"; Text.of_string "Discount";
      Text.of_string "Voucher"; Text.of_string "Kortingsbon";
      Text.of_string "Korting"; Text.of_string "Coupon"].

Inductive fee_kind : Type := Delivery | Service.

(** The labels a fee line can begin with. *)
Definition labels_of (kind : fee_kind) : list Text.text :=
  match kind with
  | Delivery =>
      [Text.of_string "Delivery cost"; Text.of_string "Delivery costs";
       Text.of_string "Bezorgkosten"; Text.of_string "Delivery fee";
       Text.of_string "Leveringskosten"]
  | Service => service_words
  end.

Definition set_fee (kind : fee_kind) (v : number) (fees : Fees.t) : Fees.t :=
  match kind with
  | Delivery =>
      {| Fees.delivery := v; Fees.service := Fees.service fees;
         Fees.discount := Fees.discount fees |}
  | Service =>
      {| Fees.delivery := Fees.delivery fees; Fees.service := v;
         Fees.discount := Fees.discount fees |}
  end.

(** The labels of a discount line other than Thuisbezorgd Pay. *)
Definition discount_labels : list Text.text :=
  [Text.of_string "Discount"; Text.of_string "Voucher";
   Text.of_string "Kortingsbon"; Text.of_string "Korting";
   Text.of_string "Coupon"].

Definition set_discount (v : number) (fees : Fees.t) : Fees.t :=
  {| Fees.delivery := Fees.delivery fees; Fees.service := Fees.service fees;
     Fees.discount := v |}.

(** A pattern character that is a letter, the euro sign or the minus sign:
    it matches no white space. *)
Definition no_space (p : N) : Prop :=
  (65 <= p <= 122)%N \/ p = Text.euro \/ p = Text.minus.

(** A label 'Thuisbezorgd Pay': the two words in any letter case, white
    space between them. *)
Definition pay_label (label : Text.text) : Prop :=
  exists l1 ws1 l2,
    label = l1 ++ ws1 ++ l2
    /\ spelled l1 (Text.of_string "Thuisbezorgd")
    /\ ws1 <> [] /\ spaces ws1 = true
    /\ spelled l2 (Text.of_string "Pay").

(** The line holds '-€' or '- €'. *)
Definition marked_negative (line : Text.text) : bool :=
  Text.includes line [Text.minus; Text.euro]
  || Text.includes line [Text.minus; 32%N; Text.euro].

(** ** Shapes of amounts *)

(** Digits with dots between them, as in 1.234 *)
Definition grouped (g : Text.text) : bool :=
  forallb (fun c => Text.is_digit c || (c =? Text.dot)%N) g.

Definition no_digit (s : Text.text) : bool :=
  forallb (fun c => negb (Text.is_digit c)) s.

(** The decimal number with the integer digits [i] and the fraction digits
    [f]. *)
Definition decimal (i f : Text.text) : Q :=
  inject_Z (Text.number_of_digits (i ++ f))
  / inject_Z (10 ^ Z.of_nat (List.length f)).

(** ** safeParseFloat *)

(** What [safeParseFloat] tells apart in its argument. *)
Module Any.
Inductive t : Type :=
| null
| undefined
| number_ (n : number)
| string_ (s : Text.text)
| other.
End Any.

(** [[€$£¥,\s]] *)
Definition is_currency_or_space (c : N) : bool :=
  (c =? Text.euro)%N || (c =? 36)%N || (c =? 163)%N || (c =? 165)%N
  || (c =? Text.comma)%N || Text.is_space c.

(** [value.replace(/[€$£¥,\s]/g, '')] *)
Definition strip_currency (s : Text.text) : Text.text :=
  filter (fun c => negb (is_currency_or_space c)) s.

(** [defaultValue] is [None] where the caller leaves it out. *)
Definition safeParseFloat (value : Any.t) (defaultValue : option number)
    : number :=
  let defaultValue :=
    match defaultValue with
    | Some d => d
    | None => Fin 0
    end in
  match value with
  | Any.null | Any.undefined => defaultValue
  | Any.number_ n => if isNaN n then defaultValue else n
  | Any.string_ s =>
      let cleaned :=
        Text.replace_first Text.comma Text.dot (strip_currency s) in
      let parsed := Text.parseFloat cleaned in
      if isNaN parsed then defaultValue else parsed
  | Any.other => defaultValue
  end.

(** ** parseParticipantItems *)






(** * Properties *)

(** ** Rounding to cents *)

Section Rounding.

Lemma Qle_bool_false (a b : Q) : Qle_bool a b = false <-> b < a.
Proof.
  split; intro H.
  - apply Qnot_le_lt. intro L. apply Qle_bool_iff in L. congruence.
  - destruct (Qle_bool a b) eqn:E; [|reflexivity].
    apply Qle_bool_iff in E. lra.
Qed.

Lemma Qlt_bool_iff (a b : Q) : Qlt_bool a b = true <-> a < b.
Proof.
  unfold Qlt_bool. rewrite negb_true_iff. apply Qle_bool_false.
Qed.

Lemma Qlt_bool_false (a b : Q) : Qlt_bool a b = false <-> b <= a.
Proof.
  unfold Qlt_bool. rewrite negb_false_iff. apply Qle_bool_iff.
Qed.

Lemma Qeq_bool_false (a b : Q) : Qeq_bool a b = false <-> ~ a == b.
Proof.
  split; intro H.
  - intro E. apply Qeq_bool_iff in E. congruence.
  - destruct (Qeq_bool a b) eqn:E; [|reflexivity].
    apply Qeq_bool_iff in E. contradiction.
Qed.

Lemma cents_Q (n : Z) : n # 100 == inject_Z n * (1 # 100).
Proof. rewrite Qmake_Qdiv. reflexivity. Qed.

(** [nearest_cents x / 100] is within half a cent of [x]. *)
Lemma nearest_cents_bounds (x : Q) :
  x - (1 # 200) < nearest_cents x # 100 <= x + (1 # 200).
Proof.
  unfold nearest_cents. rewrite cents_Q.
  pose proof (Qfloor_le (x * 100 + (1 # 2))) as Hle.
  pose proof (Qlt_floor (x * 100 + (1 # 2))) as Hlt.
  rewrite inject_Z_plus in Hlt. change (inject_Z 1) with 1 in Hlt.
  set (f := inject_Z (Qfloor (x * 100 + (1 # 2)))) in *.
  lra.
Qed.

Lemma nearest_cents_mono (x y : Q) :
  x <= y -> (nearest_cents x <= nearest_cents y)%Z.
Proof.
  intro H. unfold nearest_cents. apply Qfloor_resp_le. lra.
Qed.

Lemma cents_le (n m : Z) : (n <= m)%Z -> n # 100 <= m # 100.
Proof. intro H. unfold Qle. simpl. lia. Qed.

Lemma nearest_cents_of_cents (n : Z) : nearest_cents (n # 100) = n.
Proof.
  unfold nearest_cents.
  assert (E : (n # 100) * 100 + (1 # 2) == inject_Z n + (1 # 2)).
  { rewrite cents_Q. ring. }
  rewrite (Qfloor_comp _ _ E).
  apply Z.le_antisymm.
  - assert (H : (Qfloor (inject_Z n + (1 # 2)) < n + 1)%Z).
    { rewrite Zlt_Qlt. rewrite inject_Z_plus.
      pose proof (Qfloor_le (inject_Z n + (1 # 2))). 
      change (inject_Z 1) with 1. lra. }
    lia.
  - rewrite <- (Qfloor_Z n) at 1. apply Qfloor_resp_le. lra.
Qed.

End Rounding.

Section ToFixed.

Lemma ten_pow_21_cents : ten_pow_21 == (10 ^ 23) # 100.
Proof. reflexivity. Qed.

Lemma ten_pow_21_pos : 0 < ten_pow_21.
Proof. reflexivity. Qed.

Lemma Qabs_ge (x t : Q) : t <= Qabs x -> x <= - t \/ t <= x.
Proof.
  apply Qabs_case; intros; [right | left]; lra.
Qed.

Lemma Qabs_lt (x t : Q) : Qabs x < t -> - t < x < t.
Proof. apply Qabs_Qlt_condition. Qed.

(** The three branches of [toFixed]. *)
Lemma toFixed2Q_cases (x : Q) :
  ((x <= - ten_pow_21 \/ ten_pow_21 <= x) /\ toFixed2Q x = x) \/
  (0 <= x < ten_pow_21 /\ toFixed2Q x = nearest_cents x # 100) \/
  (- ten_pow_21 < x < 0 /\ toFixed2Q x = - (nearest_cents (- x) # 100)).
Proof.
  unfold toFixed2Q.
  destruct (Qle_bool ten_pow_21 (Qabs x)) eqn:B.
  - left. apply Qle_bool_iff in B. split; [apply Qabs_ge; exact B | reflexivity].
  - apply Qle_bool_false in B. apply Qabs_lt in B.
    destruct (Qle_bool 0 x) eqn:S.
    + apply Qle_bool_iff in S. right; left. split; [lra | reflexivity].
    + apply Qle_bool_false in S. right; right. split; [lra | reflexivity].
Qed.

Lemma cents_below_limit (x : Q) :
  0 <= x < ten_pow_21 -> 0 <= nearest_cents x # 100 <= ten_pow_21.
Proof.
  intros [H0 H1].
  pose proof (nearest_cents_bounds x) as [_ Hu].
  split.
  - assert (L : 0 # 100 <= nearest_cents x # 100).
    { apply cents_le. rewrite <- (nearest_cents_of_cents 0).
      apply nearest_cents_mono. lra. }
    lra.
  - rewrite ten_pow_21_cents. apply cents_le.
    assert (L : (nearest_cents x < 10 ^ 23 + 1)%Z).
    { rewrite Zlt_Qlt, inject_Z_plus. change (inject_Z 1) with 1.
      rewrite cents_Q in Hu. rewrite ten_pow_21_cents, cents_Q in H1.
      set (n := inject_Z (nearest_cents x)) in *.
      set (T := inject_Z (10 ^ 23)) in *.
      lra. }
    lia.
Qed.

(** Rounding moves a value by at most half a cent. *)
Lemma toFixed2Q_bounds (x : Q) :
  x - (1 # 200) <= toFixed2Q x <= x + (1 # 200).
Proof.
  destruct (toFixed2Q_cases x) as [[_ E] | [[_ E] | [_ E]]]; rewrite E.
  - lra.
  - pose proof (nearest_cents_bounds x). lra.
  - pose proof (nearest_cents_bounds (- x)). lra.
Qed.

Lemma toFixed2Q_limit (x : Q) :
  - ten_pow_21 < x < ten_pow_21 ->
  - ten_pow_21 <= toFixed2Q x <= ten_pow_21.
Proof.
  intros [Hl Hu]. pose proof ten_pow_21_pos as P.
  destruct (toFixed2Q_cases x) as [[C E] | [[C E] | [C E]]]; rewrite E.
  - lra.
  - pose proof (cents_below_limit x C). lra.
  - assert (C' : 0 <= - x < ten_pow_21) by lra.
    pose proof (cents_below_limit (- x) C'). lra.
Qed.

Lemma toFixed2Q_nonneg (x : Q) : 0 <= x -> 0 <= toFixed2Q x.
Proof.
  intro H. pose proof ten_pow_21_pos as P.
  destruct (toFixed2Q_cases x) as [[C E] | [[C E] | [C E]]]; rewrite E.
  - exact H.
  - apply (cents_below_limit x C).
  - lra.
Qed.

Lemma toFixed2Q_nonpos (x : Q) : x <= 0 -> toFixed2Q x <= 0.
Proof.
  intro H. pose proof ten_pow_21_pos as P.
  destruct (toFixed2Q_cases x) as [[C E] | [[C E] | [C E]]]; rewrite E.
  - exact H.
  - assert (Z0 : x == 0) by lra.
    assert (N : nearest_cents x = 0%Z).
    { unfold nearest_cents.
      rewrite (Qfloor_comp (x * 100 + (1 # 2)) (1 # 2)) by lra. reflexivity. }
    rewrite N. lra.
  - assert (C' : 0 <= - x < ten_pow_21) by lra.
    pose proof (cents_below_limit (- x) C'). lra.
Qed.

(** Rounding is monotone. *)
Lemma toFixed2Q_mono (x y : Q) : x <= y -> toFixed2Q x <= toFixed2Q y.
Proof.
  intro H. pose proof ten_pow_21_pos as P.
  destruct (toFixed2Q_cases x) as [[Cx Ex] | [[Cx Ex] | [Cx Ex]]].
  - rewrite Ex.
    destruct Cx as [Cx | Cx].
    + destruct (Qlt_le_dec (- ten_pow_21) y) as [L | L].
      * destruct (Qlt_le_dec y ten_pow_21) as [U | U].
        -- pose proof (toFixed2Q_limit y (conj L U)). lra.
        -- destruct (toFixed2Q_cases y) as [[_ Ey] | [[Cy _] | [Cy _]]];
             [rewrite Ey | |]; lra.
      * destruct (toFixed2Q_cases y) as [[_ Ey] | [[Cy _] | [Cy _]]];
          [rewrite Ey | |]; lra.
    + destruct (toFixed2Q_cases y) as [[_ Ey] | [[Cy _] | [Cy _]]];
        [rewrite Ey | |]; lra.
  - destruct (toFixed2Q_cases y) as [[Cy Ey] | [[Cy Ey] | [Cy Ey]]].
    + rewrite Ey. pose proof (toFixed2Q_limit x). lra.
    + rewrite Ex, Ey. apply cents_le, nearest_cents_mono, H.
    + lra.
  - destruct (toFixed2Q_cases y) as [[Cy Ey] | [[Cy Ey] | [Cy Ey]]].
    + rewrite Ey. pose proof (toFixed2Q_limit x). lra.
    + pose proof (toFixed2Q_nonneg y). pose proof (toFixed2Q_nonpos x). lra.
    + rewrite Ex, Ey.
      assert (M : (nearest_cents (- y) <= nearest_cents (- x))%Z)
        by (apply nearest_cents_mono; lra).
      apply cents_le in M. lra.
Qed.

Lemma toFixed2Q_comp (x y : Q) : x == y -> toFixed2Q x == toFixed2Q y.
Proof.
  intro E. apply Qle_antisym; apply toFixed2Q_mono; lra.
Qed.

(** A rounded value is a fixed point of rounding. *)
Lemma toFixed2Q_idem (x : Q) : toFixed2Q (toFixed2Q x) == toFixed2Q x.
Proof.
  pose proof ten_pow_21_pos as P.
  destruct (toFixed2Q_cases x) as [[Cx Ex] | [[Cx Ex] | [Cx Ex]]].
  - rewrite Ex. rewrite Ex. reflexivity.
  - rewrite Ex. pose proof (cents_below_limit x Cx) as B.
    set (n := nearest_cents x) in *.
    destruct (toFixed2Q_cases (n # 100)) as [[C E] | [[C E] | [C E]]];
      rewrite E.
    + reflexivity.
    + rewrite nearest_cents_of_cents. reflexivity.
    + lra.
  - rewrite Ex.
    assert (C' : 0 <= - x < ten_pow_21) by lra.
    pose proof (cents_below_limit (- x) C') as B.
    set (n := nearest_cents (- x)) in *.
    destruct (toFixed2Q_cases (- (n # 100))) as [[C E] | [[C E] | [C E]]];
      rewrite E.
    + reflexivity.
    + assert (Z0 : n # 100 == 0) by lra.
      assert (N : n = 0%Z).
      { unfold Qeq in Z0. simpl in Z0. lia. }
      rewrite N. reflexivity.
    + assert (Q : nearest_cents (- - (n # 100)) = n).
      { unfold nearest_cents.
        rewrite (Qfloor_comp _ ((n # 100) * 100 + (1 # 2))) by ring.
        apply nearest_cents_of_cents. }
      rewrite Q. reflexivity.
Qed.

End ToFixed.

(** ** Numbers up to equality of rationals *)

#[export] Instance numeq_Equivalence : Equivalence numeq.
Proof.
  split.
  - intros []; simpl; auto with qarith.
  - intros [] []; simpl; auto with qarith.
  - intros [] [] []; simpl; try tauto. apply Qeq_trans.
Qed.

Ltac num_cases :=
  repeat match goal with
         | x : number |- _ => destruct x
         end;
  simpl in *; try tauto.

Ltac same_test :=
  repeat match goal with
         | H : ?a == ?b |- context [Qeq_bool ?a ?c] =>
             rewrite (Qeqb_comp a b H c c (Qeq_refl c))
         | H : ?a == ?b |- context [Qle_bool ?a ?c] =>
             rewrite (Qleb_comp a b H c c (Qeq_refl c))
         | H : ?a == ?b |- context [Qle_bool ?c ?a] =>
             rewrite (Qleb_comp c c (Qeq_refl c) a b H)
         end.

#[export] Instance neg_Proper : Proper (numeq ==> numeq) neg.
Proof. intros x x' Hx. num_cases. rewrite Hx. reflexivity. Qed.

#[export] Instance add_Proper : Proper (numeq ==> numeq ==> numeq) add.
Proof. intros x x' Hx y y' Hy. num_cases. rewrite Hx, Hy. reflexivity. Qed.

#[export] Instance sub_Proper : Proper (numeq ==> numeq ==> numeq) sub.
Proof. intros x x' Hx y y' Hy. unfold sub. rewrite Hx, Hy. reflexivity. Qed.

Lemma inf_times_comp (s : bool) (a b : Q) :
  a == b -> numeq (inf_times s a) (inf_times s b).
Proof.
  intro H. unfold inf_times. same_test.
  destruct (Qeq_bool b 0); [exact I|].
  destruct (xorb s (Qle_bool 0 b)); exact I.
Qed.

#[export] Instance mul_Proper : Proper (numeq ==> numeq ==> numeq) mul.
Proof.
  intros x x' Hx y y' Hy. num_cases; try (apply inf_times_comp; assumption).
  rewrite Hx, Hy. reflexivity.
Qed.

Ltac num_intros :=
  intros [a | | |] [a' | | |] Hx [b | | |] [b' | | |] Hy;
  simpl in *; try tauto; try reflexivity.

#[export] Instance div_Proper : Proper (numeq ==> numeq ==> numeq) div.
Proof.
  num_intros.
  - rewrite (Qeqb_comp _ _ Hy 0 0 (Qeq_refl 0)).
    rewrite (Qeqb_comp _ _ Hx 0 0 (Qeq_refl 0)).
    rewrite (Qleb_comp 0 0 (Qeq_refl 0) _ _ Hx).
    destruct (Qeq_bool b' 0).
    + destruct (Qeq_bool a' 0); [exact I|]. destruct (Qle_bool 0 a'); exact I.
    + simpl. rewrite Hx, Hy. reflexivity.
  - rewrite (Qleb_comp 0 0 (Qeq_refl 0) _ _ Hy).
    destruct (Qle_bool 0 b'); exact I.
  - rewrite (Qleb_comp 0 0 (Qeq_refl 0) _ _ Hy).
    destruct (Qle_bool 0 b'); exact I.
Qed.

#[export] Instance le_Proper : Proper (numeq ==> numeq ==> eq) le.
Proof. num_intros. apply Qleb_comp; assumption. Qed.

#[export] Instance lt_Proper : Proper (numeq ==> numeq ==> eq) lt.
Proof.
  num_intros. unfold Qlt_bool. f_equal. apply Qleb_comp; assumption.
Qed.

#[export] Instance gt_Proper : Proper (numeq ==> numeq ==> eq) gt.
Proof. intros x x' Hx y y' Hy. unfold gt. rewrite Hx, Hy. reflexivity. Qed.

#[export] Instance max_Proper : Proper (numeq ==> numeq ==> numeq) max.
Proof.
  num_intros.
  rewrite (Qleb_comp _ _ Hx _ _ Hy). destruct (Qle_bool a' b'); assumption.
Qed.

#[export] Instance min_Proper : Proper (numeq ==> numeq ==> numeq) min.
Proof.
  num_intros.
  rewrite (Qleb_comp _ _ Hx _ _ Hy). destruct (Qle_bool a' b'); assumption.
Qed.

#[export] Instance round2_Proper : Proper (numeq ==> numeq) round2.
Proof. intros [a | | |] [a' | | |] Hx; simpl in *; try tauto.
  apply toFixed2Q_comp, Hx.
Qed.

(** ** Objects *)

Section Objects.
Context {A : Type}.
Implicit Types (o : obj A) (k : string) (ks : list string).

Lemma mem_In k ks : mem k ks = true <-> In k ks.
Proof.
  induction ks as [|k' r IH]; simpl.
  - split; [discriminate | tauto].
  - rewrite orb_true_iff, String.eqb_eq, IH. tauto.
Qed.

Lemma mem_false k ks : mem k ks = false <-> ~ In k ks.
Proof.
  rewrite <- mem_In. destruct (mem k ks); split; congruence.
Qed.

Lemma distinct_NoDup ks : distinct ks = true <-> NoDup ks.
Proof.
  induction ks as [|k r IH]; simpl.
  - split; [constructor | reflexivity].
  - rewrite andb_true_iff, negb_true_iff, mem_false, IH.
    split; [intros []; constructor; assumption | inversion 1; tauto].
Qed.

Lemma keys_app o o' : keys (o ++ o') = keys o ++ keys o'.
Proof. apply map_app. Qed.

(** Assigning a property the object does not have appends it. *)
Lemma set_fresh o k (v : A) : ~ In k (keys o) -> set o k v = o ++ [(k, v)].
Proof.
  induction o as [|[k' v'] r IH]; simpl; intro N.
  - reflexivity.
  - destruct (String.eqb_spec k' k) as [-> | D].
    + tauto.
    + rewrite IH by tauto. reflexivity.
Qed.

(** A [forEach] that assigns one property per name builds the object with
    these names as keys, in order. *)
Lemma fold_set_distinct (f : string -> A) ks o :
  NoDup ks -> (forall k, In k ks -> ~ In k (keys o)) ->
  fold_left (fun acc k => set acc k (f k)) ks o
  = o ++ map (fun k => (k, f k)) ks.
Proof.
  revert o. induction ks as [|k r IH]; simpl; intros o ND F.
  - symmetry. apply app_nil_r.
  - inversion ND as [|? ? N ND']; subst.
    rewrite set_fresh by (apply F; left; reflexivity).
    rewrite IH; [rewrite <- app_assoc; reflexivity | assumption |].
    intros k' I. rewrite keys_app, in_app_iff. simpl.
    intros [I' | [<- | []]]; [apply (F k'); tauto | contradiction].
Qed.

Lemma keys_tabulate (f : string -> A) ks :
  keys (map (fun k => (k, f k)) ks) = ks.
Proof.
  unfold keys. rewrite map_map. simpl. apply map_id.
Qed.

Lemma values_tabulate (f : string -> A) ks :
  values (map (fun k => (k, f k)) ks) = map f ks.
Proof.
  unfold values. rewrite map_map. reflexivity.
Qed.

Lemma get_tabulate (f : string -> A) ks k :
  In k ks -> get (map (fun k => (k, f k)) ks) k = Some (f k).
Proof.
  induction ks as [|k' r IH]; simpl; intro I; [contradiction|].
  destruct (String.eqb_spec k' k) as [-> | D]; [reflexivity|].
  apply IH. destruct I; [contradiction | assumption].
Qed.

Lemma get_not_key o k : ~ In k (keys o) -> get o k = None.
Proof.
  induction o as [|[k' v] r IH]; simpl; intro N; [reflexivity|].
  destruct (String.eqb_spec k' k) as [-> | D]; [tauto|].
  apply IH. tauto.
Qed.

End Objects.

(** ** The two passes of calculateDistribution as maps over the names *)

Section Passes.
Variables (od : OrderData) (settings : Settings).

Let names := keys (people od).
Let r := calculateDistribution od settings.
Let TE := Breakdown.totalExtraBudget (breakdown r).
Let TO := Breakdown.totalOverBudget (breakdown r).

Lemma step1_fold (ks : list string) (st : Step1) :
  fold_left
    (step1 (people od) (budget_of settings) (sharedCostsPerPerson od)
           (identify_creator names)) ks st
  = {| participantDetails :=
         fold_left (fun acc k => set acc k (details_of od settings k)) ks
                   (participantDetails st);
       totalExtraBudget :=
         fold_left (fun t x => if gt x (Fin 0) then add t x else t)
                   (map (extraBudget_of od settings) ks)
                   (totalExtraBudget st);
       totalOverBudget :=
         fold_left (fun t x => if gt x (Fin 0) then add t x else t)
                   (map (overBudget_of od settings) ks)
                   (totalOverBudget st) |}.
Proof.
  revert st. induction ks as [|k ks' IH]; intro st.
  - destruct st; reflexivity.
  - simpl. rewrite IH. reflexivity.
Qed.

Lemma totalExtraBudget_sum :
  TE = pos_sum (map (extraBudget_of od settings) names).
Proof.
  unfold TE, r, calculateDistribution. simpl.
  fold names. rewrite step1_fold. reflexivity.
Qed.

Lemma totalOverBudget_sum :
  TO = pos_sum (map (overBudget_of od settings) names).
Proof.
  unfold TO, r, calculateDistribution. simpl.
  fold names. rewrite step1_fold. reflexivity.
Qed.

Lemma step2_fold (details : obj Details.t) (te tov : number)
    (ks : list string) (acc : obj ParticipantDetail) (f : string -> Details.t) :
  (forall k, In k ks -> get details k = Some (f k)) ->
  fold_left
    (step2 {| participantDetails := details;
              totalExtraBudget := te;
              totalOverBudget := tov |}) ks acc
  = fold_left (fun acc k => set acc k (final_entry te tov (f k))) ks acc.
Proof.
  revert acc. induction ks as [|k ks' IH]; intros acc G; [reflexivity|].
  simpl. unfold step2 at 2. simpl.
  rewrite (G k) by (left; reflexivity).
  apply IH. intros k' I. apply G. right. exact I.
Qed.

(** With distinct names, [results] holds one entry per name, in order: the
    Step 2 entry of what Step 1 stored for that name. *)
Lemma results_tabulate :
  NoDup names ->
  results r
  = map (fun k => (k, final_entry TE TO (details_of od settings k))) names.
Proof.
  intro ND.
  unfold TE, TO, r, calculateDistribution. simpl. fold names.
  rewrite step1_fold. simpl.
  rewrite (fold_set_distinct (details_of od settings) names [] ND)
    by (intros ? ? []).
  simpl.
  rewrite (step2_fold _ _ _ names [] (details_of od settings))
    by (intros k I; apply get_tabulate; exact I).
  rewrite (fold_set_distinct _ names [] ND) by (intros ? ? []).
  reflexivity.
Qed.

End Passes.

(** ** Order-creator detection *)

Section Creator.

Lemma startsWith_spec (s pat : string) :
  startsWith s pat = true <-> exists after, s = (pat ++ after)%string.
Proof.
  revert s. induction pat as [|p pr IH]; intro s; simpl.
  - destruct s; simpl; (split; [intros _; eexists; reflexivity | reflexivity]).
  - destruct s as [|c r]; simpl.
    + split; [discriminate | intros [? [=]]].
    + rewrite andb_true_iff, Ascii.eqb_eq, IH. split.
      * intros [-> [after ->]]. exists after. reflexivity.
      * intros [after [= -> ->]]. split; [reflexivity | exists after; reflexivity].
Qed.

Lemma includes_spec (s pat : string) :
  includes s pat = true <-> substring pat s.
Proof.
  unfold substring. induction s as [|c r IH].
  - cbn [includes]. rewrite orb_false_r, startsWith_spec. split.
    + intros [after E]. exists EmptyString, after. exact E.
    + intros [[|? ?] [after E]]; [exists after; exact E | discriminate].
  - cbn [includes]. rewrite orb_true_iff, startsWith_spec, IH. split.
    + intros [[after E] | [before [after E]]].
      * exists EmptyString, after. exact E.
      * exists (String c before), after. simpl. rewrite E. reflexivity.
    + intros [[|c' before] [after E]].
      * left. exists after. exact E.
      * right. simpl in E. injection E as -> E.
        exists before, after. exact E.
Qed.

Lemma matches_creator_spec (name : string) :
  matches_creator name = true <-> names_creator name.
Proof.
  unfold matches_creator, names_creator. rewrite existsb_exists.
  split; intros [pattern [I M]]; exists pattern; (split; [exact I|]);
    apply includes_spec; exact M.
Qed.

Lemma identify_creator_Some (names : list string) (c : string) :
  identify_creator names = Some c <-> first_creator names c.
Proof.
  unfold first_creator. induction names as [|n rest IH]; simpl.
  - split; [discriminate | intros [[|? ?] [? [[=] _]]]].
  - destruct (matches_creator n) eqn:M.
    + split.
      * intros [= ->]. exists [], rest. split; [reflexivity|].
        split; [apply matches_creator_spec, M | intros ? []].
      * intros [[|b before] [after [E [C F]]]].
        -- injection E as -> _. reflexivity.
        -- injection E as -> _. exfalso. apply (F b); [left; reflexivity|].
           apply matches_creator_spec, M.
    + rewrite IH. split.
      * intros [before [after [-> [C F]]]]. exists (n :: before), after.
        split; [reflexivity|]. split; [exact C|].
        intros k [<- | I]; [|apply F, I].
        rewrite <- matches_creator_spec. congruence.
      * intros [[|b before] [after [E [C F]]]].
        -- injection E as -> _. apply matches_creator_spec in C. congruence.
        -- injection E as -> ->. exists before, after.
           split; [reflexivity|]. split; [exact C|].
           intros k I. apply F. right. exact I.
Qed.

Lemma identify_creator_None (names : list string) :
  identify_creator names = None
  <-> forall n, In n names -> ~ names_creator n.
Proof.
  induction names as [|n rest IH]; simpl.
  - split; [intros _ ? [] | reflexivity].
  - destruct (matches_creator n) eqn:M.
    + split; [discriminate|]. intro F. exfalso.
      apply (F n); [left; reflexivity | apply matches_creator_spec, M].
    + rewrite IH. split.
      * intros F k [<- | I]; [|apply F, I].
        rewrite <- matches_creator_spec. congruence.
      * intros F k I. apply F. right. exact I.
Qed.

Lemma count_name (c : string) (names : list string) :
  NoDup names ->
  (List.length (filter (fun k => String.eqb k c) names) <= 1)%nat.
Proof.
  induction 1 as [|k r N ND IH]; simpl; [lia|].
  destruct (String.eqb_spec k c) as [-> | D]; [|exact IH].
  simpl. assert (E : filter (fun k => String.eqb k c) r = []).
  { clear IH ND. induction r as [|k' r' IHr]; [reflexivity|]. simpl.
    destruct (String.eqb_spec k' c) as [-> | D].
    - exfalso. apply N. left. reflexivity.
    - apply IHr. intro I. apply N. right. exact I. }
  rewrite E. simpl. lia.
Qed.

End Creator.

(** ** Arithmetic on finite numbers *)

Section Finite.

Lemma is_finite_Fin (x : number) : is_finite x = true -> x = Fin (toQ x).
Proof. destruct x; simpl; congruence. Qed.

Lemma max_Fin (a b : Q) :
  max (Fin a) (Fin b) = Fin (if Qle_bool a b then b else a).
Proof. simpl. destruct (Qle_bool a b); reflexivity. Qed.

Lemma min_Fin (a b : Q) :
  min (Fin a) (Fin b) = Fin (if Qle_bool a b then a else b).
Proof. simpl. destruct (Qle_bool a b); reflexivity. Qed.

Lemma div_Fin (a b : Q) : ~ b == 0 -> div (Fin a) (Fin b) = Fin (a / b).
Proof.
  intro N. simpl. rewrite (proj2 (Qeq_bool_false b 0) N). reflexivity.
Qed.

Lemma gt_Fin (a b : Q) : gt (Fin a) (Fin b) = true <-> b < a.
Proof. unfold gt. simpl. apply Qlt_bool_iff. Qed.

Lemma gt_Fin_false (a b : Q) : gt (Fin a) (Fin b) = false <-> a <= b.
Proof. unfold gt. simpl. apply Qlt_bool_false. Qed.

Lemma le_Fin (a b : Q) : le (Fin a) (Fin b) = true <-> a <= b.
Proof. simpl. apply Qle_bool_iff. Qed.

Lemma of_nat_nonzero (n : nat) : (0 < n)%nat -> ~ inject_Z (Z.of_nat n) == 0.
Proof.
  intros P E. unfold Qeq in E. simpl in E. lia.
Qed.

(** The positive part [Math.max(0, x)] of a rational. *)
Lemma pos_part_cases (x : Q) :
  let p := if Qle_bool 0 x then x else 0 in
  0 <= p /\ x <= p /\ (p == x \/ p == 0).
Proof.
  simpl. destruct (Qle_bool 0 x) eqn:E.
  - apply Qle_bool_iff in E. split; [lra | split; [lra | left; reflexivity]].
  - apply Qle_bool_false in E.
    split; [lra | split; [lra | right; reflexivity]].
Qed.

Lemma sum_Fin_acc (qs : list Q) (acc : Q) :
  fold_left add (map Fin qs) (Fin acc) = Fin (fold_left Qplus qs acc).
Proof.
  revert acc. induction qs as [|q r IH]; intro acc; [reflexivity|].
  simpl. apply IH.
Qed.

Lemma fold_Qplus (qs : list Q) (acc : Q) :
  fold_left Qplus qs acc == acc + Qsum qs.
Proof.
  revert acc. induction qs as [|q r IH]; intro acc; simpl.
  - ring.
  - rewrite IH. ring.
Qed.

Lemma Qsum_cons (q : Q) (qs : list Q) : Qsum (q :: qs) = q + Qsum qs.
Proof. reflexivity. Qed.

(** A sum of finite numbers is the finite sum of their rationals. *)
Lemma sum_finite {X : Type} (f : X -> number) (l : list X) :
  (forall x, In x l -> is_finite (f x) = true) ->
  exists q, sum (map f l) = Fin q
            /\ q == Qsum (map (fun x => toQ (f x)) l).
Proof.
  intro F.
  assert (E : map f l = map Fin (map (fun x => toQ (f x)) l)).
  { rewrite map_map. apply map_ext_in. intros x I.
    apply is_finite_Fin, F, I. }
  unfold sum. rewrite E, sum_Fin_acc. eexists. split; [reflexivity|].
  rewrite fold_Qplus. ring.
Qed.

(** The accumulation of the positive ones among finite non-negative numbers
    is their sum. *)
Lemma pos_sum_finite {X : Type} (f : X -> number) (l : list X) :
  (forall x, In x l -> is_finite (f x) = true /\ 0 <= toQ (f x)) ->
  exists q, pos_sum (map f l) = Fin q
            /\ q == Qsum (map (fun x => toQ (f x)) l).
Proof.
  intro F. unfold pos_sum.
  assert (G : forall acc,
             exists q,
               fold_left (fun t x => if gt x (Fin 0) then add t x else t)
                         (map f l) (Fin acc) = Fin q
               /\ q == acc + Qsum (map (fun x => toQ (f x)) l)).
  { induction l as [|x r IH]; intro acc.
    - exists acc. split; [reflexivity | simpl; ring].
    - cbn [map fold_left]. rewrite Qsum_cons.
      destruct (F x (or_introl eq_refl)) as [Fx Px].
      destruct (f x) as [qx | | |]; simpl in Fx, Px; try discriminate Fx.
      cbn [toQ].
      destruct (gt (Fin qx) (Fin 0)) eqn:T.
      + destruct (IH (fun y I => F y (or_intror I)) (acc + qx))
          as [q [E B]].
        exists q. split; [exact E|]. rewrite B. ring.
      + apply gt_Fin_false in T.
        destruct (IH (fun y I => F y (or_intror I)) acc) as [q [E B]].
        exists q. split; [exact E|]. rewrite B.
        assert (Z : qx == 0) by lra. rewrite Z. ring. }
  destruct (G 0) as [q [E B]]. exists q. split; [exact E|].
  rewrite B. ring.
Qed.

Lemma Qsum_le {X : Type} (f g : X -> Q) (l : list X) :
  (forall x, In x l -> f x <= g x) ->
  Qsum (map f l) <= Qsum (map g l).
Proof.
  induction l as [|x r IH]; intro H; simpl; [lra|].
  pose proof (H x (or_introl eq_refl)).
  pose proof (IH (fun y I => H y (or_intror I))). lra.
Qed.

Lemma Qsum_nonneg {X : Type} (f : X -> Q) (l : list X) :
  (forall x, In x l -> 0 <= f x) -> 0 <= Qsum (map f l).
Proof.
  induction l as [|x r IH]; intro H; simpl; [lra|].
  pose proof (H x (or_introl eq_refl)).
  pose proof (IH (fun y I => H y (or_intror I))). lra.
Qed.

Lemma Qsum_affine {X : Type} (f : X -> Q) (c d : Q) (l : list X) :
  Qsum (map (fun x => c * f x + d) l)
  == c * Qsum (map f l) + d * inject_Z (Z.of_nat (List.length l)).
Proof.
  induction l as [|x r IH].
  - simpl. ring.
  - cbn [map Qsum fold_right List.length]. fold (Qsum (map f r)).
    fold (Qsum (map (fun x => c * f x + d) r)).
    rewrite IH, Nat2Z.inj_succ, <- Z.add_1_r, inject_Z_plus.
    change (inject_Z 1) with 1. ring.
Qed.

End Finite.

(** ** Step 1 on finite input *)

Lemma get_key {A : Type} (o : obj A) (k : string) :
  In k (keys o) -> exists v, get o k = Some v /\ In v (values o).
Proof.
  induction o as [|[k' v'] r IH]; simpl; intro I; [contradiction|].
  destruct (String.eqb_spec k' k) as [-> | D].
  - exists v'. split; [reflexivity | left; reflexivity].
  - destruct I as [E | I]; [contradiction|].
    destruct (IH I) as [v [G V]]. exists v. split; [exact G | right; exact V].
Qed.

Section Step1Finite.
Variables (od : OrderData) (settings : Settings).
Hypothesis FO : finite_order od = true.
Hypothesis FS : finite_settings settings = true.

Let names := keys (people od).

Lemma finite_order_parts :
  all_finite (values (people od)) = true
  /\ is_finite (delivery od) = true
  /\ is_finite (service od) = true
  /\ is_finite (discount od) = true.
Proof.
  unfold finite_order in FO.
  repeat (apply andb_true_iff in FO; destruct FO as [FO ?]).
  repeat split; assumption.
Qed.

Lemma person_finite (k : string) :
  In k names -> is_finite (person (people od) k) = true.
Proof.
  intro I. destruct (get_key (people od) k I) as [v [G V]].
  unfold person. rewrite G.
  destruct finite_order_parts as [A _].
  unfold all_finite in A. rewrite forallb_forall in A. apply A, V.
Qed.

Lemma sharedCostsTotal_finite : is_finite (sharedCostsTotal od) = true.
Proof.
  destruct finite_order_parts as [_ [D [S C]]].
  unfold sharedCostsTotal.
  destruct (delivery od), (service od), (discount od);
    simpl in *; congruence.
Qed.

Lemma sharedCostsPerPerson_finite :
  names <> [] -> is_finite (sharedCostsPerPerson od) = true.
Proof.
  intro NE. unfold sharedCostsPerPerson.
  rewrite (is_finite_Fin _ sharedCostsTotal_finite).
  unfold of_nat. rewrite div_Fin; [reflexivity|].
  apply of_nat_nonzero. fold names. destruct names; [contradiction|].
  simpl. lia.
Qed.

Lemma totalCost_of_finite (k : string) :
  In k names -> is_finite (totalCost_of od k) = true.
Proof.
  intro I. unfold totalCost_of.
  rewrite (is_finite_Fin _ (person_finite k I)).
  rewrite (is_finite_Fin (sharedCostsPerPerson od)); [reflexivity|].
  apply sharedCostsPerPerson_finite. intro E. rewrite E in I. exact I.
Qed.

Lemma overBudget_of_finite (k : string) :
  In k names ->
  is_finite (overBudget_of od settings k) = true
  /\ 0 <= toQ (overBudget_of od settings k).
Proof.
  intro I. unfold overBudget_of.
  rewrite (is_finite_Fin _ (totalCost_of_finite k I)).
  rewrite (is_finite_Fin _ FS).
  unfold sub. cbn [neg add]. rewrite max_Fin. cbn [is_finite toQ].
  split; [reflexivity | apply pos_part_cases].
Qed.

Lemma extraBudget_of_finite (k : string) :
  In k names ->
  is_finite (extraBudget_of od settings k) = true
  /\ 0 <= toQ (extraBudget_of od settings k).
Proof.
  intro I. unfold extraBudget_of.
  rewrite (is_finite_Fin _ (totalCost_of_finite k I)).
  rewrite (is_finite_Fin _ FS).
  unfold sub. cbn [neg add]. rewrite max_Fin. cbn [is_finite toQ].
  split; [reflexivity | apply pos_part_cases].
Qed.

(** The two totals are the finite sums of the participants' unrounded
    shortfalls and surpluses. *)
Lemma totals_finite :
  let r := calculateDistribution od settings in
  exists te tov : Q,
    Breakdown.totalExtraBudget (breakdown r) = Fin te
    /\ Breakdown.totalOverBudget (breakdown r) = Fin tov
    /\ te == Qsum (map (fun k => toQ (extraBudget_of od settings k)) names)
    /\ tov == Qsum (map (fun k => toQ (overBudget_of od settings k)) names)
    /\ 0 <= te /\ 0 <= tov.
Proof.
  intro r. unfold r.
  rewrite totalExtraBudget_sum, totalOverBudget_sum. fold names.
  destruct (pos_sum_finite (extraBudget_of od settings) names
              extraBudget_of_finite) as [te [Ee Be]].
  destruct (pos_sum_finite (overBudget_of od settings) names
              overBudget_of_finite) as [tov [Eo Bo]].
  exists te, tov. repeat split; try assumption.
  - rewrite Be. apply Qsum_nonneg. intros k I.
    apply extraBudget_of_finite, I.
  - rewrite Bo. apply Qsum_nonneg. intros k I.
    apply overBudget_of_finite, I.
Qed.

End Step1Finite.

(** ** Step 2 on finite input *)

Section Step2Finite.

Lemma Qinv_facts (t : Q) : 0 < t -> 0 < / t /\ t * / t == 1.
Proof.
  intro P. split.
  - apply Qinv_lt_0_compat, P.
  - apply Qmult_inv_r. lra.
Qed.

(** The share of the pool offered to a rounded shortfall exceeds the exact
    proportional share by at most half a cent. *)
Lemma offered_share (te tov ob obr : Q) :
  0 <= te -> 0 < tov -> te <= tov -> 0 <= ob -> 0 <= obr ->
  obr <= ob + (1 # 200) ->
  0 <= te * (obr / tov)
  /\ 0 <= te * ob / tov
  /\ te * (obr / tov) <= te * ob / tov + (1 # 200).
Proof.
  intros Hte Htov Hle Hob Hobr Hr.
  destruct (Qinv_facts tov Htov) as [Hi Hti].
  unfold Qdiv. set (i := / tov) in *.
  assert (M0 : 0 <= te * i) by (apply Qmult_le_0_compat; lra).
  assert (M1 : te * i <= 1).
  { rewrite <- Hti. apply Qmult_le_compat_r; lra. }
  set (m := te * i) in *.
  assert (E1 : te * (obr * i) == m * obr) by (unfold m; ring).
  assert (E2 : te * ob * i == m * ob) by (unfold m; ring).
  rewrite E1, E2.
  assert (P1 : 0 <= m * obr) by (apply Qmult_le_0_compat; lra).
  assert (P2 : 0 <= m * ob) by (apply Qmult_le_0_compat; lra).
  assert (P3 : m * obr <= m * (ob + (1 # 200))).
  { rewrite !(Qmult_comm m). apply Qmult_le_compat_r; lra. }
  assert (P4 : m * (1 # 200) <= 1 * (1 # 200)).
  { apply Qmult_le_compat_r; lra. }
  assert (E3 : m * (ob + (1 # 200)) == m * ob + m * (1 # 200)) by ring.
  repeat split; lra.
Qed.

Lemma final_entry_bounds (te tov ob : Q) (d : Details.t) :
  0 <= te -> 0 <= tov -> 0 <= ob ->
  Details.overBudget d = Fin (toFixed2Q ob) ->
  exists h f : Q,
    budgetHelpReceived (final_entry (Fin te) (Fin tov) d) = Fin h
    /\ finalPayment (final_entry (Fin te) (Fin tov) d) = Fin f
    /\ 0 <= h /\ 0 <= f
    /\ f <= ob + (1 # 200)
    /\ h <= ob + (1 # 200)
    /\ (0 < tov -> te <= tov -> h <= te * ob / tov + (1 # 100)).
Proof.
  intros Hte Htov Hob Hd.
  pose proof (toFixed2Q_nonneg ob Hob) as R0.
  pose proof (toFixed2Q_bounds ob) as [_ R1].
  pose proof (toFixed2Q_idem ob) as RI.
  unfold final_entry, proportionOfOverBudget. rewrite Hd.
  set (obr := toFixed2Q ob) in *.
  destruct (gt (Fin obr) (Fin 0)) eqn:G.
  - apply gt_Fin in G.
    assert (Share : exists x : Q,
               mul (Fin te)
                   (if gt (Fin tov) (Fin 0) then div (Fin obr) (Fin tov)
                    else Fin 0) = Fin x
               /\ 0 <= x
               /\ (0 < tov -> te <= tov ->
                   x <= te * ob / tov + (1 # 200))).
    { destruct (gt (Fin tov) (Fin 0)) eqn:GT.
      - apply gt_Fin in GT. rewrite div_Fin by lra.
        exists (te * (obr / tov)). split; [reflexivity|].
        split.
        + destruct (Qinv_facts tov GT) as [Hi _]. unfold Qdiv.
          apply Qmult_le_0_compat; [lra|].
          apply Qmult_le_0_compat; lra.
        + intros _ L.
          apply (offered_share te tov ob obr); lra.
      - apply gt_Fin_false in GT. exists (te * 0).
        split; [reflexivity|]. split; [lra|]. intros P. lra. }
    destruct Share as [x [-> [X0 XB]]].
    rewrite min_Fin. unfold sub. cbn [neg add]. rewrite max_Fin.
    cbn [round2 spread budgetHelpReceived finalPayment].
    set (hu := if Qle_bool obr x then obr else x).
    assert (HU : 0 <= hu /\ hu <= obr /\ hu <= x).
    { unfold hu. destruct (Qle_bool obr x) eqn:C.
      - apply Qle_bool_iff in C. lra.
      - apply Qle_bool_false in C. lra. }
    set (fu := if Qle_bool 0 (obr + - hu) then obr + - hu else 0).
    assert (FU : 0 <= fu /\ fu <= obr).
    { unfold fu. destruct (Qle_bool 0 (obr + - hu)) eqn:C.
      - apply Qle_bool_iff in C. lra.
      - lra. }
    exists (toFixed2Q hu), (toFixed2Q fu).
    pose proof (toFixed2Q_mono hu obr (proj1 (proj2 HU))) as MH.
    pose proof (toFixed2Q_mono fu obr (proj2 FU)) as MF.
    pose proof (toFixed2Q_bounds hu) as [_ BH].
    split; [reflexivity|]. split; [reflexivity|].
    split; [apply toFixed2Q_nonneg; lra|].
    split; [apply toFixed2Q_nonneg; lra|].
    split; [lra|]. split; [lra|].
    intros P L. specialize (XB P L). lra.
  - apply gt_Fin_false in G.
    exists 0, 0. cbn [spread budgetHelpReceived finalPayment].
    split; [reflexivity|]. split; [reflexivity|].
    split; [lra|]. split; [lra|]. split; [lra|]. split; [lra|].
    intros P L.
    assert (0 <= te * ob / tov).
    { destruct (Qinv_facts tov P) as [Hi _]. unfold Qdiv.
      apply Qmult_le_0_compat; [|lra]. apply Qmult_le_0_compat; lra. }
    lra.
Qed.

End Step2Finite.

(** ** Finite operands give finite results *)

Section Closure.












End Closure.

(** * Main results *)

(** ** Order creator (C9) *)

Lemma final_entry_isOrderCreator (te tov : number) (d : Details.t) :
  isOrderCreator (final_entry te tov d) = Details.isOrderCreator d.
Proof.
  unfold final_entry. destruct (gt (Details.overBudget d) (Fin 0)); reflexivity.
Qed.

Lemma filter_map_length {X Y : Type} (p : Y -> bool) (f : X -> Y)
    (l : list X) :
  List.length (filter p (map f l))
  = List.length (filter (fun x => p (f x)) l).
Proof.
  induction l as [|x l' IH]; simpl; [reflexivity|].
  destruct (p (f x)); simpl; rewrite IH; reflexivity.
Qed.

Lemma filter_false_length {X : Type} (l : list X) :
  List.length (filter (fun _ => false) l) = 0%nat.
Proof. induction l; simpl; auto. Qed.

Lemma first_creator_In (names : list string) (c : string) :
  first_creator names c -> In c names /\ matches_creator c = true.
Proof.
  intros [before [after [-> [C _]]]]. split.
  - apply in_or_app. right. left. reflexivity.
  - apply matches_creator_spec, C.
Qed.

(** C9: the order creator is the first participant, in enumeration order,
    whose name holds one of the patterns you, yu, me, myself in any letter
    case, and none when no name does; an entry is flagged [isOrderCreator]
    exactly when its name is that creator, so at most one entry is flagged.
    Among You, Bob and Carol in any order the creator is You; among Alice and
    Bob there is none. *)
Theorem orderCreator_detection (od : OrderData) (settings : Settings) :
  well_formed (people od) = true ->
  let names := keys (people od) in
  let r := calculateDistribution od settings in
  (forall c, orderCreator r = Some c <-> first_creator names c)
  /\ (orderCreator r = None <-> forall n, In n names -> ~ names_creator n)
  /\ (forall name e, In (name, e) (results r) ->
        (isOrderCreator e = true <-> orderCreator r = Some name))
  /\ (List.length (filter flagged (values (results r))) <= 1)%nat
  /\ (Permutation names ["You"; "Bob"; "Carol"]%string ->
        orderCreator r = Some "You"%string)
  /\ (Permutation names ["Alice"; "Bob"]%string -> orderCreator r = None).
Proof.
  intros WF names r.
  assert (ND : NoDup names) by (apply distinct_NoDup, WF).
  assert (OC : orderCreator r = identify_creator names) by reflexivity.
  pose proof (results_tabulate od settings ND) as RT. fold r in RT.
  refine (conj _ (conj _ (conj _ (conj _ (conj _ _))))).
  - intro c. rewrite OC. apply identify_creator_Some.
  - rewrite OC. apply identify_creator_None.
  - intros name e I. rewrite RT in I.
    apply in_map_iff in I as [k [[= <- <-] _]].
    rewrite final_entry_isOrderCreator, OC. simpl. fold names.
    destruct (identify_creator names) as [c|]; simpl.
    + rewrite String.eqb_eq. split; congruence.
    + split; discriminate.
  - rewrite RT, values_tabulate, filter_map_length.
    unfold flagged.
    erewrite filter_ext
      by (intro k; rewrite final_entry_isOrderCreator; reflexivity).
    simpl. fold names.
    destruct (identify_creator names) as [c|]; simpl.
    + apply count_name, ND.
    + rewrite filter_false_length. lia.
  - intro P. rewrite OC.
    destruct (identify_creator names) as [c|] eqn:E.
    + apply identify_creator_Some, first_creator_In in E as [I M].
      apply (Permutation_in _ P) in I.
      destruct I as [<- | [<- | [<- | []]]];
        [reflexivity | discriminate M | discriminate M].
    + exfalso.
      apply (proj1 (identify_creator_None names) E "You"%string).
      * apply (Permutation_in _ (Permutation_sym P)). left. reflexivity.
      * apply matches_creator_spec. reflexivity.
  - intro P. rewrite OC.
    destruct (identify_creator names) as [c|] eqn:E; [|reflexivity].
    apply identify_creator_Some, first_creator_In in E as [I M].
    apply (Permutation_in _ P) in I.
    destruct I as [<- | [<- | []]]; discriminate M.
Qed.

Lemma orderCreator_detection_witness :
  well_formed (people you_bob_carol) = true
  /\ orderCreator (calculateDistribution you_bob_carol unset)
     = Some "You"%string.
Proof.
  split; [reflexivity|].
  apply (orderCreator_detection you_bob_carol unset).
  - reflexivity.
  - simpl. apply perm_swap.
Defined.

(** ** One entry per participant (C10) *)



(** ** The in-flight flag (C7) *)

Section InFlight.
Variable show_number : number -> string.



End InFlight.



(** ** Validation before any distribution math (C6) *)

Section FailFast.
Variable show_number : number -> string.

Lemma bad_amount_throws (name : string) (amount : value) :
  finite_nonneg amount = false \/ above_1000 amount = true ->
  exists m, validate_participant show_number (name, amount) = Throw m.
Proof.
  intro Bad. unfold validate_participant.
  destruct ((name =? EmptyString)%string || blank name); [eexists; reflexivity|].
  destruct amount as [| | b | n | s]; try (eexists; reflexivity).
  destruct (isNaN n || lt n (Fin 0)) eqn:T1; [eexists; reflexivity|].
  destruct (gt n (Fin 1000)) eqn:T2; [eexists; reflexivity|].
  exfalso. destruct Bad as [Bad | Bad].
  - destruct n as [q | | |]; simpl in *; try discriminate.
    apply Qlt_bool_false in T1. apply Qle_bool_false in Bad. lra.
  - unfold above_1000 in Bad. congruence.
Qed.

Lemma bad_entry_throws (entries : list (string * value)) (name : string)
    (amount : value) :
  In (name, amount) entries ->
  finite_nonneg amount = false \/ above_1000 amount = true ->
  exists m, validate_participants show_number entries = Throw m.
Proof.
  intros I Bad. induction entries as [|entry rest IH]; [contradiction|].
  simpl. destruct I as [-> | I].
  - destruct (bad_amount_throws name amount Bad) as [m ->].
    exists m. reflexivity.
  - destruct (validate_participant show_number entry) as [[]|m]; simpl.
    + apply IH, I.
    + exists m. reflexivity.
Qed.

Lemma invalid_order_throws (orderData : RawOrderData) :
  invalid_order orderData ->
  exists m, validateOrderData show_number (Some orderData) = Throw m.
Proof.
  intros [people [P Bad]]. unfold validateOrderData. rewrite P.
  unfold keys. rewrite length_map.
  destruct (List.length people =? 0)%nat eqn:Z; [eexists; reflexivity|].
  destruct (50 <? List.length people)%nat eqn:M; [eexists; reflexivity|].
  destruct Bad as [-> | [L | [name [amount [I B]]]]].
  - discriminate Z.
  - apply Nat.ltb_ge in M. lia.
  - destruct (bad_entry_throws people name amount I B) as [m E].
    unfold entries. rewrite E. exists m. reflexivity.
Qed.

Lemma invalid_order_not_parsed (page : Page) (orderData : RawOrderData) :
  parsed page = Some orderData -> invalid_order orderData ->
  exists m, parseOrderData show_number page = Throw m.
Proof.
  intros P Bad. unfold parseOrderData. rewrite P.
  destruct (validatePageContext page) as [[]|m]; cbn [bind].
  - destruct (invalid_order_throws orderData Bad) as [m ->]. cbn [bind].
    eexists. reflexivity.
  - eexists. reflexivity.
Qed.

End FailFast.

(** C6: when the parsed order has no participant, more than 50 participants,
    an amount that is not a finite non-negative number, or an amount above
    1000, [validateOrderData] throws, and so does [parseOrderData]; then
    [calculateAndDisplay] never reaches [calculateDistribution]: the trace
    gains no calculation, the stored results stay as they were and no
    results are returned. *)
Theorem invalid_order_fails_fast (show_number : number -> string)
    (page : Page) (orderData : RawOrderData) (fromPopup : bool)
    (st : State) :
  parsed page = Some orderData ->
  invalid_order orderData ->
  let run := calculateAndDisplay show_number page fromPopup st in
  (exists m, validateOrderData show_number (Some orderData) = Throw m)
  /\ (exists m, parseOrderData show_number page = Throw m)
  /\ calculations (snd run) = calculations st
  /\ calculationResults (snd run) = calculationResults st
  /\ (forall res, fst run <> Returned (Some res)).
Proof.
  intros P Bad run.
  pose proof (invalid_order_throws show_number orderData Bad) as V.
  pose proof (invalid_order_not_parsed show_number page orderData P Bad)
    as [m E].
  split; [exact V|]. split; [exists m; exact E|].
  unfold run, calculateAndDisplay, attempt, calculations. rewrite E.
  destruct (isCalculating st); simpl;
    [repeat split; first [reflexivity | intros; discriminate]|].
  destruct fromPopup; simpl.
  - destruct (showLoadingState page); simpl; repeat split;
      first [reflexivity | intros; discriminate].
  - destruct (displayError page); simpl; repeat split;
      first [reflexivity | intros; discriminate].
Qed.

Lemma invalid_order_fails_fast_witness :
  parsed minus_one_page
  = Some (raw [("Alice", VNumber (Fin 10));
               ("Bob", VNumber (Fin (-1)))]%string 2 1 0)
  /\ calculations
       (snd (calculateAndDisplay no_digits minus_one_page false idle))
     = calculations idle.
Proof.
  split; [reflexivity|].
  apply (invalid_order_fails_fast no_digits minus_one_page
           (raw [("Alice", VNumber (Fin 10));
                 ("Bob", VNumber (Fin (-1)))]%string 2 1 0) false idle).
  - reflexivity.
  - eexists. split; [reflexivity|]. right. right.
    exists "Bob"%string, (VNumber (Fin (-1))). split.
    + right. left. reflexivity.
    + left. reflexivity.
Defined.

(** ** The budget setting (C4) *)

(** C4: the content script takes 14 for an undefined or null [dailyBudget]
    and any number as it is, zero included; the background script's
    [calculateOrderDistribution] takes 14 for a [dailyBudget] of zero: one
    order of 20 is charged 6 there, not 20. *)
Theorem zero_budget_background_falls_back :
  (forall n, budget_of {| dailyBudget := Num n |} = n)
  /\ budget_of {| dailyBudget := Undefined |} = Fin 14
  /\ budget_of {| dailyBudget := Null |} = Fin 14
  /\ overBudget_of alice_20 (budget 0) "Alice" = Fin 20
  /\ Background.budget_of (budget 0) = Fin 14
  /\ Background.results
       (Background.calculateOrderDistribution alice_20 (budget 0))
     = [("Alice"%string, Fin (600 # 100));
        (Background.owner_row, Fin (600 # 100))]
  /\ Background.totalBudget
       (Background.breakdown
          (Background.calculateOrderDistribution alice_20 (budget 0)))
     = Fin 14.
Proof.
  repeat split; reflexivity.
Qed.

(** ** The alternative distribution (C8) *)


Lemma get_set_same {A : Type} (o : obj A) (k : string) (v : A) :
  get (set o k v) k = Some v.
Proof.
  induction o as [|[k' v'] r IH]; simpl.
  - rewrite String.eqb_refl. reflexivity.
  - destruct (String.eqb_spec k' k) as [-> | D]; simpl.
    + rewrite String.eqb_refl. reflexivity.
    + destruct (String.eqb_spec k' k); [contradiction | exact IH].
Qed.

Lemma get_set_other {A : Type} (o : obj A) (k k' : string) (v : A) :
  k <> k' -> get (set o k v) k' = get o k'.
Proof.
  intro D. induction o as [|[k0 v0] r IH]; simpl.
  - destruct (String.eqb_spec k k'); [contradiction | reflexivity].
  - destruct (String.eqb_spec k0 k) as [-> | D0]; simpl.
    + destruct (String.eqb_spec k k'); [contradiction | reflexivity].
    + destruct (String.eqb_spec k0 k'); [reflexivity | exact IH].
Qed.




(** ** Conservation (C2) *)

(** Three orders of 14.00 sharing a fee of 0.02 on a budget of 14: each is
    short by two thirds of a cent and pays a whole cent, so the payments
    add up to 0.03 against a total shortfall of 0.02. *)
Lemma payments_exceed_totalOverBudget :
  let r := calculateDistribution two_cent_fee unset in
  numeq (total_finalPayment r) (Fin (3 # 100))
  /\ numeq (Breakdown.totalOverBudget (breakdown r)) (Fin (2 # 100))
  /\ le (total_finalPayment r) (Breakdown.totalOverBudget (breakdown r))
     = false.
Proof.
  repeat split; vm_compute; reflexivity.
Qed.

Section Entries.
Variables (od : OrderData) (settings : Settings).
Hypothesis FO : finite_order od = true.
Hypothesis FS : finite_settings settings = true.

Let names := keys (people od).
Let ob (k : string) : Q := toQ (overBudget_of od settings k).

Lemma entry_bounds (te tov : Q) (k : string) :
  0 <= te -> 0 <= tov -> In k names ->
  exists h f : Q,
    budgetHelpReceived
      (final_entry (Fin te) (Fin tov) (details_of od settings k)) = Fin h
    /\ finalPayment
         (final_entry (Fin te) (Fin tov) (details_of od settings k)) = Fin f
    /\ 0 <= h /\ 0 <= f
    /\ f <= ob k + (1 # 200)
    /\ h <= ob k + (1 # 200)
    /\ (0 < tov -> te <= tov -> h <= te * ob k / tov + (1 # 100)).
Proof.
  intros Hte Htov I.
  destruct (overBudget_of_finite od settings FO FS k I) as [F P].
  apply final_entry_bounds; try assumption.
  simpl. rewrite (is_finite_Fin _ F). reflexivity.
Qed.

End Entries.

(** C2, amended: for an order with finite amounts and fees and a finite
    budget, the sum of the reported [finalPayment]s exceeds
    [totalOverBudget] by at most half a cent per participant, and the sum
    of the reported [budgetHelpReceived] exceeds [totalExtraBudget] by at
    most one cent per participant. *)
Theorem conservation_up_to_rounding (od : OrderData) (settings : Settings) :
  well_formed (people od) = true ->
  finite_order od = true ->
  finite_settings settings = true ->
  let r := calculateDistribution od settings in
  let n := of_nat (Breakdown.participantCount (breakdown r)) in
  le (total_finalPayment r)
     (add (Breakdown.totalOverBudget (breakdown r)) (mul (Fin (1 # 200)) n))
  = true
  /\ le (total_budgetHelpReceived r)
        (add (Breakdown.totalExtraBudget (breakdown r))
             (mul (Fin (1 # 100)) n))
     = true.
Proof.
  intros WF FO FS r n0.
  set (names := keys (people od)).
  set (ob := fun k => toQ (overBudget_of od settings k)).
  unfold n0. clear n0.
  assert (ND : NoDup names) by (apply distinct_NoDup, WF).
  pose proof (results_tabulate od settings ND) as RT. fold r in RT.
  destruct (totals_finite od settings FO FS)
    as [te [tov [Ete [Etov [Bte [Btov [Pte Ptov]]]]]]].
  fold r in Ete, Etov. fold names in Bte, Btov.
  change (fun k => toQ (overBudget_of od settings k)) with ob in Btov.
  unfold total_finalPayment, total_budgetHelpReceived.
  rewrite RT, values_tabulate, !map_map, Ete, Etov.
  change (Breakdown.participantCount (breakdown r))
    with (List.length names).
  set (n := inject_Z (Z.of_nat (List.length names))).
  assert (N0 : 0 <= n).
  { unfold n, Qle. simpl. lia. }
  fold names. unfold of_nat. fold n. cbn [add mul].
  split.
  - destruct (sum_finite
                (fun k => finalPayment
                            (final_entry (Fin te) (Fin tov)
                                         (details_of od settings k)))
                names) as [q [E B]].
    { intros k I.
      destruct (entry_bounds od settings FO FS te tov k Pte Ptov I)
        as [h [f [_ [-> _]]]].
      reflexivity. }
    rewrite E. apply le_Fin. rewrite B.
    apply Qle_trans
      with (Qsum (map (fun k => 1 * ob k + (1 # 200)) names)).
    + apply Qsum_le. intros k I.
      destruct (entry_bounds od settings FO FS te tov k Pte Ptov I)
        as [h [f [_ [-> [_ [_ [F _]]]]]]].
      cbn [toQ]. unfold ob. lra.
    + rewrite Qsum_affine. fold n. lra.
  - destruct (sum_finite
                (fun k => budgetHelpReceived
                            (final_entry (Fin te) (Fin tov)
                                         (details_of od settings k)))
                names) as [q [E B]].
    { intros k I.
      destruct (entry_bounds od settings FO FS te tov k Pte Ptov I)
        as [h [f [-> _]]].
      reflexivity. }
    rewrite E. apply le_Fin. rewrite B.
    destruct (Qlt_le_dec te tov) as [L | L].
    + assert (T : 0 < tov) by lra.
      destruct (Qinv_facts tov T) as [Hi Hti].
      apply Qle_trans
        with (Qsum (map (fun k => (te / tov) * ob k + (1 # 100)) names)).
      * apply Qsum_le. intros k I.
        destruct (entry_bounds od settings FO FS te tov k Pte Ptov I)
          as [h [f [-> [_ [_ [_ [_ [_ H]]]]]]]].
        cbn [toQ]. specialize (H T (Qlt_le_weak _ _ L)).
        fold (ob k) in H.
        assert (X : te * ob k / tov == te / tov * ob k)
          by (unfold Qdiv; ring).
        lra.
      * rewrite Qsum_affine. fold n. rewrite <- Btov.
        assert (X : te / tov * tov == te).
        { unfold Qdiv. rewrite <- Qmult_assoc, (Qmult_comm (/ tov)), Hti.
          ring. }
        lra.
    + apply Qle_trans
        with (Qsum (map (fun k => 1 * ob k + (1 # 100)) names)).
      * apply Qsum_le. intros k I.
        destruct (entry_bounds od settings FO FS te tov k Pte Ptov I)
          as [h [f [-> [_ [_ [_ [_ [H _]]]]]]]].
        cbn [toQ]. unfold ob. lra.
      * rewrite Qsum_affine. fold n. lra.
Qed.

Lemma conservation_up_to_rounding_witness :
  well_formed (people two_cent_fee) = true
  /\ finite_order two_cent_fee = true
  /\ finite_settings unset = true
  /\ le (total_finalPayment (calculateDistribution two_cent_fee unset))
        (add (Breakdown.totalOverBudget
                (breakdown (calculateDistribution two_cent_fee unset)))
             (mul (Fin (1 # 200)) (of_nat 3)))
     = true.
Proof.
  split; [reflexivity|]. split; [reflexivity|]. split; [reflexivity|].
  apply (conservation_up_to_rounding two_cent_fee unset); reflexivity.
Defined.

(** ** Step 2 (C1) *)






(** ** Reading back rounded figures (C3) *)

(** C3: orders of 5, 14 and 23 share a delivery fee of 1 on a budget of 14.
    Carol is short by 28/3 of a total shortfall of 29/3, with 26/3 to
    share.  Step 2 reads her shortfall back from the stored entry, where it
    is already rounded to 9.33, and reports a help of 8.36; computed from
    the unrounded shortfall and rounded once, the help is 8.37. *)
Theorem step2_reads_rounded_overBudget :
  let r := calculateDistribution thirds unset in
  let TE := Breakdown.totalExtraBudget (breakdown r) in
  let TO := Breakdown.totalOverBudget (breakdown r) in
  let ob := overBudget_of thirds unset "Carol" in
  exists e,
    get (results r) "Carol" = Some e
    /\ numeq ob (Fin (28 # 3))
    /\ numeq TE (Fin (26 # 3))
    /\ numeq TO (Fin (29 # 3))
    /\ numeq (overBudget e) (Fin (933 # 100))
    /\ numeq (budgetHelpReceived e) (Fin (836 # 100))
    /\ numeq (round2 (planned_help (overBudget e) TE TO)) (Fin (836 # 100))
    /\ numeq (round2 (planned_help ob TE TO)) (Fin (837 # 100)).
Proof.
  eexists. split; [reflexivity|].
  repeat split; vm_compute; reflexivity.
Qed.

(** ** Guarded divisions (C5) *)

Section Guards.

Lemma final_entry_details (te tov : number) (d : Details.t) :
  individualOrder (final_entry te tov d) = Details.individualOrder d
  /\ sharedCosts (final_entry te tov d) = Details.sharedCosts d
  /\ totalCost (final_entry te tov d) = Details.totalCost d
  /\ budgetUsage (final_entry te tov d) = Details.budgetUsage d
  /\ extraBudget (final_entry te tov d) = Details.extraBudget d
  /\ overBudget (final_entry te tov d) = Details.overBudget d.
Proof.
  unfold final_entry. destruct (gt (Details.overBudget d) (Fin 0));
    repeat split; reflexivity.
Qed.











(** The guard is the caller's: on an order without participants the
    shared costs per person would be a division by zero. *)
Lemma shared_costs_without_participants :
  sharedCostsPerPerson nobody = PosInf
  /\ Background.extraPerPerson nobody = Fin 0.
Proof. split; reflexivity. Qed.

End Guards.



(** * Further properties of the calculators *)

(** ** The shape of a Step 2 entry *)

Section Step2Shape.

Lemma get_tabulate_Some {A : Type} (f : string -> A) (ks : list string)
    (k : string) (v : A) :
  get (map (fun k => (k, f k)) ks) k = Some v -> In k ks /\ v = f k.
Proof.
  intro G. destruct (in_dec string_dec k ks) as [I | N].
  - rewrite (get_tabulate f ks k I) in G. injection G as <-. tauto.
  - rewrite get_not_key in G by (rewrite keys_tabulate; exact N).
    discriminate G.
Qed.

(** An entry of the results is the Step 2 entry of its participant. *)
Lemma results_entry (od : OrderData) (settings : Settings) (name : string)
    (e : ParticipantDetail) :
  well_formed (people od) = true ->
  get (results (calculateDistribution od settings)) name = Some e ->
  let r := calculateDistribution od settings in
  In name (keys (people od))
  /\ e = final_entry (Breakdown.totalExtraBudget (breakdown r))
                     (Breakdown.totalOverBudget (breakdown r))
                     (details_of od settings name).
Proof.
  intros WF G r.
  assert (ND : NoDup (keys (people od))) by (apply distinct_NoDup, WF).
  rewrite (results_tabulate od settings ND) in G.
  apply get_tabulate_Some in G. exact G.
Qed.

(** Step 2 on a finite rounded shortfall [obr]: either there is none and
    both figures are 0, or the unrounded help [hu] is the smaller of the
    shortfall and the offered share [x] of the pool, and the unrounded
    payment [fu] is the rest. *)
Lemma final_entry_cases (te tov obr : Q) (d : Details.t) :
  0 <= te -> 0 <= tov -> Details.overBudget d = Fin obr ->
  (obr <= 0
   /\ final_entry (Fin te) (Fin tov) d
      = spread d (Fin 0) (Fin 0)
          (if gt (Details.extraBudget d) (Fin 0) then helps_others
           else exact))
  \/ (0 < obr
      /\ exists x hu fu : Q,
           final_entry (Fin te) (Fin tov) d
           = spread d (Fin (toFixed2Q hu)) (Fin (toFixed2Q fu))
               (if gt (Fin fu) (Fin 0) then pays else covered)
           /\ 0 <= x
           /\ (0 < tov -> x == te * obr / tov)
           /\ (tov == 0 -> x == 0)
           /\ 0 <= hu /\ hu <= obr /\ hu <= x
           /\ (hu == obr \/ hu == x)
           /\ fu == obr - hu).
Proof.
  intros Hte Htov Hd.
  unfold final_entry, proportionOfOverBudget. rewrite Hd.
  destruct (gt (Fin obr) (Fin 0)) eqn:G.
  - right. apply gt_Fin in G. split; [exact G|].
    assert (Share : exists x : Q,
               mul (Fin te)
                   (if gt (Fin tov) (Fin 0) then div (Fin obr) (Fin tov)
                    else Fin 0) = Fin x
               /\ 0 <= x
               /\ (0 < tov -> x == te * obr / tov)
               /\ (tov == 0 -> x == 0)).
    { destruct (gt (Fin tov) (Fin 0)) eqn:GT.
      - apply gt_Fin in GT. rewrite div_Fin by lra.
        exists (te * (obr / tov)). split; [reflexivity|].
        destruct (Qinv_facts tov GT) as [Hi _].
        split; [|split].
        + unfold Qdiv. apply Qmult_le_0_compat; [lra|].
          apply Qmult_le_0_compat; lra.
        + intros _. unfold Qdiv. ring.
        + intro Z. lra.
      - apply gt_Fin_false in GT. exists (te * 0).
        split; [reflexivity|]. split; [lra|].
        split; [intro P; lra | intros _; ring]. }
    destruct Share as [x [-> [X0 [XP XZ]]]].
    rewrite min_Fin. unfold sub. cbn [neg add]. rewrite max_Fin.
    set (hu := if Qle_bool obr x then obr else x).
    assert (HU : 0 <= hu /\ hu <= obr /\ hu <= x /\ (hu == obr \/ hu == x)).
    { unfold hu. destruct (Qle_bool obr x) eqn:C.
      - apply Qle_bool_iff in C.
        split; [lra | split; [lra | split; [lra | left; reflexivity]]].
      - apply Qle_bool_false in C.
        split; [lra | split; [lra | split; [lra | right; reflexivity]]]. }
    set (fu := if Qle_bool 0 (obr + - hu) then obr + - hu else 0).
    assert (FU : fu == obr - hu).
    { unfold fu. destruct (Qle_bool 0 (obr + - hu)) eqn:C.
      - ring.
      - apply Qle_bool_false in C. lra. }
    exists x, hu, fu. cbn [round2].
    split; [reflexivity|]. tauto.
  - left. apply gt_Fin_false in G. split; [exact G | reflexivity].
Qed.

End Step2Shape.

(** ** Entries on finite input *)

Section FiniteEntries.

Lemma Qsum_member {X : Type} (f : X -> Q) (l : list X) (x : X) :
  (forall y, In y l -> 0 <= f y) -> In x l -> f x <= Qsum (map f l).
Proof.
  induction l as [|y r IH]; intros P I; [contradiction|].
  cbn [map]. rewrite Qsum_cons.
  pose proof (P y (or_introl eq_refl)) as Py.
  pose proof (Qsum_nonneg f r (fun z Iz => P z (or_intror Iz))) as Pr.
  destruct I as [-> | I]; [lra|].
  pose proof (IH (fun z Iz => P z (or_intror Iz)) I). lra.
Qed.

Lemma toFixed2Q_zero : toFixed2Q 0 == 0.
Proof. reflexivity. Qed.

Lemma rounded_positive (q : Q) : 0 <= q -> 0 < toFixed2Q q -> 0 < q.
Proof.
  intros P R. destruct (Qlt_le_dec 0 q) as [L | L]; [exact L|].
  pose proof (toFixed2Q_nonpos q L). lra.
Qed.

(** What is known of an entry of the results of a finite order: the two
    totals [te] and [tov], the participant's unrounded shortfall [obq],
    which is part of [tov], and the entry as the Step 2 entry of the
    rounded shortfall. *)
Lemma entry_in_context (od : OrderData) (settings : Settings)
    (name : string) (e : ParticipantDetail) :
  well_formed (people od) = true ->
  finite_order od = true ->
  finite_settings settings = true ->
  get (results (calculateDistribution od settings)) name = Some e ->
  let r := calculateDistribution od settings in
  exists te tov obq : Q,
    Breakdown.totalExtraBudget (breakdown r) = Fin te
    /\ Breakdown.totalOverBudget (breakdown r) = Fin tov
    /\ 0 <= te /\ 0 <= tov /\ 0 <= obq /\ obq <= tov
    /\ In name (keys (people od))
    /\ overBudget_of od settings name = Fin obq
    /\ Details.overBudget (details_of od settings name)
       = Fin (toFixed2Q obq)
    /\ overBudget e = Fin (toFixed2Q obq)
    /\ e = final_entry (Fin te) (Fin tov) (details_of od settings name).
Proof.
  intros WF FO FS G r.
  destruct (results_entry od settings name e WF G) as [I E].
  destruct (totals_finite od settings FO FS)
    as [te [tov [Ete [Etov [Bte [Btov [Pte Ptov]]]]]]].
  fold r in E, Ete, Etov. rewrite Ete, Etov in E.
  destruct (overBudget_of_finite od settings FO FS name I) as [F P].
  pose proof (is_finite_Fin _ F) as EO.
  set (obq := toQ (overBudget_of od settings name)) in *.
  assert (ED : Details.overBudget (details_of od settings name)
               = Fin (toFixed2Q obq)).
  { cbn [details_of Details.overBudget]. rewrite EO. reflexivity. }
  exists te, tov, obq.
  repeat (split; [first [assumption | idtac]|]); try assumption.
  - rewrite Btov.
    apply (Qsum_member (fun k => toQ (overBudget_of od settings k))
             (keys (people od)) name); [|exact I].
    intros k Ik. apply (overBudget_of_finite od settings FO FS k Ik).
  - rewrite E.
    rewrite (proj2 (proj2 (proj2 (proj2 (proj2
               (final_entry_details (Fin te) (Fin tov)
                  (details_of od settings name))))))).
    exact ED.
Qed.

End FiniteEntries.

(** ** Step 1 figures of a participant *)

Section Step1Values.

(** Shortfall and surplus are the two sides of [totalCost - budget]: neither
    is negative and at most one is positive. *)
Lemma step1_values (od : OrderData) (settings : Settings) (name : string) :
  finite_order od = true ->
  finite_settings settings = true ->
  In name (keys (people od)) ->
  exists tc b ob ex : Q,
    totalCost_of od name = Fin tc
    /\ budget_of settings = Fin b
    /\ overBudget_of od settings name = Fin ob
    /\ extraBudget_of od settings name = Fin ex
    /\ 0 <= ob /\ 0 <= ex
    /\ ob - ex == tc - b
    /\ (ob == 0 \/ ex == 0).
Proof.
  intros FO FS I.
  pose proof (is_finite_Fin _ (totalCost_of_finite od FO name I)) as ET.
  pose proof (is_finite_Fin _ FS) as EB.
  set (tc := toQ (totalCost_of od name)) in *.
  set (b := toQ (budget_of settings)) in *.
  exists tc, b.
  exists (if Qle_bool 0 (tc + - b) then tc + - b else 0).
  exists (if Qle_bool 0 (b + - tc) then b + - tc else 0).
  split; [exact ET|]. split; [exact EB|].
  split; [unfold overBudget_of; rewrite ET, EB; unfold sub; cbn [neg add];
          apply max_Fin|].
  split; [unfold extraBudget_of; rewrite ET, EB; unfold sub; cbn [neg add];
          apply max_Fin|].
  destruct (Qle_bool 0 (tc + - b)) eqn:C1;
    destruct (Qle_bool 0 (b + - tc)) eqn:C2;
    try apply Qle_bool_iff in C1; try apply Qle_bool_false in C1;
    try apply Qle_bool_iff in C2; try apply Qle_bool_false in C2;
    (split; [lra|]); (split; [lra|]); (split; [lra|]).
  - left. lra.
  - right. reflexivity.
  - left. reflexivity.
  - left. reflexivity.
Qed.

End Step1Values.

(** ** What an entry reports *)

(** X1: on a finite order every entry reports a help and a payment that are
    not negative and not above the entry's own reported shortfall, and help
    and payment together differ from that shortfall by at most one cent. *)
Theorem entry_figures_bounded (od : OrderData) (settings : Settings)
    (name : string) (e : ParticipantDetail) :
  well_formed (people od) = true ->
  finite_order od = true ->
  finite_settings settings = true ->
  get (results (calculateDistribution od settings)) name = Some e ->
  le (Fin 0) (budgetHelpReceived e) = true
  /\ le (budgetHelpReceived e) (overBudget e) = true
  /\ le (Fin 0) (finalPayment e) = true
  /\ le (finalPayment e) (overBudget e) = true
  /\ le (add (budgetHelpReceived e) (finalPayment e))
        (add (overBudget e) (Fin (1 # 100))) = true
  /\ le (overBudget e)
        (add (add (budgetHelpReceived e) (finalPayment e)) (Fin (1 # 100)))
     = true.
Proof.
  intros WF FO FS G.
  destruct (entry_in_context od settings name e WF FO FS G)
    as [te [tov [obq [_ [_ [Pte [Ptov [Pob [_ [_ [_ [ED [EO E]]]]]]]]]]]]].
  pose proof (toFixed2Q_nonneg obq Pob) as R0.
  pose proof (toFixed2Q_idem obq) as RI.
  rewrite EO.
  destruct (final_entry_cases te tov (toFixed2Q obq) _ Pte Ptov ED)
    as [[Z C] | [P [x [hu [fu [C [X0 [_ [_ [H0 [H1 [_ [_ F]]]]]]]]]]]]];
    rewrite <- E in C; rewrite C;
    cbn [spread budgetHelpReceived finalPayment add];
    rewrite !le_Fin.
  - repeat split; lra.
  - pose proof (toFixed2Q_bounds hu) as [BH1 BH2].
    pose proof (toFixed2Q_bounds fu) as [BF1 BF2].
    assert (F0 : 0 <= fu) by lra. assert (F1 : fu <= toFixed2Q obq) by lra.
    pose proof (toFixed2Q_mono hu _ H1) as MH.
    pose proof (toFixed2Q_mono fu _ F1) as MF.
    pose proof (toFixed2Q_nonneg hu H0). pose proof (toFixed2Q_nonneg fu F0).
    repeat split; lra.
Qed.

Lemma entry_figures_bounded_witness :
  well_formed (people two_short_one_spare) = true
  /\ finite_order two_short_one_spare = true
  /\ finite_settings unset = true
  /\ exists e,
       get (results (calculateDistribution two_short_one_spare unset)) "Bob"
       = Some e
       /\ le (finalPayment e) (overBudget e) = true.
Proof.
  split; [reflexivity|]. split; [reflexivity|]. split; [reflexivity|].
  eexists. split; [reflexivity|].
  apply (entry_figures_bounded two_short_one_spare unset "Bob");
    reflexivity.
Defined.

(** Step 2 without a pool: no help, the whole rounded shortfall is paid. *)
Lemma no_pool_final_entry (te tov obr : Q) (d : Details.t) :
  0 <= te -> 0 <= tov -> 0 <= obr -> toFixed2Q obr == obr -> te == 0 ->
  Details.overBudget d = Fin obr ->
  numeq (budgetHelpReceived (final_entry (Fin te) (Fin tov) d)) (Fin 0)
  /\ numeq (finalPayment (final_entry (Fin te) (Fin tov) d)) (Fin obr)
  /\ (0 < obr -> status (final_entry (Fin te) (Fin tov) d) = pays).
Proof.
  intros Pte Ptov R0 RI Z ED.
  destruct (final_entry_cases te tov obr _ Pte Ptov ED)
    as [[N C] | [P [x [hu [fu [C [X0 [XP [XZ [H0 [H1 [HX [_ F]]]]]]]]]]]]];
    rewrite C;
    cbn [spread budgetHelpReceived finalPayment status numeq].
  - split; [reflexivity|]. split; [lra|]. intro T. lra.
  - assert (X : x == 0).
    { destruct (Qlt_le_dec 0 tov) as [T | T].
      - rewrite (XP T), Z. unfold Qdiv. ring.
      - apply XZ. lra. }
    assert (HZ : hu == 0) by lra.
    assert (FZ : fu == obr) by lra.
    split; [rewrite (toFixed2Q_comp _ _ HZ); reflexivity|].
    split; [rewrite (toFixed2Q_comp _ _ FZ); exact RI|].
    intros _. rewrite (proj2 (gt_Fin fu 0)) by lra. reflexivity.
Qed.

(** X2: on a finite order, when no participant has unused budget
    ([totalExtraBudget] is 0), nobody receives help and every participant
    pays the full reported shortfall; who has a shortfall has the status
    'pays'. *)
Theorem empty_pool_pays_in_full (od : OrderData) (settings : Settings)
    (name : string) (e : ParticipantDetail) :
  well_formed (people od) = true ->
  finite_order od = true ->
  finite_settings settings = true ->
  numeq (Breakdown.totalExtraBudget
           (breakdown (calculateDistribution od settings))) (Fin 0) ->
  get (results (calculateDistribution od settings)) name = Some e ->
  numeq (budgetHelpReceived e) (Fin 0)
  /\ numeq (finalPayment e) (overBudget e)
  /\ (gt (overBudget e) (Fin 0) = true -> status e = pays).
Proof.
  intros WF FO FS Z G.
  destruct (entry_in_context od settings name e WF FO FS G)
    as [te [tov [obq [Ete [_ [Pte [Ptov [Pob [_ [_ [_ [ED [EO E]]]]]]]]]]]]].
  rewrite Ete in Z. cbn [numeq] in Z.
  destruct (no_pool_final_entry te tov (toFixed2Q obq) _ Pte Ptov
              (toFixed2Q_nonneg obq Pob) (toFixed2Q_idem obq) Z ED)
    as [H [F S]].
  rewrite <- E in H, F, S. rewrite EO.
  split; [exact H|]. split; [exact F|].
  intro T. apply S, gt_Fin, T.
Qed.

Lemma empty_pool_pays_in_full_witness :
  well_formed (people alice_20) = true
  /\ finite_order alice_20 = true
  /\ finite_settings unset = true
  /\ numeq (Breakdown.totalExtraBudget
              (breakdown (calculateDistribution alice_20 unset))) (Fin 0)
  /\ exists e,
       get (results (calculateDistribution alice_20 unset)) "Alice" = Some e
       /\ numeq (finalPayment e) (overBudget e).
Proof.
  split; [reflexivity|]. split; [reflexivity|]. split; [reflexivity|].
  split; [reflexivity|].
  eexists. split; [reflexivity|].
  apply (empty_pool_pays_in_full alice_20 unset "Alice"); reflexivity.
Defined.

(** X3: what a status says on a finite order.  'pays' and 'covered' go
    with a reported shortfall, and then there is no reported surplus;
    'covered' means a payment of 0 and a help equal to the shortfall;
    'helps_others' means a reported surplus and no shortfall, 'exact'
    neither, and both come with help 0 and payment 0. *)
Theorem status_meaning (od : OrderData) (settings : Settings)
    (name : string) (e : ParticipantDetail) :
  well_formed (people od) = true ->
  finite_order od = true ->
  finite_settings settings = true ->
  get (results (calculateDistribution od settings)) name = Some e ->
  match status e with
  | pays =>
      gt (overBudget e) (Fin 0) = true /\ numeq (extraBudget e) (Fin 0)
  | covered =>
      gt (overBudget e) (Fin 0) = true /\ numeq (extraBudget e) (Fin 0)
      /\ numeq (finalPayment e) (Fin 0)
      /\ numeq (budgetHelpReceived e) (overBudget e)
  | helps_others =>
      gt (extraBudget e) (Fin 0) = true /\ numeq (overBudget e) (Fin 0)
      /\ budgetHelpReceived e = Fin 0 /\ finalPayment e = Fin 0
  | exact =>
      numeq (extraBudget e) (Fin 0) /\ numeq (overBudget e) (Fin 0)
      /\ budgetHelpReceived e = Fin 0 /\ finalPayment e = Fin 0
  end.
Proof.
  intros WF FO FS G.
  destruct (entry_in_context od settings name e WF FO FS G)
    as [te [tov [obq [_ [_ [Pte [Ptov [Pob [_ [I [EOB [ED [EO E]]]]]]]]]]]]].
  destruct (step1_values od settings name FO FS I)
    as [tc [b [ob [ex [_ [_ [Eob [Eex [_ [Pex [_ Excl]]]]]]]]]]].
  rewrite EOB in Eob. injection Eob as <-.
  assert (EE : extraBudget e = Fin (toFixed2Q ex)).
  { rewrite E.
    rewrite (proj1 (proj2 (proj2 (proj2 (proj2
               (final_entry_details (Fin te) (Fin tov)
                  (details_of od settings name))))))).
    cbn [details_of Details.extraBudget]. rewrite Eex. reflexivity. }
  assert (EDX : Details.extraBudget (details_of od settings name)
                = Fin (toFixed2Q ex)).
  { cbn [details_of Details.extraBudget]. rewrite Eex. reflexivity. }
  pose proof (toFixed2Q_nonneg obq Pob) as R0.
  pose proof (toFixed2Q_nonneg ex Pex) as RX0.
  pose proof (toFixed2Q_idem obq) as RI.
  assert (NoSurplus : 0 < toFixed2Q obq -> toFixed2Q ex == 0).
  { intro P. pose proof (rounded_positive obq Pob P).
    destruct Excl as [Z | Z]; [lra|].
    rewrite (toFixed2Q_comp _ _ Z). reflexivity. }
  rewrite EO, EE.
  destruct (final_entry_cases te tov (toFixed2Q obq) _ Pte Ptov ED)
    as [[N C] | [P [x [hu [fu [C [X0 [XP [XZ [H0 [H1 [HX [_ F]]]]]]]]]]]]];
    rewrite <- E in C; rewrite C;
    cbn [spread budgetHelpReceived finalPayment status].
  - rewrite EDX.
    destruct (gt (Fin (toFixed2Q ex)) (Fin 0)) eqn:T; cbn [numeq].
    + repeat split; try reflexivity. lra.
    + apply gt_Fin_false in T. repeat split; try reflexivity; lra.
  - destruct (gt (Fin fu) (Fin 0)) eqn:T; cbn [numeq].
    + split; [apply gt_Fin, P | apply NoSurplus, P].
    + apply gt_Fin_false in T.
      assert (FZ : fu == 0) by lra.
      assert (HZ : hu == toFixed2Q obq) by lra.
      split; [apply gt_Fin, P|]. split; [apply NoSurplus, P|].
      split; [rewrite (toFixed2Q_comp _ _ FZ); reflexivity|].
      rewrite (toFixed2Q_comp _ _ HZ). exact RI.
Qed.

Lemma status_meaning_witness :
  well_formed (people two_short_one_spare) = true
  /\ finite_order two_short_one_spare = true
  /\ finite_settings unset = true
  /\ exists e,
       get (results (calculateDistribution two_short_one_spare unset))
           "Carol" = Some e
       /\ status e = helps_others
       /\ gt (extraBudget e) (Fin 0) = true.
Proof.
  split; [reflexivity|]. split; [reflexivity|]. split; [reflexivity|].
  eexists. split; [reflexivity|]. split; [reflexivity|].
  exact (proj1 (status_meaning two_short_one_spare unset "Carol" _
                  eq_refl eq_refl eq_refl eq_refl)).
Defined.

(** ** The balance of shortfalls and surpluses *)

Section Balance.

Lemma Qsum_diff {X : Type} (f g h : X -> Q) (l : list X) :
  (forall x, In x l -> f x - g x == h x) ->
  Qsum (map f l) - Qsum (map g l) == Qsum (map h l).
Proof.
  induction l as [|x r IH]; intro H.
  - reflexivity.
  - cbn [map]. rewrite !Qsum_cons.
    rewrite <- (IH (fun y I => H y (or_intror I))).
    rewrite <- (H x (or_introl eq_refl)). ring.
Qed.

Lemma Qsum_ext {X : Type} (f g : X -> Q) (l : list X) :
  (forall x, In x l -> f x == g x) -> Qsum (map f l) == Qsum (map g l).
Proof.
  intro H. apply Qle_antisym; apply Qsum_le; intros x I;
    rewrite (H x I); apply Qle_refl.
Qed.

Lemma Qsum_zero {X : Type} (f : X -> Q) (l : list X) :
  (forall x, In x l -> f x == 0) -> Qsum (map f l) == 0.
Proof.
  induction l as [|x r IH]; intro H; [reflexivity|].
  cbn [map]. rewrite Qsum_cons, (H x (or_introl eq_refl)).
  rewrite (IH (fun y I => H y (or_intror I))). reflexivity.
Qed.

(** With distinct keys, looking every key up gives the values in order. *)
Lemma person_keys (p : obj number) :
  NoDup (keys p) -> map (person p) (keys p) = values p.
Proof.
  induction p as [|[k v] r IH]; intro ND; [reflexivity|].
  inversion ND as [|? ? N ND']; subst.
  cbn [keys values map fst snd]. f_equal.
  - unfold person. simpl. rewrite String.eqb_refl. reflexivity.
  - transitivity (map (person r) (keys r)); [|exact (IH ND')].
    apply map_ext_in. intros k' I.
    unfold person. simpl.
    destruct (String.eqb_spec k k') as [<- | D]; [contradiction | reflexivity].
Qed.

End Balance.

(** The shortfalls less the surpluses are the order less the budget. *)
Lemma balance_of_totals (od : OrderData) (settings : Settings) :
  well_formed (people od) = true ->
  finite_order od = true ->
  finite_settings settings = true ->
  keys (people od) <> [] ->
  let b := breakdown (calculateDistribution od settings) in
  exists te tov g t : Q,
    Breakdown.totalExtraBudget b = Fin te
    /\ Breakdown.totalOverBudget b = Fin tov
    /\ Breakdown.grandTotal b = Fin g
    /\ Breakdown.totalBudget b = Fin t
    /\ tov - te == g - t.
Proof.
  intros WF FO FS NE b.
  assert (ND : NoDup (keys (people od))) by (apply distinct_NoDup, WF).
  destruct (totals_finite od settings FO FS)
    as [te [tov [Ete [Etov [Bte [Btov _]]]]]].
  destruct (finite_order_parts od FO) as [A [D [S C]]].
  apply is_finite_Fin in D, S, C.
  pose proof (is_finite_Fin _ FS) as EB.
  set (bq := toQ (budget_of settings)) in *.
  set (dq := toQ (delivery od)) in *.
  set (sq := toQ (service od)) in *.
  set (cq := toQ (discount od)) in *.
  set (names := keys (people od)) in *.
  set (n := inject_Z (Z.of_nat (List.length names))).
  assert (Nn : ~ n == 0).
  { apply of_nat_nonzero. destruct names; [contradiction | simpl; lia]. }
  assert (ET : sharedCostsTotal od = Fin (dq + sq + cq)).
  { unfold sharedCostsTotal. rewrite D, S, C. reflexivity. }
  assert (ES : sharedCostsPerPerson od = Fin ((dq + sq + cq) / n)).
  { unfold sharedCostsPerPerson. rewrite ET. unfold of_nat.
    fold names. fold n. apply div_Fin, Nn. }
  set (s := (dq + sq + cq) / n) in *.
  set (a := fun k => toQ (person (people od) k)).
  destruct (sum_finite (fun x => x) (values (people od))) as [subtotal [Esub Bsub]].
  { unfold all_finite in A. rewrite forallb_forall in A. exact A. }
  rewrite map_id in Esub.
  assert (SA : subtotal == Qsum (map a names)).
  { rewrite Bsub. unfold a, names.
    rewrite <- (person_keys (people od) ND) at 1.
    rewrite map_map. reflexivity. }
  assert (Diff : tov - te == Qsum (map (fun k => 1 * a k + (s - bq)) names)).
  { rewrite Btov, Bte. apply Qsum_diff. intros k I.
    destruct (step1_values od settings k FO FS I)
      as [tc [b' [ob [ex [Etc [Eb [-> [-> [_ [_ [Bal _]]]]]]]]]]].
    rewrite EB in Eb. injection Eb as <-.
    unfold totalCost_of in Etc.
    rewrite (is_finite_Fin _ (person_finite od FO k I)), ES in Etc.
    injection Etc as <-. cbn [toQ]. rewrite Bal. unfold a. ring. }
  rewrite Qsum_affine in Diff. fold n in Diff.
  assert (SN : s * n == dq + sq + cq).
  { unfold s. field. exact Nn. }
  unfold b, calculateDistribution.
  cbn [breakdown Breakdown.totalOverBudget Breakdown.totalExtraBudget
       Breakdown.grandTotal Breakdown.totalBudget].
  change (Breakdown.totalOverBudget
            (breakdown (calculateDistribution od settings)))
    with (totalOverBudget
            (fold_left
               (step1 (people od) (budget_of settings)
                  (sharedCostsPerPerson od)
                  (identify_creator (keys (people od))))
               (keys (people od))
               {| participantDetails := [];
                  totalExtraBudget := Fin 0;
                  totalOverBudget := Fin 0 |})) in Etov.
  change (Breakdown.totalExtraBudget
            (breakdown (calculateDistribution od settings)))
    with (totalExtraBudget
            (fold_left
               (step1 (people od) (budget_of settings)
                  (sharedCostsPerPerson od)
                  (identify_creator (keys (people od))))
               (keys (people od))
               {| participantDetails := [];
                  totalExtraBudget := Fin 0;
                  totalOverBudget := Fin 0 |})) in Ete.
  fold names in Etov, Ete |- *.
  exists te, tov, (subtotal + dq + sq + cq), (bq * n).
  split; [exact Ete|]. split; [exact Etov|].
  rewrite Esub, D, S, C, EB.
  unfold of_nat. fold n. cbn [add mul].
  split; [reflexivity|]. split; [reflexivity|].
  lra.
Qed.


(** X4: on a finite order with participants, and in the exact arithmetic
    of the model, the two totals balance the order against the budget:
    [totalOverBudget - totalExtraBudget = grandTotal - totalBudget]. *)
Theorem totals_balance (od : OrderData) (settings : Settings) :
  well_formed (people od) = true ->
  finite_order od = true ->
  finite_settings settings = true ->
  keys (people od) <> [] ->
  let b := breakdown (calculateDistribution od settings) in
  numeq (sub (Breakdown.totalOverBudget b) (Breakdown.totalExtraBudget b))
        (sub (Breakdown.grandTotal b) (Breakdown.totalBudget b)).
Proof.
  intros WF FO FS NE b.
  destruct (balance_of_totals od settings WF FO FS NE)
    as [te [tov [g [t [Ete [Etov [Eg [Et Bal]]]]]]]].
  fold b in Ete, Etov, Eg, Et. rewrite Ete, Etov, Eg, Et.
  cbn [sub neg add numeq]. lra.
Qed.

Lemma totals_balance_witness :
  well_formed (people thirds) = true
  /\ finite_order thirds = true
  /\ finite_settings unset = true
  /\ keys (people thirds) <> []
  /\ numeq (sub (Breakdown.totalOverBudget
                   (breakdown (calculateDistribution thirds unset)))
                (Breakdown.totalExtraBudget
                   (breakdown (calculateDistribution thirds unset))))
           (sub (Breakdown.grandTotal
                   (breakdown (calculateDistribution thirds unset)))
                (Breakdown.totalBudget
                   (breakdown (calculateDistribution thirds unset)))).
Proof.
  split; [reflexivity|]. split; [reflexivity|]. split; [reflexivity|].
  split; [discriminate|].
  apply (totals_balance thirds unset);
    [reflexivity | reflexivity | reflexivity | discriminate].
Defined.




(** ** A budget of zero *)

Section ZeroBudget.

Lemma nonneg_totalCost (od : OrderData) (k : string) :
  finite_order od = true -> nonneg_order od = true ->
  In k (keys (people od)) -> 0 <= toQ (totalCost_of od k).
Proof.
  intros FO NN I.
  unfold nonneg_order in NN. apply andb_true_iff in NN as [NA NT].
  rewrite forallb_forall in NA.
  destruct (get_key (people od) k I) as [v [G V]].
  specialize (NA v V).
  pose proof (person_finite od FO k I) as PF.
  unfold totalCost_of, person in *. rewrite G in *.
  destruct v as [a | | |]; try discriminate PF.
  apply le_Fin in NA.
  pose proof (sharedCostsTotal_finite od FO) as TF.
  unfold sharedCostsPerPerson.
  destruct (sharedCostsTotal od) as [t | | |]; try discriminate TF.
  apply le_Fin in NT.
  assert (P : (0 < List.length (keys (people od)))%nat).
  { destruct (keys (people od)); [contradiction | simpl; lia]. }
  unfold of_nat. rewrite (div_Fin _ _ (of_nat_nonzero _ P)).
  cbn [add toQ].
  set (n := inject_Z (Z.of_nat (List.length (keys (people od))))).
  assert (Pn : 0 < n).
  { unfold n. change 0 with (inject_Z 0). rewrite <- Zlt_Qlt. lia. }
  destruct (Qinv_facts n Pn) as [Hi _].
  assert (0 <= t / n) by (unfold Qdiv; apply Qmult_le_0_compat; lra).
  lra.
Qed.

End ZeroBudget.

(** X6: with a budget of 0 and a finite order whose amounts and shared
    costs are not negative, nobody has unused budget and everyone pays the
    whole of their cost: the reported [finalPayment] and [overBudget] equal
    the reported [totalCost], and help, [extraBudget] and [budgetUsage] are
    0. *)
Theorem zero_budget_pays_total_cost (od : OrderData) (settings : Settings)
    (name : string) (e : ParticipantDetail) :
  well_formed (people od) = true ->
  finite_order od = true ->
  nonneg_order od = true ->
  numeq (budget_of settings) (Fin 0) ->
  get (results (calculateDistribution od settings)) name = Some e ->
  numeq (finalPayment e) (totalCost e)
  /\ numeq (overBudget e) (totalCost e)
  /\ numeq (budgetHelpReceived e) (Fin 0)
  /\ numeq (extraBudget e) (Fin 0)
  /\ numeq (budgetUsage e) (Fin 0).
Proof.
  intros WF FO NN ZB G.
  assert (FS : finite_settings settings = true).
  { unfold finite_settings. destruct (budget_of settings);
      simpl in ZB; try contradiction. reflexivity. }
  assert (NoSurplus : forall k, In k (keys (people od)) ->
             toQ (extraBudget_of od settings k) == 0
             /\ toQ (overBudget_of od settings k)
                == toQ (totalCost_of od k)).
  { intros k I.
    destruct (step1_values od settings k FO FS I)
      as [tc [b [ob [ex [Etc [Eb [-> [-> [Pob [Pex [Bal Excl]]]]]]]]]]].
    pose proof (nonneg_totalCost od k FO NN I) as Ptc.
    rewrite Etc in Ptc |- *. rewrite Eb in ZB. cbn [toQ numeq] in *.
    destruct Excl; split; lra. }
  destruct (entry_in_context od settings name e WF FO FS G)
    as [te [tov [obq [Ete [_ [Pte [Ptov [Pob [_ [I [EOB [ED [EO E]]]]]]]]]]]]].
  assert (Z : te == 0).
  { destruct (totals_finite od settings FO FS)
      as [te' [_ [Ete' [_ [Bte' _]]]]].
    rewrite Ete in Ete'. injection Ete' as <-.
    rewrite Bte'. apply Qsum_zero. intros k Ik. apply NoSurplus, Ik. }
  destruct (no_pool_final_entry te tov (toFixed2Q obq) _ Pte Ptov
              (toFixed2Q_nonneg obq Pob) (toFixed2Q_idem obq) Z ED)
    as [H [F _]].
  rewrite <- E in H, F.
  destruct (NoSurplus name I) as [EX OB].
  rewrite EOB in OB. cbn [toQ] in OB.
  destruct (final_entry_details (Fin te) (Fin tov)
              (details_of od settings name)) as [_ [_ [E3 [E4 [E5 _]]]]].
  rewrite <- E in E3, E4, E5.
  pose proof (is_finite_Fin _ (totalCost_of_finite od FO name I)) as ET.
  pose proof (nonneg_totalCost od name FO NN I) as Ptc.
  set (tc := toQ (totalCost_of od name)) in *.
  assert (TC : totalCost e = Fin (toFixed2Q tc)).
  { rewrite E3. cbn [details_of Details.totalCost]. rewrite ET.
    reflexivity. }
  assert (RO : toFixed2Q obq == toFixed2Q tc)
    by (apply toFixed2Q_comp, OB).
  rewrite TC, EO. cbn [numeq].
  split; [rewrite F; cbn [numeq]; exact RO|].
  split; [exact RO|]. split; [exact H|].
  split.
  - rewrite E5. cbn [details_of Details.extraBudget].
    rewrite (is_finite_Fin _
               (proj1 (extraBudget_of_finite od settings FO FS name I))).
    cbn [round2 numeq]. rewrite (toFixed2Q_comp _ _ EX). reflexivity.
  - rewrite E4. cbn [details_of Details.budgetUsage]. rewrite ET.
    destruct (budget_of settings) as [b | | |];
      cbn [numeq] in ZB; try contradiction.
    rewrite min_Fin. cbn [round2 numeq].
    destruct (Qle_bool tc b) eqn:C.
    + apply Qle_bool_iff in C.
      assert (T0 : tc == 0) by lra.
      rewrite (toFixed2Q_comp _ _ T0). reflexivity.
    + rewrite (toFixed2Q_comp _ _ ZB). reflexivity.
Qed.

Lemma zero_budget_pays_total_cost_witness :
  well_formed (people alice_20) = true
  /\ finite_order alice_20 = true
  /\ nonneg_order alice_20 = true
  /\ numeq (budget_of (budget 0)) (Fin 0)
  /\ exists e,
       get (results (calculateDistribution alice_20 (budget 0))) "Alice"
       = Some e
       /\ numeq (finalPayment e) (totalCost e).
Proof.
  split; [reflexivity|]. split; [reflexivity|]. split; [reflexivity|].
  split; [reflexivity|].
  eexists. split; [reflexivity|].
  apply (zero_budget_pays_total_cost alice_20 (budget 0) "Alice");
    reflexivity.
Defined.

(** ** What validation accepts *)

Section Accepts.
Variable show_number : number -> string.

Lemma blank_empty (name : string) :
  (name =? EmptyString)%string || blank name = blank name.
Proof. destruct name; reflexivity. Qed.

Lemma validate_participant_Ok (entry : string * value) :
  validate_participant show_number entry = Ok tt
  <-> valid_participant entry = true.
Proof.
  destruct entry as [name amount].
  unfold validate_participant, valid_participant. cbn [fst snd].
  rewrite blank_empty.
  destruct (blank name); cbn [negb andb]; [split; discriminate|].
  destruct amount as [| | b | [q | | |] | s]; try (split; discriminate).
  cbn [isNaN orb]. unfold gt. cbn [lt].
  destruct (Qlt_bool q 0) eqn:N.
  - apply Qlt_bool_iff in N.
    rewrite (proj2 (Qle_bool_false 0 q) N). split; discriminate.
  - apply Qlt_bool_false in N. rewrite (proj2 (Qle_bool_iff 0 q) N).
    destruct (Qlt_bool 1000 q) eqn:H.
    + apply Qlt_bool_iff in H.
      rewrite (proj2 (Qle_bool_false q 1000) H). split; discriminate.
    + apply Qlt_bool_false in H. rewrite (proj2 (Qle_bool_iff q 1000) H).
      split; reflexivity.
Qed.

Lemma validate_participants_Ok (entries : list (string * value)) :
  validate_participants show_number entries = Ok tt
  <-> forallb valid_participant entries = true.
Proof.
  induction entries as [|entry rest IH]; [split; reflexivity|].
  cbn [validate_participants forallb]. rewrite andb_true_iff, <- IH.
  rewrite <- validate_participant_Ok.
  destruct (validate_participant show_number entry) as [[]|m]; cbn [bind].
  - tauto.
  - split; [discriminate | intros [H _]; discriminate H].
Qed.

Lemma validate_fee_Ok (fee : string) (v : value) :
  validate_fee show_number fee v = Ok tt <-> valid_fee v = true.
Proof.
  unfold validate_fee, valid_fee.
  destruct v as [| | b | n | s]; try (split; [reflexivity | reflexivity]);
    try (split; discriminate).
  destruct (isNaN n); split; (reflexivity || discriminate).
Qed.

Lemma validateOrderData_Ok (orderData : RawOrderData) :
  validateOrderData show_number (Some orderData) = Ok tt
  <-> acceptable orderData = true.
Proof.
  unfold validateOrderData, acceptable.
  destruct (raw_people orderData) as [p|]; [|split; discriminate].
  unfold keys, entries. rewrite length_map.
  destruct (List.length p =? 0)%nat eqn:Z.
  - apply Nat.eqb_eq in Z. rewrite Z. split; discriminate.
  - apply Nat.eqb_neq in Z.
    rewrite (proj2 (Nat.leb_le 1 (List.length p))) by lia.
    destruct (50 <? List.length p)%nat eqn:M.
    + apply Nat.ltb_lt in M.
      rewrite (proj2 (Nat.leb_gt (List.length p) 50)) by lia.
      split; discriminate.
    + apply Nat.ltb_ge in M.
      rewrite (proj2 (Nat.leb_le (List.length p) 50)) by lia.
      cbn [andb].
      rewrite !andb_true_iff, <- validate_participants_Ok.
      rewrite <- (validate_fee_Ok "delivery"), <- (validate_fee_Ok "service"),
        <- (validate_fee_Ok "discount").
      destruct (validate_participants show_number p) as [[]|m]; cbn [bind];
        [|split; [discriminate | intros [[[H _] _] _]; discriminate H]].
      destruct (validate_fee show_number "delivery" (raw_delivery orderData))
        as [[]|m]; cbn [bind];
        [|split; [discriminate | intros [[[_ H] _] _]; discriminate H]].
      destruct (validate_fee show_number "service" (raw_service orderData))
        as [[]|m]; cbn [bind];
        [|split; [discriminate | intros [[_ H] _]; discriminate H]].
      tauto.
Qed.

Lemma acceptable_has_people (orderData : RawOrderData) :
  acceptable orderData = true -> no_people orderData = false.
Proof.
  unfold acceptable, no_people.
  destruct (raw_people orderData) as [p|]; [|discriminate].
  intro A. repeat (apply andb_true_iff in A; destruct A as [A _]).
  apply Nat.leb_le in A. unfold keys. rewrite length_map.
  apply Nat.eqb_neq. lia.
Qed.

Lemma parseOrderData_Ok (page : Page) (orderData : RawOrderData) :
  parseOrderData show_number page = Ok orderData
  <-> validatePageContext page = Ok tt
      /\ parsed page = Some orderData
      /\ acceptable orderData = true.
Proof.
  unfold parseOrderData.
  destruct (validatePageContext page) as [[]|m]; cbn [bind];
    [|split; [discriminate | intros [H _]; discriminate H]].
  destruct (parsed page) as [found|];
    [|split; [discriminate | intros [_ [H _]]; discriminate H]].
  rewrite <- validateOrderData_Ok.
  destruct (validateOrderData show_number (Some found)) as [[]|m] eqn:V;
    cbn [bind].
  - split.
    + intros [= <-]. rewrite V. tauto.
    + intros [_ [[= <-] _]]. reflexivity.
  - split; [discriminate|]. intros [_ [[= <-] H]].
    rewrite V in H. discriminate H.
Qed.

End Accepts.



(** ** How a calculation ends *)

(** X9: [calculateAndDisplay] returns results exactly when no calculation
    was in flight, the page parsed to an acceptable order and the display
    helpers did not fail; the results are then the distribution of that
    order under the current settings, they are stored in
    [calculationResults] and have been displayed, and the settings are
    untouched. *)
Theorem calculateAndDisplay_returns_results (show_number : number -> string)
    (page : Page) (fromPopup : bool) (st : State) (r : DistributionResult) :
  let run := calculateAndDisplay show_number page fromPopup st in
  (fst run = Returned (Some r)
   <-> isCalculating st = false
       /\ (fromPopup = true -> showLoadingState page = Ok tt)
       /\ displayResults page = Ok tt
       /\ exists orderData,
            parseOrderData show_number page = Ok orderData
            /\ r = calculateDistribution (typed orderData)
                     (currentSettings st))
  /\ (fst run = Returned (Some r) ->
      calculationResults (snd run) = Some r
      /\ In (ResultsDisplayed r fromPopup (budget_of (currentSettings st)))
            (trace (snd run))
      /\ currentSettings (snd run) = currentSettings st
      /\ isCalculating (snd run) = false).
Proof.
  intro run. unfold run, calculateAndDisplay, attempt.
  destruct (isCalculating st) eqn:F.
  { cbn [fst snd]. split; [split; [discriminate | intros [H _]; discriminate H]
                          | discriminate]. }
  assert (Dead : forall od, parseOrderData show_number page = Ok od ->
                            no_people od = false).
  { intros od H. apply parseOrderData_Ok in H as [_ [_ A]].
    apply acceptable_has_people, A. }
  destruct fromPopup.
  - destruct (showLoadingState page) as [[]|ml].
    + destruct (parseOrderData show_number page) as [od|mp] eqn:P.
      * rewrite (Dead od eq_refl).
        destruct (displayResults page) as [[]|md]; cbn.
        -- split.
           ++ split.
              ** intros [= <-]. repeat split; try reflexivity.
                 exists od. split; reflexivity.
              ** intros [_ [_ [_ [od' [[= <-] ->]]]]]. reflexivity.
           ++ intros [= <-]. repeat split; try reflexivity. left. reflexivity.
        -- split; [split; [discriminate | intros [_ [_ [H _]]]; discriminate H]
                  | discriminate].
      * cbn. split; [split; [discriminate
                            | intros [_ [_ [_ [od' [H _]]]]]; discriminate H]
                    | discriminate].
    + cbn. split; [split; [discriminate
                          | intros [_ [H _]]; discriminate (H eq_refl)]
                  | discriminate].
  - destruct (parseOrderData show_number page) as [od|mp] eqn:P.
    + rewrite (Dead od eq_refl).
      destruct (displayResults page) as [[]|md]; cbn.
      * split.
        -- split.
           ++ intros [= <-]. repeat split; try reflexivity; try discriminate.
              exists od. split; reflexivity.
           ++ intros [_ [_ [_ [od' [[= <-] ->]]]]]. reflexivity.
        -- intros [= <-]. repeat split; try reflexivity. left. reflexivity.
      * destruct (displayError page); cbn;
          (split; [split; [discriminate | intros [_ [_ [H _]]]; discriminate H]
                  | discriminate]).
    + cbn. destruct (displayError page); cbn;
        (split; [split; [discriminate
                        | intros [_ [_ [_ [od' [H _]]]]]; discriminate H]
                | discriminate]).
Qed.

(** X10: how a calculation that was not rejected ends.  Returned results
    are the stored ones.  A call from the page itself (not from the popup)
    that fails returns nothing after logging and displaying the error, and
    throws only if displaying the error fails; a call from the popup that
    fails always throws the error it logged.  The settings are never
    changed. *)
Theorem calculateAndDisplay_outcome (show_number : number -> string)
    (page : Page) (fromPopup : bool) (st : State) :
  isCalculating st = false ->
  let run := calculateAndDisplay show_number page fromPopup st in
  match fst run with
  | Returned (Some r) => calculationResults (snd run) = Some r
  | Returned None =>
      fromPopup = false /\ displayError page = Ok tt
      /\ exists m rest,
           trace (snd run) = ErrorDisplayed m :: ErrorLogged m :: rest
  | Thrown m =>
      (fromPopup = true
       /\ exists rest, trace (snd run) = ErrorLogged m :: rest)
      \/ (fromPopup = false /\ displayError page = Throw m)
  end
  /\ currentSettings (snd run) = currentSettings st.
Proof.
  intros F run. unfold run, calculateAndDisplay, attempt. rewrite F.
  destruct fromPopup.
  - destruct (showLoadingState page) as [[]|ml];
      [destruct (parseOrderData show_number page) as [od|mp];
       [destruct (no_people od); [|destruct (displayResults page) as [[]|md]]|]
      |];
      cbn; split; try reflexivity;
      left; (split; [reflexivity | eexists; reflexivity]).
  - destruct (parseOrderData show_number page) as [od|mp];
      [destruct (no_people od); [|destruct (displayResults page) as [[]|md]]|];
      try destruct (displayError page) as [[]|me];
      cbn; split; try reflexivity;
      first [ right; split; reflexivity
            | split; [reflexivity|]; split; [reflexivity|];
              eexists; eexists; reflexivity ].
Qed.

Lemma calculateAndDisplay_outcome_witness :
  isCalculating idle = false
  /\ currentSettings
       (snd (calculateAndDisplay no_digits alice_bob_page true idle))
     = currentSettings idle.
Proof.
  split; [reflexivity|].
  apply (calculateAndDisplay_outcome no_digits alice_bob_page true idle).
  reflexivity.
Defined.

(** ** The entry points *)

Section EntryPointFacts.
Variable show_number : number -> string.



(** Results that are returned are the distribution of the parsed order and
    are the stored results. *)
Lemma returned_results (page : Page) (fromPopup : bool) (st : State)
    (r : DistributionResult) :
  fst (calculateAndDisplay show_number page fromPopup st)
  = Returned (Some r) ->
  calculationResults (snd (calculateAndDisplay show_number page fromPopup st))
  = Some r
  /\ exists orderData,
       parseOrderData show_number page = Ok orderData
       /\ r = calculateDistribution (typed orderData) (currentSettings st).
Proof.
  unfold calculateAndDisplay, attempt.
  destruct (isCalculating st); [discriminate|].
  destruct fromPopup;
    [destruct (showLoadingState page) as [[]|ml]|];
    try (destruct (parseOrderData show_number page) as [od|mp];
         [destruct (no_people od);
          [|destruct (displayResults page) as [[]|md]]|]);
    try destruct (displayError page) as [[]|me];
    cbn; try discriminate;
    intros [= <-]; (split; [reflexivity|]); exists od; split; reflexivity.
Qed.

End EntryPointFacts.


(** X12: the timer callback of [scheduleAutoCalculation] does nothing while
    a calculation is in flight; otherwise it runs one calculation, which
    leaves the flag clear and ends in a thrown error only when displaying
    an error fails: never with 'Calculation already in progress' from the
    guard. *)
Theorem autoCalculation_is_quiet (show_number : number -> string)
    (page : Page) (st : State) :
  let run := autoCalculation show_number page st in
  (isCalculating st = true -> run = (None, st))
  /\ (isCalculating st = false ->
      isCalculating (snd run) = false
      /\ exists o,
           fst run = Some o
           /\ (forall m, o = Thrown m -> displayError page = Throw m)
           /\ (displayError page = Ok tt -> exists res, o = Returned res)).
Proof.
  intro run. unfold run, autoCalculation. split; intro F; rewrite F;
    [reflexivity|]. cbn [negb].
  unfold calculateAndDisplay, attempt. rewrite F.
  destruct (parseOrderData show_number page) as [od|mp];
    [destruct (no_people od); [|destruct (displayResults page) as [[]|md]]|];
    try destruct (displayError page) as [[]|me];
    cbn; (split; [reflexivity|]); eexists; (split; [reflexivity|]);
    (split; [intros m [= <-] || (intros m; discriminate) | ]);
    try reflexivity;
    first [ intros _; eexists; reflexivity | discriminate ].
Qed.

(** X13: a SETTINGS_UPDATED message with a [dailyBudget] replaces the
    budget, one without it keeps the budget, and neither starts a
    calculation nor sends a reply; the next calculation that returns
    results has used the budget that was sent, any number as it is, zero
    included. *)
Theorem settings_update_takes_effect (show_number : number -> string)
    (page : Page) (patch : settings_patch) (fromPopup : bool) (st : State)
    (r : DistributionResult) :
  let updated := snd (onMessage show_number page (SETTINGS_UPDATED patch) st) in
  fst (onMessage show_number page (SETTINGS_UPDATED patch) st) = (None, false)
  /\ trace updated = trace st
  /\ isCalculating updated = isCalculating st
  /\ calculationResults updated = calculationResults st
  /\ (patch = None -> currentSettings updated = currentSettings st)
  /\ (forall n, patch = Some (Num n) ->
        budget_of (currentSettings updated) = n)
  /\ (forall n, patch = Some (Num n) ->
        fst (calculateAndDisplay show_number page fromPopup updated)
        = Returned (Some r) ->
        Breakdown.totalBudget (breakdown r)
        = mul n (of_nat (Breakdown.participantCount (breakdown r)))).
Proof.
  intro updated. unfold updated. cbn [onMessage fst snd].
  repeat (split; [reflexivity|]).
  split; [intros ->; destruct st as [[?] ? ? ?]; reflexivity|].
  split; [intros n ->; reflexivity|].
  intros n -> R.
  destruct (returned_results show_number page fromPopup _ r R)
    as [_ [od [_ ->]]].
  reflexivity.
Qed.

(** ** The payment request of the popup *)

Section PaymentRequest.

Lemma entry_settled (od : OrderData) (settings : Settings) (name : string)
    (e : ParticipantDetail) :
  well_formed (people od) = true ->
  finite_order od = true ->
  finite_settings settings = true ->
  get (results (calculateDistribution od settings)) name = Some e ->
  settled e.
Proof.
  intros WF FO FS G.
  destruct (entry_in_context od settings name e WF FO FS G)
    as [te [tov [obq [_ [_ [Pte [Ptov [Pob [_ [_ [_ [ED [_ E]]]]]]]]]]]]].
  unfold settled.
  destruct (final_entry_cases te tov (toFixed2Q obq) _ Pte Ptov ED)
    as [[N C] | [P [x [hu [fu [C [X0 [XP [XZ [H0 [H1 [HX [_ F]]]]]]]]]]]]];
    rewrite <- E in C; rewrite C; cbn [spread finalPayment status].
  - exists 0. split; [reflexivity|]. split; [lra | reflexivity].
  - exists (toFixed2Q fu). split; [reflexivity|].
    split; [apply toFixed2Q_nonneg; lra|].
    destruct (gt (Fin fu) (Fin 0)) eqn:T; cbn [is_pays]; [discriminate|].
    intros _. apply gt_Fin_false in T.
    assert (Z : fu == 0) by lra.
    rewrite (toFixed2Q_comp _ _ Z). reflexivity.
Qed.

(** The total collected from settled entries is the sum of all payments. *)
Lemma collected_total (l : list (string * ParticipantDetail))
    (listed : list Payment.t) (t0 : Q) :
  (forall entry, In entry l -> settled (snd entry)) ->
  exists t : Q,
    snd (fold_left collect_payment l (listed, Fin t0)) = Fin t
    /\ t == t0 + Qsum (map (fun entry => toQ (finalPayment (snd entry))) l).
Proof.
  revert listed t0. induction l as [|[name e] rest IH]; intros listed t0 S.
  - exists t0. split; [reflexivity | simpl; ring].
  - cbn [fold_left map]. rewrite Qsum_cons.
    destruct (S (name, e) (or_introl eq_refl)) as [f [Ef [Pf Zf]]].
    cbn [snd] in *. unfold collect_payment at 2. rewrite Ef. cbn [toQ].
    destruct (is_pays (status e) && gt (Fin f) (Fin 0)) eqn:C.
    + destruct (IH (listed
                      ++ [{| Payment.name := name;
                             Payment.amount := Fin f |}])
                   (t0 + f) (fun en I => S en (or_intror I)))
        as [t [Et Bt]].
      exists t. split; [exact Et|]. rewrite Bt. ring.
    + destruct (IH listed t0 (fun en I => S en (or_intror I)))
        as [t [Et Bt]].
      exists t. split; [exact Et|]. rewrite Bt.
      assert (Z : f == 0).
      { apply andb_false_iff in C as [C | C]; [apply Zf, C|].
        apply gt_Fin_false in C. lra. }
      rewrite Z. ring.
Qed.

(** Who is listed is an entry with the status 'pays' and a positive
    payment, listed with that payment. *)
Lemma collected_list (l : list (string * ParticipantDetail))
    (acc : list Payment.t * number) (p : Payment.t) :
  In p (fst (fold_left collect_payment l acc)) ->
  In p (fst acc)
  \/ exists e,
       In (Payment.name p, e) l
       /\ Payment.amount p = finalPayment e
       /\ status e = pays
       /\ gt (finalPayment e) (Fin 0) = true.
Proof.
  revert acc. induction l as [|[name e] rest IH]; intros [listed total] I.
  - left. exact I.
  - cbn [fold_left] in I. apply IH in I as [I | [e' [I' R]]].
    + unfold collect_payment in I.
      destruct (is_pays (status e) && gt (finalPayment e) (Fin 0)) eqn:C.
      * cbn [fst] in I. apply in_app_or in I as [I | [<- | []]].
        -- left. exact I.
        -- right. exists e. apply andb_true_iff in C as [C1 C2].
           split; [left; reflexivity|]. split; [reflexivity|].
           split; [destruct (status e); (reflexivity || discriminate)
                  | exact C2].
      * left. exact I.
    + right. exists e'. split; [right; exact I' | exact R].
Qed.

(** Nothing is listed exactly when no entry qualifies. *)
Lemma collected_none (l : list (string * ParticipantDetail))
    (acc : list Payment.t * number) :
  fst (fold_left collect_payment l acc) = []
  <-> fst acc = []
      /\ forall entry, In entry l ->
           is_pays (status (snd entry))
           && gt (finalPayment (snd entry)) (Fin 0) = false.
Proof.
  revert acc. induction l as [|[name e] rest IH]; intros [listed total].
  - cbn. split; [intro H; split; [exact H | intros ? []] | tauto].
  - cbn [fold_left]. rewrite IH. unfold collect_payment.
    destruct (is_pays (status e) && gt (finalPayment e) (Fin 0)) eqn:C;
      cbn [fst].
    + split.
      * intros [H _]. destruct listed; discriminate H.
      * intros [_ H]. specialize (H (name, e) (or_introl eq_refl)).
        cbn [snd] in H. congruence.
    + split.
      * intros [H R]. split; [exact H|].
        intros en [<- | I]; [exact C | apply R, I].
      * intros [H R]. split; [exact H|].
        intros en I. apply R. right. exact I.
Qed.

End PaymentRequest.

(** X14: for the results of a finite order, the total of the payment
    request is the sum of the [finalPayment]s of all participants, and
    whoever is listed is a participant with the status 'pays', listed with
    a positive payment, the reported [finalPayment]. *)
Theorem payment_request_total (od : OrderData) (settings : Settings) :
  well_formed (people od) = true ->
  finite_order od = true ->
  finite_settings settings = true ->
  let r := calculateDistribution od settings in
  numeq (snd (collect_payments (results r))) (total_finalPayment r)
  /\ forall p,
       In p (fst (collect_payments (results r))) ->
       In (Payment.name p) (keys (people od))
       /\ gt (Payment.amount p) (Fin 0) = true
       /\ exists e,
            get (results r) (Payment.name p) = Some e
            /\ Payment.amount p = finalPayment e
            /\ status e = pays.
Proof.
  intros WF FO FS r.
  assert (ND : NoDup (keys (people od))) by (apply distinct_NoDup, WF).
  assert (KR : keys (results r) = keys (people od)).
  { unfold r. rewrite (results_tabulate od settings ND).
    apply keys_tabulate. }
  assert (Get : forall name e, In (name, e) (results r) ->
                               get (results r) name = Some e).
  { intros name e I. unfold r in *.
    rewrite (results_tabulate od settings ND) in I |- *.
    apply in_map_iff in I as [k [[= <- <-] Ik]].
    exact (get_tabulate _ _ k Ik). }
  assert (S : forall entry, In entry (results r) -> settled (snd entry)).
  { intros [name e] I. cbn [snd].
    apply (entry_settled od settings name e WF FO FS), Get, I. }
  split.
  - unfold collect_payments, entries.
    destruct (collected_total (results r) [] 0 S) as [t [Et Bt]].
    rewrite Et. unfold total_finalPayment, values. rewrite map_map.
    destruct (sum_finite (fun entry => finalPayment (snd entry)) (results r))
      as [q [Eq Bq]].
    { intros en I. destruct (S en I) as [f [-> _]]. reflexivity. }
    rewrite Eq. cbn [numeq]. rewrite Bt, Bq. ring.
  - intros p I. unfold collect_payments, entries in I.
    apply collected_list in I as [[] | [e [I [A [P G]]]]].
    split; [rewrite <- KR; apply (in_map fst) in I; exact I|].
    split; [rewrite A; exact G|].
    exists e. split; [apply Get, I|]. split; assumption.
Qed.

Lemma payment_request_total_witness :
  well_formed (people two_short_one_spare) = true
  /\ finite_order two_short_one_spare = true
  /\ finite_settings unset = true
  /\ numeq (snd (collect_payments
                   (results (calculateDistribution two_short_one_spare
                                                   unset))))
           (total_finalPayment
              (calculateDistribution two_short_one_spare unset)).
Proof.
  split; [reflexivity|]. split; [reflexivity|]. split; [reflexivity|].
  apply (payment_request_total two_short_one_spare unset); reflexivity.
Defined.

(** X15: the payment request reads 'No payments required for this order.'
    exactly when no entry has the status 'pays' together with a positive
    payment, whatever the link and the creator; the popup shows a request
    only for results that are not within budget. *)
Theorem payment_request_none (toFixed : number -> string)
    (rs : obj ParticipantDetail) (creator : option string)
    (tikkieLink : string) (within : bool) :
  (generateTikkieMessage toFixed rs creator tikkieLink = no_payments
   <-> forall name e,
         In (name, e) rs ->
         is_pays (status e) && gt (finalPayment e) (Fin 0) = false)
  /\ (hasPaymentObligations rs within = true ->
      within = false /\ rs <> []).
Proof.
  split.
  - unfold generateTikkieMessage, collect_payments, entries.
    pose proof (collected_none rs ([], Fin 0)) as N. cbn [fst] in N.
    destruct (fold_left collect_payment rs ([], Fin 0)) as [listed total].
    cbn [fst] in N.
    destruct listed as [|p listed'].
    + cbn. split; [intros _ name e I|reflexivity].
      apply (proj2 (proj1 N eq_refl) (name, e) I).
    + split.
      * intro H. exfalso.
        cbn [List.length Nat.eqb] in H.
        assert (Start : forall (ps : list Payment.t) (c : ascii) (m : string),
                   exists m',
                     fold_left (payment_line toFixed) ps (String c m)
                     = String c m').
        { induction ps as [|q ps' IHp]; intros c m;
            [exists m; reflexivity|].
          cbn [fold_left]. unfold payment_line at 2. cbn [append].
          apply IHp. }
        revert H. unfold card_symbol. cbn [append].
        destruct (negb (tikkieLink =? EmptyString)%string); cbn [append];
          match goal with
          | |- context [fold_left _ _ (String ?c ?m)] =>
              destruct (Start (p :: listed') c m) as [m' ->]
          end;
          cbn [append];
          destruct creator as [c|]; try destruct (nonempty (Some c));
          cbn [append]; unfold no_payments; discriminate.
      * intro H. exfalso.
        assert (E : p :: listed' = []) by (apply N; split; [reflexivity|];
          intros [name e] I; apply (H name e I)).
        discriminate E.
  - unfold hasPaymentObligations. intro H.
    apply andb_true_iff in H as [L W].
    split; [destruct within; [discriminate W | reflexivity]|].
    intros ->. discriminate L.
Qed.

(** ** Overages against the excess *)

Section Overages.
Variable od : OrderData.
Hypothesis WF : well_formed (people od) = true.
Hypothesis FO : finite_order od = true.
Hypothesis DS : discount_shared od = true.

Let names := keys (people od).
Let n := inject_Z (Z.of_nat (List.length names)).
Let a (k : string) : Q := toQ (person (people od) k).
Let S : Q := toQ (sum (values (people od))).
Let dq : Q := toQ (discount od).

Lemma subtotal_value :
  sum (values (people od)) = Fin S /\ S == Qsum (map a names).
Proof.
  destruct (finite_order_parts od FO) as [A _].
  assert (ND : NoDup names) by (apply distinct_NoDup, WF).
  destruct (sum_finite (fun x => x) (values (people od))) as [q [E B]].
  { unfold all_finite in A. rewrite forallb_forall in A. exact A. }
  rewrite map_id in E. unfold S. rewrite E. cbn [toQ].
  split; [reflexivity|]. rewrite B. unfold a, names.
  rewrite <- (person_keys (people od) ND) at 1.
  rewrite map_map. reflexivity.
Qed.

(** The share of the discount that falls to a participant. *)
Let share (k : string) : Q :=
  if negb (Qeq_bool dq 0) && Qlt_bool 0 S then a k / S * dq else 0.

Lemma shares_sum : Qsum (map share names) == dq.
Proof.
  destruct subtotal_value as [ES BS].
  destruct (finite_order_parts od FO) as [_ [_ [_ C]]].
  apply is_finite_Fin in C. fold dq in C.
  unfold discount_shared in DS. rewrite C, ES in DS.
  cbn [strict_eq] in DS.
  unfold share.
  destruct (Qeq_bool dq 0) eqn:Z; cbn [negb andb].
  - apply Qeq_bool_iff in Z. rewrite Z. apply Qsum_zero.
    intros; reflexivity.
  - cbn [orb] in DS. apply gt_Fin in DS.
    rewrite (proj2 (Qlt_bool_iff 0 S) DS).
    transitivity (Qsum (map (fun k => (dq / S) * a k + 0) names)).
    + apply Qsum_ext. intros k _. unfold Qdiv. ring.
    + rewrite Qsum_affine, <- BS. field. lra.
Qed.

(** A participant's overage, for a budget [b] and a fee per person [ex]. *)
Lemma overage_value (b ex : Q) (k : string) :
  In k names ->
  exists v : Q,
    overage_of (people od) (Fin b) (Fin ex) (discount od)
               (sum (values (people od))) k = Fin v
    /\ 0 <= v
    /\ a k + ex + share k - b - (1 # 200) <= v.
Proof.
  intro I.
  destruct subtotal_value as [ES _].
  destruct (finite_order_parts od FO) as [_ [_ [_ C]]].
  apply is_finite_Fin in C. fold dq in C.
  pose proof (is_finite_Fin _ (person_finite od FO k I)) as EP.
  fold (a k) in EP.
  assert (F : forall t' : Q,
             t' == a k + ex + share k ->
             exists v : Q,
               round2 (max (Fin 0) (sub (Fin t') (Fin b))) = Fin v
               /\ 0 <= v /\ a k + ex + share k - b - (1 # 200) <= v).
  { intros t' Et. unfold sub. cbn [neg add]. rewrite max_Fin. cbn [round2].
    eexists. split; [reflexivity|].
    pose proof (pos_part_cases (t' + - b)) as [P0 [P1 _]].
    cbn zeta in P0, P1.
    set (p := if Qle_bool 0 (t' + - b) then t' + - b else 0) in *.
    pose proof (toFixed2Q_bounds p) as [B1 _].
    split; [apply toFixed2Q_nonneg, P0 | lra]. }
  unfold overage_of. rewrite EP, ES, C.
  change (strict_eq (Fin dq) (Fin 0)) with (Qeq_bool dq 0).
  change (gt (Fin S) (Fin 0)) with (Qlt_bool 0 S).
  unfold share in F |- *.
  destruct (negb (Qeq_bool dq 0) && Qlt_bool 0 S) eqn:Cd.
  - apply andb_true_iff in Cd as [_ P]. apply Qlt_bool_iff in P.
    rewrite div_Fin by lra. cbn [add mul]. apply F. ring.
  - cbn [add]. apply F. ring.
Qed.

(** Together the overages reach the excess, up to half a cent each. *)
Lemma overages_reach_excess (b ex : Q) :
  exists total : Q,
    sum (map (overage_of (people od) (Fin b) (Fin ex) (discount od)
                         (sum (values (people od)))) names) = Fin total
    /\ 0 <= total
    /\ S + n * ex + dq - n * b - n * (1 # 200) <= total.
Proof.
  destruct subtotal_value as [_ BS].
  set (f := overage_of (people od) (Fin b) (Fin ex) (discount od)
                       (sum (values (people od)))).
  destruct (sum_finite f names) as [q [E B]].
  { intros k I. destruct (overage_value b ex k I) as [v [Ev _]].
    unfold f. rewrite Ev. reflexivity. }
  exists q. split; [exact E|]. rewrite B. split.
  - apply Qsum_nonneg. intros k I.
    destruct (overage_value b ex k I) as [v [Ev [P _]]].
    unfold f. rewrite Ev. exact P.
  - apply Qle_trans
      with (Qsum (map (fun k => 1 * (a k + share k)
                                + (ex - b - (1 # 200))) names)).
    + rewrite Qsum_affine. fold n.
      assert (AS : Qsum (map (fun k => a k + share k) names)
                   == Qsum (map a names) + Qsum (map share names)).
      { clear. induction names as [|k r IH]; [reflexivity|].
        cbn [map]. rewrite !Qsum_cons, IH. ring. }
      rewrite AS, shares_sum, <- BS. lra.
    + apply Qsum_le. intros k I.
      destruct (overage_value b ex k I) as [v [Ev [_ L]]].
      unfold f. rewrite Ev. cbn [toQ]. lra.
Qed.

End Overages.

Section AlternativeRemainder.
Variables (od : OrderData) (settings : Settings).
Hypothesis WF : well_formed (people od) = true.
Hypothesis FO : finite_order od = true.
Hypothesis FS : finite_settings settings = true.
Hypothesis DS : discount_shared od = true.
Hypothesis NE : keys (people od) <> [].

Let names := keys (people od).


End AlternativeRemainder.



(** X17: for a finite order with at least one participant, none of them
    named 'You (Order Owner)', whose discount is absent or comes with a
    positive subtotal, the background script charges every participant
    their own overage, and these charges alone reach the excess of the order
    over the total budget, up to half a cent each (in the exact arithmetic
    of the model); the row 'You (Order Owner)', added exactly when that
    excess is positive, holds the whole excess once more. *)
Theorem owner_row_repeats_excess (od : OrderData) (settings : Settings) :
  well_formed (people od) = true ->
  finite_order od = true ->
  is_finite (Background.budget_of settings) = true ->
  discount_shared od = true ->
  keys (people od) <> [] ->
  ~ In Background.owner_row (keys (people od)) ->
  let names := keys (people od) in
  let d := Background.calculateOrderDistribution od settings in
  let excess := Background.extraForOwner (Background.breakdown d) in
  (forall k, In k names ->
     get (Background.results d) k = Some (background_charge od settings k))
  /\ get (Background.results d) Background.owner_row
     = (if gt excess (Fin 0) then Some (round2 excess) else None)
  /\ le excess
        (add (sum (map (background_charge od settings) names))
             (mul (Fin (1 # 200)) (of_nat (List.length names))))
     = true.
Proof.
  intros WF FO FB DS NE NO names d excess.
  assert (ND : NoDup names) by (apply distinct_NoDup, WF).
  set (charges := map (fun k => (k, background_charge od settings k)) names).
  assert (R : Background.results d
              = if gt excess (Fin 0)
                then set charges Background.owner_row (round2 excess)
                else charges).
  { unfold d, excess, Background.calculateOrderDistribution.
    cbn [Background.results Background.breakdown Background.extraForOwner].
    fold names.
    rewrite (fold_set_distinct _ names [] ND) by (intros ? ? []).
    reflexivity. }
  refine (conj _ (conj _ _)).
  - intros k I. rewrite R.
    assert (G : get charges k = Some (background_charge od settings k))
      by apply (get_tabulate (background_charge od settings) names k I).
    destruct (gt excess (Fin 0)); [|exact G].
    rewrite get_set_other; [exact G|].
    intro E. subst k. exact (NO I).
  - rewrite R. destruct (gt excess (Fin 0)).
    + apply get_set_same.
    + apply get_not_key. unfold charges. rewrite keys_tabulate. exact NO.
  - destruct (subtotal_value od WF FO) as [ES _].
    destruct (finite_order_parts od FO) as [_ [D [Sv C]]].
    apply is_finite_Fin in D, Sv, C, FB.
    set (n := inject_Z (Z.of_nat (List.length names))).
    assert (NP : (0 < List.length names)%nat).
    { fold names in NE. destruct names; [congruence | cbn; lia]. }
    assert (NZ : ~ n == 0) by (apply of_nat_nonzero, NP).
    assert (N0 : 0 <= n).
    { unfold n. change 0 with (inject_Z 0). rewrite <- Zle_Qle. lia. }
    set (b := toQ (Background.budget_of settings)) in *.
    set (ex := (toQ (delivery od) + toQ (service od)) / n).
    destruct (overages_reach_excess od WF FO DS b ex)
      as [total [ET [T0 LT]]].
    fold names in ET.
    change (inject_Z (Z.of_nat (List.length (keys (people od)))))
      with n in LT.
    assert (EM : map (background_charge od settings) names
                 = map (overage_of (people od) (Fin b) (Fin ex) (discount od)
                                   (sum (values (people od)))) names).
    { apply map_ext. intro k. unfold background_charge.
      rewrite FB. unfold Background.extraPerPerson. fold names.
      rewrite (proj2 (Nat.ltb_lt _ _) NP).
      rewrite D, Sv. cbn [add].
      unfold of_nat. fold n. rewrite div_Fin by exact NZ. reflexivity. }
    rewrite EM, ET.
    unfold excess, d, Background.calculateOrderDistribution.
    cbn [Background.breakdown Background.extraForOwner].
    fold names. rewrite ES, D, Sv, C, FB. unfold of_nat. fold n.
    cbn [add mul sub neg]. rewrite max_Fin. apply le_Fin.
    assert (EX : n * ex == toQ (delivery od) + toQ (service od)).
    { unfold ex. field. exact NZ. }
    match goal with
    | |- (if Qle_bool 0 ?x then _ else _) <= _ =>
        pose proof (pos_part_cases x) as [_ [_ [E | E]]];
        cbn zeta in E; rewrite E
    end; lra.
Qed.

Lemma owner_row_repeats_excess_witness :
  well_formed (people alice_20) = true
  /\ finite_order alice_20 = true
  /\ is_finite (Background.budget_of unset) = true
  /\ discount_shared alice_20 = true
  /\ keys (people alice_20) <> []
  /\ ~ In Background.owner_row (keys (people alice_20))
  /\ get (Background.results
            (Background.calculateOrderDistribution alice_20 unset)) "Alice"
     = Some (background_charge alice_20 unset "Alice")
  /\ get (Background.results
            (Background.calculateOrderDistribution alice_20 unset))
         Background.owner_row
     = Some (Fin (600 # 100)).
Proof.
  assert (N : ~ In Background.owner_row (keys (people alice_20))).
  { intros [E | []]. discriminate E. }
  split; [reflexivity|]. split; [reflexivity|]. split; [reflexivity|].
  split; [reflexivity|]. split; [discriminate|]. split; [exact N|].
  destruct (owner_row_repeats_excess alice_20 unset eq_refl eq_refl eq_refl
              eq_refl ltac:(discriminate) N) as [P [O _]].
  split; [apply P; left; reflexivity | exact O].
Defined.

(** * Reading amounts from the text of the page: properties *)

(** ** Characters *)

Ltac bool_to_Prop H :=
  repeat first
    [ rewrite orb_true_iff in H
    | rewrite andb_true_iff in H
    | rewrite N.leb_le in H
    | rewrite N.eqb_eq in H ].

Lemma is_space_spec (c : N) :
  Text.is_space c = true ->
  ((9 <= c <= 13) \/ c = 32 \/ c = 160 \/ c = 5760 \/ (8192 <= c <= 8202)
   \/ c = 8232 \/ c = 8233 \/ c = 8239 \/ c = 8287 \/ c = 12288
   \/ c = 65279)%N.
Proof.
  unfold Text.is_space. intro H. bool_to_Prop H. lia.
Qed.

Lemma canonicalize_cases (c : N) :
  ((97 <= c <= 122)%N /\ Text.canonicalize c = (c - 32)%N)
  \/ ((c < 97 \/ 122 < c)%N /\ Text.canonicalize c = c).
Proof.
  unfold Text.canonicalize.
  destruct (N.leb_spec 97 c); destruct (N.leb_spec c 122); cbn [andb];
    [left | right | right | right]; split; try reflexivity; lia.
Qed.

Lemma lower_cases (c : N) :
  ((65 <= c <= 90)%N /\ Text.lower c = (c + 32)%N)
  \/ ((c < 65 \/ 90 < c)%N /\ Text.lower c = c).
Proof.
  unfold Text.lower.
  destruct (N.leb_spec 65 c); destruct (N.leb_spec c 90); cbn [andb];
    [left | right | right | right]; split; try reflexivity; lia.
Qed.

Lemma lower_canonicalize (c c' : N) :
  Text.canonicalize c = Text.canonicalize c' -> Text.lower c = Text.lower c'.
Proof.
  destruct (canonicalize_cases c) as [[? ->] | [? ->]];
    destruct (canonicalize_cases c') as [[? ->] | [? ->]];
    destruct (lower_cases c) as [[? ->] | [? ->]];
    destruct (lower_cases c') as [[? ->] | [? ->]]; lia.
Qed.

(** White space has no letter case, and is no character of an amount. *)
Lemma space_canonicalize (c : N) :
  Text.is_space c = true -> Text.canonicalize c = c.
Proof.
  intro S. apply is_space_spec in S.
  destruct (canonicalize_cases c) as [[? ->] | [? ->]]; lia.
Qed.

Lemma space_not_same (c p : N) :
  Text.is_space c = true -> no_space p -> RegExp.same true p c = false.
Proof.
  unfold RegExp.same, no_space, Text.euro, Text.minus.
  intros S L. rewrite (space_canonicalize c S). apply is_space_spec in S.
  apply N.eqb_neq.
  destruct (canonicalize_cases p) as [[? ->] | [? ->]]; lia.
Qed.

Lemma is_amount_char_spec (c : N) :
  is_amount_char c = true -> ((48 <= c <= 57) \/ c = 46 \/ c = 44 \/ c = 45)%N.
Proof.
  unfold is_amount_char, Text.is_digit, Text.dot, Text.comma, Text.minus.
  intro H. bool_to_Prop H. lia.
Qed.

Lemma space_not_amount (c : N) :
  Text.is_space c = true -> is_amount_char c = false.
Proof.
  intro S. apply is_space_spec in S.
  destruct (is_amount_char c) eqn:A; [|reflexivity].
  apply is_amount_char_spec in A. lia.
Qed.

(** ** Letter case *)

Lemma spelled_length (l word : Text.text) :
  spelled l word -> List.length l = List.length word.
Proof.
  unfold spelled. intro E.
  rewrite <- (length_map Text.canonicalize l), E. apply length_map.
Qed.

Lemma spelled_cons (c : N) (l : Text.text) (d : N) (word : Text.text) :
  spelled (c :: l) (d :: word)
  <-> Text.canonicalize c = Text.canonicalize d /\ spelled l word.
Proof.
  unfold spelled. cbn [map]. split.
  - intro E. injection E as E1 E2. split; assumption.
  - intros [E1 E2]. rewrite E1, E2. reflexivity.
Qed.

Lemma spelled_toLowerCase (l word : Text.text) :
  spelled l word -> Text.toLowerCase l = Text.toLowerCase word.
Proof.
  revert word. induction l as [|c l IH]; intros [|d word] E;
    try discriminate E; [reflexivity|].
  apply spelled_cons in E as [E1 E2].
  unfold Text.toLowerCase. cbn [map].
  rewrite (lower_canonicalize c d E1).
  f_equal. apply IH, E2.
Qed.

(** ** Literals *)

(** The literal that spells the input's beginning matches it. *)
Lemma literal_spelled (p l rest : Text.text) :
  spelled l p -> RegExp.literal true p (l ++ rest) = Some rest.
Proof.
  revert l. induction p as [|c p IH]; intros [|h l] E; try discriminate E.
  - reflexivity.
  - apply spelled_cons in E as [E1 E2]. cbn [app RegExp.literal].
    unfold RegExp.same. rewrite E1, N.eqb_refl. apply IH, E2.
Qed.

(** A literal that fails on a word fails on every spelling of it. *)
Lemma literal_fails (p l q rest : Text.text) :
  spelled l q ->
  RegExp.literal true p (q ++ rest) = None ->
  RegExp.literal true p (l ++ rest) = None.
Proof.
  revert l q. induction p as [|c p IH]; intros l q E F.
  - discriminate F.
  - destruct l as [|h l], q as [|g q]; try discriminate E.
    + exact F.
    + apply spelled_cons in E as [E1 E2]. cbn [app RegExp.literal] in F |- *.
      unfold RegExp.same in F |- *. rewrite E1.
      destruct (Text.canonicalize c =? Text.canonicalize g)%N;
        [|reflexivity].
      apply (IH l q E2 F).
Qed.

(** A literal matches only an input that begins with it. *)
Lemma literal_begins (p line t : Text.text) :
  RegExp.literal true p line = Some t -> begins line p.
Proof.
  revert line. induction p as [|c p IH]; intros line E.
  - exists [], line. split; reflexivity.
  - destruct line as [|h line]; [discriminate E|].
    cbn [RegExp.literal] in E. unfold RegExp.same in E.
    destruct (N.eqb_spec (Text.canonicalize c) (Text.canonicalize h))
      as [C | C]; [|discriminate E].
    destruct (IH line E) as [l [rest [-> S]]].
    exists (h :: l), rest. split; [reflexivity|].
    apply spelled_cons. split; [symmetry; exact C | exact S].
Qed.

Lemma begins_literal (line word : Text.text) :
  begins line word -> RegExp.literal true word line <> None.
Proof.
  intros [l [rest [-> E]]]. rewrite (literal_spelled word l rest E).
  discriminate.
Qed.

Lemma spelled_app (l a b : Text.text) :
  spelled l (a ++ b) ->
  exists la lb, l = la ++ lb /\ spelled la a /\ spelled lb b.
Proof.
  revert l. induction a as [|c a IH]; intros l E.
  - exists [], l. repeat split. exact E.
  - destruct l as [|h l]; [discriminate E|].
    cbn [app] in E. apply spelled_cons in E as [E1 E2].
    destruct (IH l E2) as [la [lb [-> [Sa Sb]]]].
    exists (h :: la), lb. repeat split; [|exact Sb].
    apply spelled_cons. split; assumption.
Qed.

Lemma spelled_not_space (h p : N) :
  Text.canonicalize h = Text.canonicalize p -> no_space p ->
  Text.is_space h = false.
Proof.
  intros E L. destruct (Text.is_space h) eqn:S; [|reflexivity].
  pose proof (space_not_same h p S L) as F.
  unfold RegExp.same in F. rewrite E, N.eqb_refl in F. discriminate F.
Qed.

(** ** Runs of a class *)

Lemma taken (l tail : Text.text) :
  firstn (List.length (l ++ tail) - List.length tail) (l ++ tail) = l.
Proof.
  rewrite length_app.
  replace (List.length l + List.length tail - List.length tail)%nat
    with (List.length l + 0)%nat by lia.
  rewrite firstn_app_2. cbn [firstn]. apply app_nil_r.
Qed.

Section MatcherFacts.
Variable ignoreCase : bool.
Variable input : Text.text.

Let M := RegExp.m ignoreCase input.

Lemma star_run (p : N -> bool) (run rest : Text.text)
    (caps : RegExp.captures) (k : RegExp.cont) (x : RegExp.state)
    (fuel : nat) :
  forallb p run = true -> stops p rest = true ->
  (List.length run < fuel)%nat ->
  k rest caps = Some x ->
  RegExp.star (M (RegExp.Set_ p)) fuel (run ++ rest) caps k = Some x.
Proof.
  intros A St. revert fuel. induction run as [|c run IH]; intros fuel L K.
  - destruct fuel as [|fuel]; [exact K|]. cbn [app RegExp.star].
    unfold M. cbn [RegExp.m].
    destruct rest as [|h t]; [rewrite K; reflexivity|].
    cbn [stops] in St. apply negb_true_iff in St. rewrite St, K. reflexivity.
  - destruct fuel as [|fuel]; [cbn in L; lia|].
    cbn [forallb] in A. apply andb_true_iff in A as [Pc A].
    cbn [app RegExp.star]. unfold M at 1. cbn [RegExp.m]. rewrite Pc.
    assert (Lt : (List.length (run ++ rest) <? List.length (c :: run ++ rest))%nat
                 = true) by (apply Nat.ltb_lt; cbn; lia).
    rewrite Lt. rewrite (IH A fuel); [reflexivity | cbn in L; lia | exact K].
Qed.

Lemma Star_run (p : N -> bool) (run rest : Text.text)
    (caps : RegExp.captures) (k : RegExp.cont) (x : RegExp.state) :
  forallb p run = true -> stops p rest = true ->
  k rest caps = Some x ->
  M (RegExp.Star (RegExp.Set_ p)) (run ++ rest) caps k = Some x.
Proof.
  intros A St K. unfold M. cbn [RegExp.m].
  apply star_run; try assumption. rewrite length_app. lia.
Qed.

Lemma Plus_run (p : N -> bool) (run rest : Text.text)
    (caps : RegExp.captures) (k : RegExp.cont) (x : RegExp.state) :
  run <> [] -> forallb p run = true -> stops p rest = true ->
  k rest caps = Some x ->
  M (RegExp.Plus (RegExp.Set_ p)) (run ++ rest) caps k = Some x.
Proof.
  intros NE A St K. destruct run as [|c run]; [congruence|].
  cbn [forallb] in A. apply andb_true_iff in A as [Pc A].
  unfold M. cbn [RegExp.m app]. rewrite Pc.
  apply star_run; try assumption. rewrite length_app. lia.
Qed.

(** The euro sign, optional white space and the amount, captured as the
    [i]-th group. *)
Lemma amount_tail (i : nat) (ws' amount rest : Text.text)
    (caps : RegExp.captures) (k : RegExp.cont) (x : RegExp.state) :
  spaces ws' = true ->
  amount_text amount rest = true ->
  k rest ((i, amount) :: caps) = Some x ->
  M (RegExp.cat [RegExp.Chr Text.euro; RegExp.Star white;
                 RegExp.Group i (RegExp.Plus (RegExp.Set_ is_amount_char))])
    ([Text.euro] ++ ws' ++ amount ++ rest) caps k = Some x.
Proof.
  intros S' A K. unfold amount_text in A.
  apply andb_true_iff in A as [A St]. apply andb_true_iff in A as [NA A].
  assert (NEa : amount <> []) by (intros ->; discriminate NA).
  unfold M. cbn [RegExp.cat app RegExp.m].
  assert (Same : RegExp.same ignoreCase Text.euro Text.euro = true)
    by (destruct ignoreCase; reflexivity).
  rewrite Same.
  apply star_run; [exact S' | | rewrite length_app; lia |].
  { destruct amount as [|c amount]; [congruence|].
    cbn [forallb] in A. apply andb_true_iff in A as [Ac _].
    cbn [app stops]. destruct (Text.is_space c) eqn:Sc; [|reflexivity].
    rewrite (space_not_amount c Sc) in Ac. discriminate Ac. }
  change (RegExp.m ignoreCase input
            (RegExp.Plus (RegExp.Set_ is_amount_char)))
    with (M (RegExp.Plus (RegExp.Set_ is_amount_char))).
  apply Plus_run; [exact NEa | exact A | exact St |].
  rewrite taken. exact K.
Qed.

End MatcherFacts.

(** What follows the label in the delivery and service patterns. *)
Lemma fee_tail (input ws ws' amount rest : Text.text)
    (caps : RegExp.captures) (k : RegExp.cont) (x : RegExp.state) :
  ws <> [] -> spaces ws = true -> spaces ws' = true ->
  amount_text amount rest = true ->
  k rest ((2%nat, amount) :: caps) = Some x ->
  RegExp.m true input
    (RegExp.cat [RegExp.Plus white; RegExp.Chr Text.euro; RegExp.Star white;
                 amount_group])
    (ws ++ [Text.euro] ++ ws' ++ amount ++ rest) caps k = Some x.
Proof.
  intros NE S S' A K.
  change (RegExp.cat [RegExp.Plus white; RegExp.Chr Text.euro;
                      RegExp.Star white; amount_group])
    with (RegExp.Seq (RegExp.Plus (RegExp.Set_ Text.is_space))
            (RegExp.cat [RegExp.Chr Text.euro; RegExp.Star white;
                         RegExp.Group 2
                           (RegExp.Plus (RegExp.Set_ is_amount_char))])).
  change (RegExp.m true input (RegExp.Seq ?a ?b) ?s ?c ?k)
    with (RegExp.m true input a s c
            (fun s' caps' => RegExp.m true input b s' caps' k)).
  apply Plus_run; [exact NE | exact S | reflexivity |].
  apply (amount_tail true input 2 ws' amount rest); assumption.
Qed.

(** ** Anchored patterns *)

Lemma search_bol (ignoreCase : bool) (input : Text.text) (r : RegExp.regex)
    (s : Text.text) :
  (List.length s < List.length input)%nat ->
  RegExp.search ignoreCase input (RegExp.Seq RegExp.Bol r) s = None.
Proof.
  induction s as [|c s IH]; intro L.
  - cbn [RegExp.search]. unfold RegExp.match_at. cbn [RegExp.m].
    destruct (Nat.eqb_spec (List.length (@nil N)) (List.length input));
      [lia | reflexivity].
  - cbn [RegExp.search]. unfold RegExp.match_at. cbn [RegExp.m].
    destruct (Nat.eqb_spec (List.length (c :: s)) (List.length input));
      [lia|].
    apply IH. cbn in L. lia.
Qed.

(** A pattern that begins with ^ matches at the beginning of the line or
    not at all. *)
Lemma exec_anchored (ignoreCase : bool) (r : RegExp.regex)
    (line : Text.text) :
  RegExp.exec ignoreCase (RegExp.Seq RegExp.Bol r) line
  = match RegExp.m ignoreCase line r line []
            (fun s' caps => Some (s', caps)) with
    | Some (_, caps) => Some caps
    | None => None
    end.
Proof.
  unfold RegExp.exec.
  destruct line as [|c line].
  - cbn [RegExp.search]. unfold RegExp.match_at. cbn [RegExp.m].
    rewrite Nat.eqb_refl.
    destruct (RegExp.m ignoreCase [] r [] [] _) as [[? ?]|]; reflexivity.
  - cbn [RegExp.search]. unfold RegExp.match_at. cbn [RegExp.m].
    rewrite Nat.eqb_refl.
    destruct (RegExp.m ignoreCase (c :: line) r (c :: line) [] _)
      as [[? ?]|]; [reflexivity|].
    rewrite search_bol by (cbn; lia). reflexivity.
Qed.

(** ** The equations of the matcher *)

Section Equations.
Variables (ignoreCase : bool) (input : Text.text).

Let M := RegExp.m ignoreCase input.

Lemma m_Seq a b s caps k :
  M (RegExp.Seq a b) s caps k = M a s caps (fun s' caps' => M b s' caps' k).
Proof. reflexivity. Qed.

Lemma m_Alt a b s caps k :
  M (RegExp.Alt a b) s caps k
  = match M a s caps k with Some x => Some x | None => M b s caps k end.
Proof. reflexivity. Qed.

Lemma m_Opt a s caps k :
  M (RegExp.Opt a) s caps k
  = match M a s caps k with Some x => Some x | None => k s caps end.
Proof. reflexivity. Qed.

Lemma m_Group i a s caps k :
  M (RegExp.Group i a) s caps k
  = M a s caps
      (fun s' caps' =>
         k s' ((i, firstn (List.length s - List.length s') s) :: caps')).
Proof. reflexivity. Qed.

Lemma m_Eps s caps k : M RegExp.Eps s caps k = k s caps.
Proof. reflexivity. Qed.

Lemma m_Lit p s caps k :
  M (RegExp.Lit p) s caps k
  = match RegExp.literal ignoreCase p s with
    | Some t => k t caps
    | None => None
    end.
Proof. reflexivity. Qed.

Lemma m_Chr c s caps k :
  M (RegExp.Chr c) s caps k
  = match s with
    | h :: t => if RegExp.same ignoreCase c h then k t caps else None
    | [] => None
    end.
Proof. reflexivity. Qed.

End Equations.

(** ** Lines without a fee word *)

Section NoFeeWord.
Variable line : Text.text.
Hypothesis none : forall word, In word fee_words -> ~ begins line word.

Lemma Lit_no_fee_word (p : Text.text) caps k :
  In p fee_words -> RegExp.m true line (RegExp.Lit p) line caps k = None.
Proof.
  intro I. rewrite m_Lit.
  destruct (RegExp.literal true p line) as [t|] eqn:E; [|reflexivity].
  destruct (none p I). apply (literal_begins p line t E).
Qed.

Ltac fee_word := unfold fee_words, delivery_words, service_words;
  cbn [app In]; tauto.

Lemma delivery_no_fee_word : RegExp.exec true delivery_pattern line = None.
Proof.
  unfold delivery_pattern. cbn [RegExp.cat RegExp.any].
  rewrite exec_anchored.
  rewrite m_Seq, m_Group, !m_Alt, m_Seq.
  rewrite !Lit_no_fee_word by fee_word. reflexivity.
Qed.

Lemma service_no_fee_word : RegExp.exec true service_pattern line = None.
Proof.
  unfold service_pattern. cbn [RegExp.cat RegExp.any].
  rewrite exec_anchored.
  rewrite m_Seq, m_Group, !m_Alt.
  rewrite !Lit_no_fee_word by fee_word. reflexivity.
Qed.

Lemma discount_no_fee_word : RegExp.exec true discount_pattern line = None.
Proof.
  unfold discount_pattern. cbn [RegExp.cat RegExp.any].
  rewrite exec_anchored.
  rewrite m_Seq, m_Group, !m_Alt, m_Seq.
  rewrite !Lit_no_fee_word by fee_word. reflexivity.
Qed.

End NoFeeWord.

(** ** Labels *)

Section Labels.
Variable input : Text.text.

Let M := RegExp.m true input.

Lemma literal_app (a b l s : Text.text) :
  spelled l a ->
  RegExp.literal true (a ++ b) (l ++ s) = RegExp.literal true b s.
Proof.
  revert l. induction a as [|c a IH]; intros [|h l] E; try discriminate E.
  - reflexivity.
  - apply spelled_cons in E as [E1 E2]. cbn [app RegExp.literal].
    unfold RegExp.same. rewrite E1, N.eqb_refl. apply IH, E2.
Qed.

(** The literal that spells the label matches it. *)
Lemma Lit_label (word l tail : Text.text) caps k :
  spelled l word -> M (RegExp.Lit word) (l ++ tail) caps k = k tail caps.
Proof.
  intro E. unfold M. rewrite m_Lit, (literal_spelled word l tail E).
  reflexivity.
Qed.

(** A literal that differs from the label within the label fails. *)
Lemma Lit_other (p q l tail : Text.text) caps k :
  spelled l q ->
  RegExp.literal true p (q ++ tail) = None ->
  M (RegExp.Lit p) (l ++ tail) caps k = None.
Proof.
  intros E F. unfold M. rewrite m_Lit, (literal_fails p l q tail E F).
  reflexivity.
Qed.

(** A literal that goes on with a letter where white space follows the
    label fails. *)
Lemma Lit_longer (a : Text.text) (c : N) (b l : Text.text) (w : N)
    (tail : Text.text) caps k :
  spelled l a -> no_space c -> Text.is_space w = true ->
  M (RegExp.Lit (a ++ c :: b)) (l ++ w :: tail) caps k = None.
Proof.
  intros E L S. unfold M. rewrite m_Lit, (literal_app a (c :: b) l _ E).
  cbn [RegExp.literal]. rewrite (space_not_same w c S L). reflexivity.
Qed.

Lemma Chr_space (c w : N) (tail : Text.text) caps k :
  no_space c -> Text.is_space w = true ->
  M (RegExp.Chr c) (w :: tail) caps k = None.
Proof.
  intros L S. unfold M. rewrite m_Chr, (space_not_same w c S L).
  reflexivity.
Qed.

End Labels.

Lemma letter_no_space (c : N) : (65 <=? c)%N && (c <=? 122)%N = true -> no_space c.
Proof.
  intro H. left. apply andb_true_iff in H as [A B].
  apply N.leb_le in A, B. lia.
Qed.

(** ** Delivery and service lines *)

Section FeeLines.
Variables (input l : Text.text) (w : N) (tail : Text.text).
Variable caps : RegExp.captures.
Variables (k : RegExp.cont) (x : RegExp.state).
Hypothesis S : Text.is_space w = true.
Hypothesis K : k (w :: tail) ((1%nat, l) :: caps) = Some x.

Let M := RegExp.m true input.

Let K1 : RegExp.cont :=
  fun s' caps' =>
    k s' ((1%nat,
           firstn (List.length (l ++ w :: tail) - List.length s')
                  (l ++ w :: tail)) :: caps').

Lemma K1_tail : K1 (w :: tail) caps = Some x.
Proof. unfold K1. rewrite taken. exact K. Qed.

Lemma delivery_label (word : Text.text) :
  In word (labels_of Delivery) -> spelled l word ->
  M (RegExp.Group 1
       (RegExp.any
          (RegExp.Seq (RegExp.Lit (Text.of_string "Delivery cost"))
                      (RegExp.Opt (RegExp.Chr 115)))
          [RegExp.Lit (Text.of_string "Bezorgkosten");
           RegExp.Lit (Text.of_string "Delivery fee");
           RegExp.Lit (Text.of_string "Leveringskosten")]))
    (l ++ w :: tail) caps k = Some x.
Proof.
  intros I E. unfold M. rewrite m_Group. fold K1.
  pose proof K1_tail as HK.
  cbn [RegExp.any]. rewrite !m_Alt, m_Seq.
  cbn [labels_of In] in I.
  destruct I as [<- | [<- | [<- | [<- | [<- | []]]]]].
  - rewrite (Lit_label input _ l _ _ _ E), m_Opt.
    rewrite Chr_space by (try exact S; apply letter_no_space; reflexivity).
    rewrite HK. reflexivity.
  - change (Text.of_string "Delivery costs")
      with (Text.of_string "Delivery cost" ++ [115%N]) in E.
    destruct (spelled_app _ _ _ E) as [la [lb [-> [Ea Eb]]]].
    destruct lb as [|c [|? ?]]; try discriminate Eb.
    apply spelled_cons in Eb as [Ec _].
    rewrite <- app_assoc. rewrite (Lit_label input _ la _ _ _ Ea), m_Opt.
    cbn [app]. rewrite m_Chr. unfold RegExp.same.
    rewrite Ec, N.eqb_refl.
    rewrite HK. reflexivity.
  - rewrite (Lit_other input (Text.of_string "Delivery cost") _ l _ _ _ E
               eq_refl).
    rewrite (Lit_label input _ l _ _ _ E). rewrite HK. reflexivity.
  - rewrite (Lit_other input (Text.of_string "Delivery cost") _ l _ _ _ E
               eq_refl).
    rewrite (Lit_other input (Text.of_string "Bezorgkosten") _ l _ _ _ E
               eq_refl).
    rewrite (Lit_label input _ l _ _ _ E). rewrite HK. reflexivity.
  - rewrite (Lit_other input (Text.of_string "Delivery cost") _ l _ _ _ E
               eq_refl).
    rewrite (Lit_other input (Text.of_string "Bezorgkosten") _ l _ _ _ E
               eq_refl).
    rewrite (Lit_other input (Text.of_string "Delivery fee") _ l _ _ _ E
               eq_refl).
    rewrite (Lit_label input _ l _ _ _ E). exact HK.
Qed.

Lemma service_label (word : Text.text) :
  In word (labels_of Service) -> spelled l word ->
  M (RegExp.Group 1
       (RegExp.any
          (RegExp.Lit (Text.of_string "Service fee"))
          [RegExp.Lit (Text.of_string "Servicekosten");
           RegExp.Lit (Text.of_string "Service charge")]))
    (l ++ w :: tail) caps k = Some x.
Proof.
  intros I E. unfold M. rewrite m_Group. fold K1.
  pose proof K1_tail as HK.
  cbn [RegExp.any]. rewrite !m_Alt.
  cbn [labels_of service_words In] in I.
  destruct I as [<- | [<- | [<- | []]]].
  - rewrite (Lit_label input _ l _ _ _ E). rewrite HK. reflexivity.
  - rewrite (Lit_other input (Text.of_string "Service fee") _ l _ _ _ E
               eq_refl).
    rewrite (Lit_label input _ l _ _ _ E). rewrite HK. reflexivity.
  - rewrite (Lit_other input (Text.of_string "Service fee") _ l _ _ _ E
               eq_refl).
    rewrite (Lit_other input (Text.of_string "Servicekosten") _ l _ _ _ E
               eq_refl).
    rewrite (Lit_label input _ l _ _ _ E). exact HK.
Qed.

(** A service label is no match for the delivery pattern. *)
Lemma delivery_not_service (word : Text.text) (k' : RegExp.cont) :
  In word (labels_of Service) -> spelled l word ->
  M (RegExp.Group 1
       (RegExp.any
          (RegExp.Seq (RegExp.Lit (Text.of_string "Delivery cost"))
                      (RegExp.Opt (RegExp.Chr 115)))
          [RegExp.Lit (Text.of_string "Bezorgkosten");
           RegExp.Lit (Text.of_string "Delivery fee");
           RegExp.Lit (Text.of_string "Leveringskosten")]))
    (l ++ w :: tail) caps k' = None.
Proof.
  intros I E. unfold M. rewrite m_Group.
  cbn [RegExp.any]. rewrite !m_Alt, m_Seq.
  cbn [labels_of service_words In] in I.
  destruct I as [<- | [<- | [<- | []]]];
    rewrite (Lit_other input (Text.of_string "Delivery cost") _ l _ _ _ E
               eq_refl);
    rewrite (Lit_other input (Text.of_string "Bezorgkosten") _ l _ _ _ E
               eq_refl);
    rewrite (Lit_other input (Text.of_string "Delivery fee") _ l _ _ _ E
               eq_refl);
    rewrite (Lit_other input (Text.of_string "Leveringskosten") _ l _ _ _ E
               eq_refl);
    reflexivity.
Qed.

End FeeLines.

Section FeeLine.
Variables (label ws ws' amount rest : Text.text).
Hypothesis NE : ws <> [].
Hypothesis S : spaces ws = true.
Hypothesis S' : spaces ws' = true.
Hypothesis A : amount_text amount rest = true.

Let line := label ++ ws ++ [Text.euro] ++ ws' ++ amount ++ rest.

Lemma line_shape :
  exists w ws0,
    ws = w :: ws0 /\ Text.is_space w = true
    /\ line = label ++ w :: ws0 ++ [Text.euro] ++ ws' ++ amount ++ rest.
Proof.
  unfold line. clear line. destruct ws as [|w ws0]; [congruence|].
  exists w, ws0. unfold spaces in S. cbn [forallb] in S.
  apply andb_true_iff in S as [Sw _].
  split; [reflexivity|]. split; [exact Sw | reflexivity].
Qed.

Ltac after_label w ws0 Ew HK :=
  match goal with
  | |- context [RegExp.m true ?L _ (label ++ w :: ?t) [] ?k] =>
      assert (HK : k (w :: t) [(1%nat, label)]
                   = Some (rest, [(2%nat, amount); (1%nat, label)]));
      [ cbv beta;
        apply (fee_tail L (w :: ws0) ws' amount rest);
        [ discriminate | rewrite <- Ew; exact S | exact S' | exact A
        | reflexivity ]
      | ]
  end.

Lemma delivery_line (word : Text.text) :
  In word (labels_of Delivery) -> spelled label word ->
  RegExp.exec true delivery_pattern line
  = Some [(2%nat, amount); (1%nat, label)].
Proof.
  intros I E. destruct line_shape as [w [ws0 [Ew [Sw ->]]]].
  unfold delivery_pattern. cbn [RegExp.cat].
  rewrite exec_anchored, m_Seq.
  after_label w ws0 Ew HK.
  rewrite (delivery_label _ label w _ [] _ _ Sw HK word I E). reflexivity.
Qed.

Lemma service_line (word : Text.text) :
  In word (labels_of Service) -> spelled label word ->
  RegExp.exec true delivery_pattern line = None
  /\ RegExp.exec true service_pattern line
     = Some [(2%nat, amount); (1%nat, label)].
Proof.
  intros I E. destruct line_shape as [w [ws0 [Ew [Sw ->]]]]. split.
  - unfold delivery_pattern. cbn [RegExp.cat].
    rewrite exec_anchored, m_Seq.
    rewrite (delivery_not_service _ label w _ [] word _ I E). reflexivity.
  - unfold service_pattern. cbn [RegExp.cat].
    rewrite exec_anchored, m_Seq.
    after_label w ws0 Ew HK.
    rewrite (service_label _ label w _ [] _ _ HK word I E). reflexivity.
Qed.

End FeeLine.

(** X18: a line that begins with none of the fee words, whatever the case
    of its letters, changes no fee; so lines of which none begins with a
    fee word give fees of 0. *)
Theorem fees_need_a_fee_word (lines : list Text.text) :
  (forall fees line,
      (forall word, In word fee_words -> ~ begins line word) ->
      fee_line fees line = fees)
  /\ ((forall line word,
          In line lines -> In word fee_words -> ~ begins line word) ->
      parseFeesFromText lines
      = {| Fees.delivery := Fin 0; Fees.service := Fin 0;
           Fees.discount := Fin 0 |}).
Proof.
  assert (Step : forall fees line,
             (forall word, In word fee_words -> ~ begins line word) ->
             fee_line fees line = fees).
  { intros fees line none. unfold fee_line.
    rewrite (delivery_no_fee_word line none),
      (service_no_fee_word line none), (discount_no_fee_word line none).
    reflexivity. }
  split; [exact Step|].
  unfold parseFeesFromText.
  generalize {| Fees.delivery := Fin 0; Fees.service := Fin 0;
                Fees.discount := Fin 0 |}.
  induction lines as [|line lines IH]; intros fees none; [reflexivity|].
  cbn [fold_left]. rewrite Step.
  - apply IH. intros l word I. apply none. right. exact I.
  - intros word. apply none. left. reflexivity.
Qed.

Lemma fees_need_a_fee_word_witness :
  fee_line {| Fees.delivery := Fin 1; Fees.service := Fin 2;
              Fees.discount := Fin 3 |}
           (Text.of_string "Total " ++ [Text.euro] ++ Text.of_string "12,00")
  = {| Fees.delivery := Fin 1; Fees.service := Fin 2;
       Fees.discount := Fin 3 |}.
Proof.
  apply (fees_need_a_fee_word []).
  intros word I B. apply begins_literal in B. apply B. clear B.
  unfold fee_words, delivery_words, service_words in I. cbn [app In] in I.
  repeat (destruct I as [<- | I]; [reflexivity|]). destruct I.
Defined.

(** X19: a line that begins with a delivery or service label in any letter
    case, followed by white space, the euro sign, optional white space and
    an amount, sets that fee to the amount read; the other fees and the
    earlier value of the fee itself play no part: the last such line
    wins. *)
Theorem fee_line_sets_fee (kind : fee_kind) (lines : list Text.text)
    (word label ws ws' amount rest : Text.text) :
  In word (labels_of kind) -> spelled label word ->
  ws <> [] -> spaces ws = true -> spaces ws' = true ->
  amount_text amount rest = true ->
  parseFeesFromText
    (lines ++ [label ++ ws ++ [Text.euro] ++ ws' ++ amount ++ rest])
  = set_fee kind (price_of amount) (parseFeesFromText lines).
Proof.
  intros I E NE S S' A. unfold parseFeesFromText.
  rewrite fold_left_app. cbn [fold_left]. unfold fee_line.
  destruct kind.
  - rewrite (delivery_line label ws ws' amount rest NE S S' A word I E).
    reflexivity.
  - destruct (service_line label ws ws' amount rest NE S S' A word I E)
      as [-> ->].
    reflexivity.
Qed.

Lemma fee_line_sets_fee_witness :
  In (Text.of_string "Bezorgkosten") (labels_of Delivery)
  /\ spelled (Text.of_string "bezorgkosten") (Text.of_string "Bezorgkosten")
  /\ [32%N; 32%N] <> []
  /\ spaces [32%N; 32%N] = true
  /\ spaces [32%N] = true
  /\ amount_text (Text.of_string "1.234,56") [] = true
  /\ parseFeesFromText [delivery_2_50; bezorgkosten_1234_56]
     = set_fee Delivery (price_of (Text.of_string "1.234,56"))
               (parseFeesFromText [delivery_2_50]).
Proof.
  assert (I : In (Text.of_string "Bezorgkosten") (labels_of Delivery))
    by (right; right; left; reflexivity).
  split; [exact I|]. split; [reflexivity|]. split; [discriminate|].
  split; [reflexivity|]. split; [reflexivity|]. split; [reflexivity|].
  apply (fee_line_sets_fee Delivery [delivery_2_50]
           (Text.of_string "Bezorgkosten") (Text.of_string "bezorgkosten")
           [32%N; 32%N] [32%N] (Text.of_string "1.234,56") []);
    [exact I | reflexivity | discriminate | reflexivity | reflexivity
    | reflexivity].
Defined.

(** ** Discount lines *)

Lemma startsWith_app (p r : Text.text) : Text.startsWith (p ++ r) p = true.
Proof.
  induction p as [|c p IH]; [destruct r; reflexivity|].
  cbn [app Text.startsWith]. rewrite N.eqb_refl. exact IH.
Qed.

Lemma includes_app (a p b : Text.text) :
  Text.includes (a ++ p ++ b) p = true.
Proof.
  induction a as [|c a IH].
  - cbn [app]. destruct (p ++ b) eqn:E; cbn [Text.includes];
      rewrite <- E, startsWith_app; reflexivity.
  - cbn [app Text.includes]. rewrite IH. apply orb_true_r.
Qed.

Section DiscountTail.
Variable input : Text.text.
Variables (ws dash ws' amount rest : Text.text).
Hypothesis NE : ws <> [].
Hypothesis S : spaces ws = true.
Hypothesis D : dash = [] \/ dash = [Text.minus].
Hypothesis S' : spaces ws' = true.
Hypothesis A : amount_text amount rest = true.

Let M := RegExp.m true input.

Lemma discount_tail (caps : RegExp.captures) (k : RegExp.cont)
    (x : RegExp.state) :
  k rest ((2%nat, amount) :: caps) = Some x ->
  M (RegExp.cat [RegExp.Plus white; RegExp.Opt (RegExp.Chr Text.minus);
                 RegExp.Chr Text.euro; RegExp.Star white; amount_group])
    (ws ++ dash ++ [Text.euro] ++ ws' ++ amount ++ rest) caps k = Some x.
Proof.
  intro K. unfold M.
  change (RegExp.cat [RegExp.Plus white; RegExp.Opt (RegExp.Chr Text.minus);
                      RegExp.Chr Text.euro; RegExp.Star white; amount_group])
    with (RegExp.Seq (RegExp.Plus white)
            (RegExp.Seq (RegExp.Opt (RegExp.Chr Text.minus))
               (RegExp.cat [RegExp.Chr Text.euro; RegExp.Star white;
                            amount_group]))).
  rewrite m_Seq.
  apply (Plus_run true input Text.is_space ws); [exact NE | exact S | |].
  { destruct D as [-> | ->]; reflexivity. }
  pose proof (amount_tail true input 2 ws' amount rest caps k x S' A K) as T.
  rewrite m_Seq, m_Opt, m_Chr.
  destruct D as [-> | ->]; cbn [app].
  - change (RegExp.same true Text.minus Text.euro) with false. cbv iota.
    exact T.
  - change (RegExp.same true Text.minus Text.minus) with true. cbv iota.
    cbn [app] in T. unfold amount_group. rewrite T. reflexivity.
Qed.

End DiscountTail.

Section DiscountLabels.
Variables (input l : Text.text) (w : N) (tail : Text.text).
Variable caps : RegExp.captures.
Variables (k : RegExp.cont) (x : RegExp.state).
Hypothesis S : Text.is_space w = true.

Let M := RegExp.m true input.

Let discount_group : RegExp.regex :=
  RegExp.Group 1
    (RegExp.any
       (RegExp.cat [RegExp.Lit (Text.of_string "Thuisbezorgd");
                    RegExp.Plus white;
                    RegExp.Lit (Text.of_string "Pay")])
       [RegExp.Lit (Text.of_string "Discount");
        RegExp.Lit (Text.of_string "Voucher");
        RegExp.Lit (Text.of_string "Kortingsbon");
        RegExp.Lit (Text.of_string "Korting");
        RegExp.Lit (Text.of_string "Coupon")]).

Lemma discount_label (word : Text.text) :
  k (w :: tail) ((1%nat, l) :: caps) = Some x ->
  In word discount_labels -> spelled l word ->
  M discount_group (l ++ w :: tail) caps k = Some x.
Proof.
  intros K I E. unfold M, discount_group. rewrite m_Group.
  assert (HK : k (w :: tail)
                 ((1%nat,
                   firstn (List.length (l ++ w :: tail)
                           - List.length (w :: tail)) (l ++ w :: tail))
                  :: caps) = Some x) by (rewrite taken; exact K).
  cbn [RegExp.any RegExp.cat]. rewrite !m_Alt, m_Seq.
  cbn [discount_labels In] in I.
  destruct I as [<- | [<- | [<- | [<- | [<- | []]]]]];
    rewrite (Lit_other input (Text.of_string "Thuisbezorgd") _ l _ _ _ E
               eq_refl).
  - rewrite (Lit_label input _ l _ _ _ E), HK. reflexivity.
  - rewrite (Lit_other input (Text.of_string "Discount") _ l _ _ _ E
               eq_refl).
    rewrite (Lit_label input _ l _ _ _ E), HK. reflexivity.
  - rewrite (Lit_other input (Text.of_string "Discount") _ l _ _ _ E
               eq_refl).
    rewrite (Lit_other input (Text.of_string "Voucher") _ l _ _ _ E
               eq_refl).
    rewrite (Lit_label input _ l _ _ _ E), HK. reflexivity.
  - rewrite (Lit_other input (Text.of_string "Discount") _ l _ _ _ E
               eq_refl).
    rewrite (Lit_other input (Text.of_string "Voucher") _ l _ _ _ E
               eq_refl).
    change (Text.of_string "Kortingsbon")
      with (Text.of_string "Korting" ++ 115%N :: Text.of_string "bon").
    rewrite (Lit_longer input _ 115 _ l w tail _ _ E)
      by (try exact S; apply letter_no_space; reflexivity).
    rewrite (Lit_label input _ l _ _ _ E), HK. reflexivity.
  - rewrite (Lit_other input (Text.of_string "Discount") _ l _ _ _ E
               eq_refl).
    rewrite (Lit_other input (Text.of_string "Voucher") _ l _ _ _ E
               eq_refl).
    rewrite (Lit_other input (Text.of_string "Kortingsbon") _ l _ _ _ E
               eq_refl).
    rewrite (Lit_other input (Text.of_string "Korting") _ l _ _ _ E
               eq_refl).
    rewrite (Lit_label input _ l _ _ _ E). exact HK.
Qed.

Lemma pay_label_matches :
  k (w :: tail) ((1%nat, l) :: caps) = Some x ->
  pay_label l ->
  M discount_group (l ++ w :: tail) caps k = Some x.
Proof.
  intros K [l1 [ws1 [l2 [El [E1 [NE1 [S1 E2]]]]]]].
  unfold M, discount_group, white. rewrite m_Group.
  assert (HK : k (w :: tail)
                 ((1%nat,
                   firstn (List.length (l ++ w :: tail)
                           - List.length (w :: tail)) (l ++ w :: tail))
                  :: caps) = Some x) by (rewrite taken; exact K).
  cbn [RegExp.any RegExp.cat]. rewrite m_Alt, !m_Seq.
  subst l. rewrite <- !app_assoc in HK |- *.
  rewrite (Lit_label input _ l1 _ _ _ E1), m_Seq.
  rewrite (Plus_run true input Text.is_space ws1 (l2 ++ w :: tail) caps _ x);
    [reflexivity | exact NE1 | exact S1 | |].
  - destruct l2 as [|h l2]; [discriminate E2|].
    apply spelled_cons in E2 as [Eh _]. cbn [app stops].
    rewrite (spelled_not_space h _ Eh); [reflexivity|].
    apply letter_no_space. reflexivity.
  - rewrite m_Seq, (Lit_label input _ l2 _ _ _ E2), m_Eps. exact HK.
Qed.

(** A discount label is no match for the delivery and service patterns. *)
Lemma other_patterns_fail (word : Text.text) (k' : RegExp.cont) :
  In word (Text.of_string "Thuisbezorgd" :: discount_labels) ->
  (exists la lb, l = la ++ lb /\ spelled la word) ->
  M (RegExp.Group 1
       (RegExp.any
          (RegExp.Seq (RegExp.Lit (Text.of_string "Delivery cost"))
                      (RegExp.Opt (RegExp.Chr 115)))
          [RegExp.Lit (Text.of_string "Bezorgkosten");
           RegExp.Lit (Text.of_string "Delivery fee");
           RegExp.Lit (Text.of_string "Leveringskosten")]))
    (l ++ w :: tail) caps k' = None
  /\ M (RegExp.Group 1
          (RegExp.any
             (RegExp.Lit (Text.of_string "Service fee"))
             [RegExp.Lit (Text.of_string "Servicekosten");
              RegExp.Lit (Text.of_string "Service charge")]))
       (l ++ w :: tail) caps k' = None.
Proof.
  intros I [la [lb [-> E]]]. unfold M. rewrite !m_Group.
  cbn [RegExp.any]. rewrite !m_Alt, m_Seq. rewrite <- !app_assoc.
  cbn [discount_labels In] in I.
  destruct I as [<- | [<- | [<- | [<- | [<- | [<- | []]]]]]];
    rewrite (Lit_other input (Text.of_string "Delivery cost") _ la _ _ _ E
               eq_refl);
    rewrite (Lit_other input (Text.of_string "Bezorgkosten") _ la _ _ _ E
               eq_refl);
    rewrite (Lit_other input (Text.of_string "Delivery fee") _ la _ _ _ E
               eq_refl);
    rewrite (Lit_other input (Text.of_string "Leveringskosten") _ la _ _ _ E
               eq_refl);
    rewrite (Lit_other input (Text.of_string "Service fee") _ la _ _ _ E
               eq_refl);
    rewrite (Lit_other input (Text.of_string "Servicekosten") _ la _ _ _ E
               eq_refl);
    rewrite (Lit_other input (Text.of_string "Service charge") _ la _ _ _ E
               eq_refl);
    split; reflexivity.
Qed.

End DiscountLabels.

Section DiscountLine.
Variables (label ws dash ws' amount rest : Text.text).
Hypothesis NE : ws <> [].
Hypothesis S : spaces ws = true.
Hypothesis D : dash = [] \/ dash = [Text.minus].
Hypothesis S' : spaces ws' = true.
Hypothesis A : amount_text amount rest = true.

Let line := label ++ ws ++ dash ++ [Text.euro] ++ ws' ++ amount ++ rest.

Lemma discount_line_shape :
  exists w ws0,
    ws = w :: ws0 /\ Text.is_space w = true
    /\ line
       = label ++ w :: ws0 ++ dash ++ [Text.euro] ++ ws' ++ amount ++ rest.
Proof.
  unfold line. clear line. destruct ws as [|w ws0]; [congruence|].
  exists w, ws0. unfold spaces in S. cbn [forallb] in S.
  apply andb_true_iff in S as [Sw _].
  split; [reflexivity|]. split; [exact Sw | reflexivity].
Qed.

(** The three patterns on a discount line. *)
Lemma discount_line_matches (word : Text.text) :
  In word (Text.of_string "Thuisbezorgd" :: discount_labels) ->
  (exists la lb, label = la ++ lb /\ spelled la word) ->
  (pay_label label \/ (In word discount_labels /\ spelled label word)) ->
  RegExp.exec true delivery_pattern line = None
  /\ RegExp.exec true service_pattern line = None
  /\ RegExp.exec true discount_pattern line
     = Some [(2%nat, amount); (1%nat, label)].
Proof.
  intros I B L. destruct discount_line_shape as [w [ws0 [Ew [Sw ->]]]].
  split; [|split].
  - unfold delivery_pattern. cbn [RegExp.cat].
    rewrite exec_anchored, m_Seq.
    rewrite (proj1 (other_patterns_fail _ label w _ [] word _ I B)).
    reflexivity.
  - unfold service_pattern. cbn [RegExp.cat].
    rewrite exec_anchored, m_Seq.
    rewrite (proj2 (other_patterns_fail _ label w _ [] word _ I B)).
    reflexivity.
  - unfold discount_pattern.
    change (RegExp.cat (RegExp.Bol :: ?g :: ?r))
      with (RegExp.Seq RegExp.Bol (RegExp.Seq g (RegExp.cat r))).
    rewrite exec_anchored, m_Seq.
    match goal with
    | |- context [RegExp.m true ?L _ (label ++ w :: ?t) [] ?k] =>
        assert (HK : k (w :: t) [(1%nat, label)]
                     = Some (rest, [(2%nat, amount); (1%nat, label)]))
    end.
    { cbv beta.
      apply (discount_tail _ (w :: ws0) dash ws' amount rest);
        [discriminate | rewrite <- Ew; exact S | exact D | exact S'
        | exact A | reflexivity]. }
    destruct L as [P | [I' E]].
    + rewrite (pay_label_matches _ label w _ [] _ _ HK P). reflexivity.
    + rewrite (discount_label _ label w _ [] _ _ Sw word HK I' E).
      reflexivity.
Qed.

End DiscountLine.

Lemma pay_label_lower (label : Text.text) :
  pay_label label ->
  Text.includes (Text.toLowerCase label) (Text.of_string "thuisbezorgd")
  = true.
Proof.
  intros [l1 [ws1 [l2 [-> [E1 _]]]]].
  unfold Text.toLowerCase. rewrite map_app.
  fold (Text.toLowerCase l1). rewrite (spelled_toLowerCase l1 _ E1).
  change (Text.toLowerCase (Text.of_string "Thuisbezorgd"))
    with (Text.of_string "thuisbezorgd").
  apply (includes_app [] (Text.of_string "thuisbezorgd")).
Qed.

Lemma discount_label_lower (label word : Text.text) :
  In word discount_labels -> spelled label word ->
  Text.includes (Text.toLowerCase label) (Text.of_string "thuisbezorgd")
  = false.
Proof.
  intros I E. rewrite (spelled_toLowerCase label word E).
  cbn [discount_labels In] in I.
  destruct I as [<- | [<- | [<- | [<- | [<- | []]]]]]; reflexivity.
Qed.

(** X20: a discount line: a label, white space, an optional minus sign, the
    euro sign, optional white space and an amount.  Under the label
    'Thuisbezorgd Pay' the amount read is always taken off the discount.
    Under the labels Discount, Voucher, Kortingsbon, Korting and Coupon it
    is taken off when the line holds '-€' or '- €' anywhere, as with the
    minus sign before the euro sign, and added otherwise.  Delivery and
    service stay as they are. *)
Theorem discount_line_sign (fees : Fees.t)
    (label ws dash ws' amount rest : Text.text) :
  ws <> [] -> spaces ws = true ->
  dash = [] \/ dash = [Text.minus] ->
  spaces ws' = true ->
  amount_text amount rest = true ->
  let line := label ++ ws ++ dash ++ [Text.euro] ++ ws' ++ amount ++ rest in
  let value := price_of amount in
  (pay_label label ->
   fee_line fees line = set_discount (sub (Fees.discount fees) value) fees)
  /\ (forall word,
        In word discount_labels -> spelled label word ->
        fee_line fees line
        = set_discount
            (if marked_negative line
             then sub (Fees.discount fees) value
             else add (Fees.discount fees) value) fees
        /\ (dash = [Text.minus] -> marked_negative line = true)).
Proof.
  intros NE S D S' A line value. split.
  - intro P.
    destruct (discount_line_matches label ws dash ws' amount rest NE S D S' A
                (Text.of_string "Thuisbezorgd")) as [E1 [E2 E3]].
    + left. reflexivity.
    + destruct P as [l1 [ws1 [l2 [-> [E _]]]]].
      exists l1, (ws1 ++ l2). split; [reflexivity | exact E].
    + left. exact P.
    + unfold fee_line, line. rewrite E1, E2, E3.
      cbn [RegExp.group RegExp.capture Nat.eqb].
      rewrite (pay_label_lower label P). reflexivity.
  - intros word I E.
    destruct (discount_line_matches label ws dash ws' amount rest NE S D S' A
                word) as [E1 [E2 E3]].
    + right. exact I.
    + exists label, []. split; [symmetry; apply app_nil_r | exact E].
    + right. split; assumption.
    + split.
      * unfold fee_line, line at 1 2 3. rewrite E1, E2, E3.
        cbn [RegExp.group RegExp.capture Nat.eqb].
        rewrite (discount_label_lower label word I E). reflexivity.
      * intros ->. unfold marked_negative, line.
        rewrite (app_assoc label ws).
        change ([Text.minus] ++ [Text.euro] ++ ws' ++ amount ++ rest)
          with ([Text.minus; Text.euro] ++ ws' ++ amount ++ rest).
        rewrite includes_app. reflexivity.
Qed.

Lemma discount_line_sign_witness :
  [32%N] <> []
  /\ spaces [32%N] = true
  /\ spaces [] = true
  /\ amount_text (Text.of_string "3,00") [] = true
  /\ fee_line (parseFeesFromText [pay_5]) korting_3
     = set_discount
         (sub (Fees.discount (parseFeesFromText [pay_5]))
              (price_of (Text.of_string "3,00")))
         (parseFeesFromText [pay_5]).
Proof.
  split; [discriminate|]. split; [reflexivity|]. split; [reflexivity|].
  split; [reflexivity|].
  destruct (discount_line_sign (parseFeesFromText [pay_5])
              (Text.of_string "Korting") [32%N] [Text.minus] []
              (Text.of_string "3,00") [])
    as [_ Labelled];
    [discriminate | reflexivity | right; reflexivity | reflexivity
    | reflexivity |].
  destruct (Labelled (Text.of_string "Korting")) as [Sets Marked];
    [right; right; right; left; reflexivity | reflexivity |].
  rewrite (Marked eq_refl) in Sets. exact Sets.
Defined.

(** ** parseFloat on amounts *)

Lemma span_stops (p : N -> bool) (run rest : Text.text) :
  forallb p run = true -> stops p rest = true ->
  Text.span p (run ++ rest) = (run, rest).
Proof.
  intros A St. induction run as [|c run IH].
  - destruct rest as [|h t]; [reflexivity|]. cbn [app Text.span].
    cbn [stops] in St. apply negb_true_iff in St. rewrite St. reflexivity.
  - cbn [forallb] in A. apply andb_true_iff in A as [Pc A].
    cbn [app Text.span]. rewrite Pc, (IH A). reflexivity.
Qed.

Lemma span_all (p : N -> bool) (run : Text.text) :
  forallb p run = true -> Text.span p run = (run, []).
Proof.
  intro A. rewrite <- (app_nil_r run) at 1. apply span_stops; trivial.
Qed.

Lemma is_digit_spec (c : N) : Text.is_digit c = true -> (48 <= c <= 57)%N.
Proof.
  unfold Text.is_digit. intro H. bool_to_Prop H. lia.
Qed.

Lemma digit_not_space (c : N) :
  Text.is_digit c = true -> Text.is_space c = false.
Proof.
  intro D. apply is_digit_spec in D.
  destruct (Text.is_space c) eqn:S; [|reflexivity].
  apply is_space_spec in S. lia.
Qed.

(** Where a decimal literal can begin in an amount: at a digit or at the
    dot; what [parseFloat] does before it looks for digits changes nothing
    there. *)
Lemma parseFloat_unsigned (c : N) (s : Text.text) :
  Text.is_digit c = true \/ c = Text.dot ->
  Text.parseFloat (c :: s)
  = let (int, s1) := Text.span Text.is_digit (c :: s) in
    let (frac, s2) :=
      match s1 with
      | [] => ([], [])
      | c :: r =>
          if (c =? Text.dot)%N then Text.span Text.is_digit r else ([], s1)
      end in
    match int ++ frac with
    | [] => NaN
    | ds =>
        Fin (inject_Z (Text.number_of_digits ds)
             * Text.pow10 (Text.exponent_of s2
                           - Z.of_nat (List.length frac)))
    end.
Proof.
  intro H.
  assert (R : (48 <= c <= 57)%N \/ c = 46%N).
  { destruct H as [D | ->]; [left; apply is_digit_spec, D | right].
    reflexivity. }
  assert (Sp : Text.is_space c = false).
  { destruct (Text.is_space c) eqn:S; [|reflexivity].
    apply is_space_spec in S. lia. }
  unfold Text.parseFloat. cbn [Text.trimStart]. rewrite Sp.
  unfold Text.sign_of, Text.minus, Text.plus.
  destruct (N.eqb_spec c 45); [lia|]. destruct (N.eqb_spec c 43); [lia|].
  assert (I : Text.startsWith (c :: s) (Text.of_string "Infinity") = false).
  { change (Text.of_string "Infinity")
      with (73%N :: Text.of_string "nfinity").
    cbn [Text.startsWith]. destruct (N.eqb_spec 73 c); [lia | reflexivity]. }
  rewrite I. reflexivity.
Qed.

Lemma number_of_digits_nonneg (ds : Text.text) :
  (0 <= Text.number_of_digits ds)%Z.
Proof.
  unfold Text.number_of_digits.
  assert (G : forall acc, (0 <= acc)%Z ->
              (0 <= fold_left (fun a c => 10 * a + Text.digit_of c) ds acc)%Z).
  { induction ds as [|c ds IH]; intros acc P; [exact P|].
    cbn [fold_left]. apply IH. unfold Text.digit_of. lia. }
  apply G. lia.
Qed.

(** Digits, a dot, digits. *)
Lemma parseFloat_decimal (i f : Text.text) :
  digits i = true -> digits f = true -> i ++ f <> [] ->
  numeq (Text.parseFloat (i ++ Text.dot :: f)) (Fin (decimal i f)).
Proof.
  intros Di Df NE.
  assert (H : exists c s, i ++ Text.dot :: f = c :: s
                          /\ (Text.is_digit c = true \/ c = Text.dot)).
  { destruct i as [|c i].
    - exists Text.dot, f. split; [reflexivity | right; reflexivity].
    - exists c, (i ++ Text.dot :: f). split; [reflexivity|]. left.
      cbn [digits forallb] in Di. apply andb_true_iff in Di as [Dc _].
      exact Dc. }
  destruct H as [c [s [E H]]].
  rewrite E, (parseFloat_unsigned c s H), <- E.
  rewrite (span_stops Text.is_digit i (Text.dot :: f) Di eq_refl).
  rewrite N.eqb_refl, (span_all Text.is_digit f Df).
  destruct (i ++ f) as [|d ds] eqn:Eds; [congruence|].
  rewrite <- Eds. cbn [numeq Text.exponent_of]. unfold decimal.
  unfold Text.pow10.
  destruct f as [|c' f'].
  - cbn [List.length]. change (0 - Z.of_nat 0)%Z with 0%Z.
    cbn [Z.leb Z.compare]. change (inject_Z (10 ^ 0)) with 1.
    change (inject_Z (10 ^ Z.of_nat 0)) with 1. field.
  - assert (L : (0 <=? 0 - Z.of_nat (List.length (c' :: f')))%Z = false).
    { apply Z.leb_gt. cbn [List.length]. lia. }
    rewrite L.
    replace (- (0 - Z.of_nat (List.length (c' :: f'))))%Z
      with (Z.of_nat (List.length (c' :: f'))) by lia.
    unfold Qdiv. reflexivity.
Qed.

(** Digits alone. *)
Lemma parseFloat_digits (i : Text.text) :
  digits i = true -> i <> [] ->
  numeq (Text.parseFloat i) (Fin (inject_Z (Text.number_of_digits i))).
Proof.
  intros Di NE. destruct i as [|c s]; [congruence|].
  assert (Dc : Text.is_digit c = true).
  { cbn [digits forallb] in Di.
    apply andb_true_iff in Di as [Dc _]. exact Dc. }
  rewrite (parseFloat_unsigned c s (or_introl Dc)).
  rewrite (span_all Text.is_digit (c :: s) Di). rewrite app_nil_r.
  cbn [numeq Text.exponent_of List.length].
  change (Text.pow10 (0 - Z.of_nat 0)) with 1. ring.
Qed.

(** No digit, no number. *)
Lemma parseFloat_no_digit (s : Text.text) :
  forallb is_amount_char s = true -> no_digit s = true ->
  Text.parseFloat s = NaN.
Proof.
  intros A N.
  assert (Sp : forall r : Text.text,
             no_digit r = true -> Text.span Text.is_digit r = ([], r)).
  { intros [|h t] Nr; [reflexivity|]. cbn [no_digit forallb] in Nr.
    apply andb_true_iff in Nr as [Nh _]. apply negb_true_iff in Nh.
    cbn [Text.span]. rewrite Nh. reflexivity. }
  assert (Body : forall r : Text.text,
             forallb is_amount_char r = true -> no_digit r = true ->
             (if Text.startsWith r (Text.of_string "Infinity")
              then NegInf
              else
                let (int, s1) := Text.span Text.is_digit r in
                let (frac, s2) :=
                  match s1 with
                  | [] => ([], [])
                  | c :: r' =>
                      if (c =? Text.dot)%N then Text.span Text.is_digit r'
                      else ([], s1)
                  end in
                match int ++ frac with
                | [] => NaN
                | ds =>
                    Fin (- (inject_Z (Text.number_of_digits ds)
                            * Text.pow10
                                (Text.exponent_of s2
                                 - Z.of_nat (List.length frac))))
                end) = NaN
             /\ (if Text.startsWith r (Text.of_string "Infinity")
                 then PosInf
                 else
                   let (int, s1) := Text.span Text.is_digit r in
                   let (frac, s2) :=
                     match s1 with
                     | [] => ([], [])
                     | c :: r' =>
                         if (c =? Text.dot)%N then Text.span Text.is_digit r'
                         else ([], s1)
                     end in
                   match int ++ frac with
                   | [] => NaN
                   | ds =>
                       Fin (inject_Z (Text.number_of_digits ds)
                            * Text.pow10
                                (Text.exponent_of s2
                                 - Z.of_nat (List.length frac)))
                   end) = NaN).
  { intros r Ar Nr.
    assert (I : Text.startsWith r (Text.of_string "Infinity") = false).
    { destruct r as [|h t]; [reflexivity|].
      cbn [forallb] in Ar. apply andb_true_iff in Ar as [Ah _].
      apply is_amount_char_spec in Ah.
      change (Text.of_string "Infinity")
        with (73%N :: Text.of_string "nfinity").
      cbn [Text.startsWith].
      destruct (N.eqb_spec 73 h); [lia | reflexivity]. }
    rewrite I, (Sp r Nr).
    destruct r as [|h t]; [split; reflexivity|].
    cbn [no_digit forallb] in Nr. apply andb_true_iff in Nr as [_ Nt].
    destruct (h =? Text.dot)%N; [|split; reflexivity].
    rewrite (Sp t Nt). split; reflexivity. }
  unfold Text.parseFloat.
  destruct s as [|c r]; [reflexivity|].
  cbn [forallb] in A. apply andb_true_iff in A as [Ac Ar].
  assert (Sc : Text.is_space c = false).
  { destruct (Text.is_space c) eqn:S; [|reflexivity].
    rewrite (space_not_amount c S) in Ac. discriminate Ac. }
  cbn [Text.trimStart]. rewrite Sc. unfold Text.sign_of.
  pose proof N as N'. cbn [no_digit forallb] in N'.
  apply andb_true_iff in N' as [_ Nr].
  destruct (c =? Text.minus)%N.
  - apply (Body r Ar Nr).
  - destruct (N.eqb_spec c Text.plus) as [P | P].
    + apply is_amount_char_spec in Ac. unfold Text.plus in P. lia.
    + apply (Body (c :: r)); [|exact N].
      cbn [forallb]. rewrite Ac, Ar. reflexivity.
Qed.

(** ** Amounts *)

Lemma digit_not_dot (c : N) :
  Text.is_digit c = true -> (c =? Text.dot)%N = false.
Proof.
  intro D. apply is_digit_spec in D. apply N.eqb_neq.
  unfold Text.dot. lia.
Qed.

Lemma digit_not_comma (c : N) :
  Text.is_digit c = true -> (c =? Text.comma)%N = false.
Proof.
  intro D. apply is_digit_spec in D. apply N.eqb_neq.
  unfold Text.comma. lia.
Qed.

Lemma remove_grouped (g : Text.text) :
  grouped g = true -> digits (Text.remove_all Text.dot g) = true.
Proof.
  induction g as [|c g IH]; intro G; [reflexivity|].
  cbn [grouped forallb] in G. apply andb_true_iff in G as [Gc G].
  cbn [Text.remove_all filter].
  destruct (c =? Text.dot)%N eqn:E; cbn [negb].
  - apply IH, G.
  - rewrite orb_false_r in Gc. cbn [digits forallb]. rewrite Gc.
    apply IH, G.
Qed.

Lemma remove_digits (f : Text.text) :
  digits f = true -> Text.remove_all Text.dot f = f.
Proof.
  induction f as [|c f IH]; intro D; [reflexivity|].
  cbn [digits forallb] in D. apply andb_true_iff in D as [Dc D].
  cbn [Text.remove_all filter]. rewrite (digit_not_dot c Dc). cbn [negb].
  f_equal. apply IH, D.
Qed.

Lemma replace_after_digits (i s : Text.text) :
  digits i = true ->
  Text.replace_first Text.comma Text.dot (i ++ s)
  = i ++ Text.replace_first Text.comma Text.dot s.
Proof.
  induction i as [|c i IH]; intro D; [reflexivity|].
  cbn [digits forallb] in D. apply andb_true_iff in D as [Dc D].
  cbn [app Text.replace_first]. rewrite (digit_not_comma c Dc).
  f_equal. apply IH, D.
Qed.

Lemma price_of_comma (g f : Text.text) :
  grouped g = true -> digits f = true ->
  price_of (g ++ Text.comma :: f)
  = Text.parseFloat (Text.remove_all Text.dot g ++ Text.dot :: f).
Proof.
  intros G D. unfold price_of, Text.remove_all. rewrite filter_app.
  cbn [filter].
  change (negb (Text.comma =? Text.dot)%N) with true. cbv iota.
  fold (Text.remove_all Text.dot g). fold (Text.remove_all Text.dot f).
  rewrite (remove_digits f D).
  rewrite (replace_after_digits _ _ (remove_grouped g G)).
  cbn [Text.replace_first]. rewrite N.eqb_refl. reflexivity.
Qed.

Lemma price_of_grouped (g : Text.text) :
  grouped g = true ->
  price_of g = Text.parseFloat (Text.remove_all Text.dot g).
Proof.
  intro G. unfold price_of.
  rewrite <- (app_nil_r (Text.remove_all Text.dot g)) at 1.
  rewrite (replace_after_digits _ _ (remove_grouped g G)).
  cbn [Text.replace_first]. rewrite app_nil_r. reflexivity.
Qed.

Lemma price_of_no_digit (s : Text.text) :
  forallb is_amount_char s = true -> no_digit s = true -> price_of s = NaN.
Proof.
  intros A N. unfold price_of. apply parseFloat_no_digit.
  - assert (R : forall r : Text.text,
               forallb is_amount_char r = true ->
               forallb is_amount_char
                 (Text.replace_first Text.comma Text.dot r) = true).
    { induction r as [|c r IH]; intro Ar; [reflexivity|].
      cbn [forallb] in Ar. apply andb_true_iff in Ar as [Ac Ar].
      cbn [Text.replace_first]. destruct (c =? Text.comma)%N; cbn [forallb].
      - rewrite Ar. reflexivity.
      - rewrite Ac. apply IH, Ar. }
    apply R. unfold Text.remove_all. apply forallb_forall.
    intros c I. apply filter_In in I as [I _].
    rewrite forallb_forall in A. apply A, I.
  - assert (R : forall r : Text.text,
               no_digit r = true ->
               no_digit (Text.replace_first Text.comma Text.dot r) = true).
    { unfold no_digit. induction r as [|c r IH]; intro Nr; [reflexivity|].
      cbn [forallb] in Nr. apply andb_true_iff in Nr as [Nc Nr].
      cbn [Text.replace_first].
      destruct (c =? Text.comma)%N; cbn [forallb].
      - rewrite Nr. reflexivity.
      - rewrite Nc. apply IH, Nr. }
    apply R. unfold no_digit, Text.remove_all. apply forallb_forall.
    intros c I. apply filter_In in I as [I _].
    unfold no_digit in N. rewrite forallb_forall in N. apply N, I.
Qed.

(** X21: how every parser of the content script reads an amount, with
    numbers as the exact decimals of the model.  With digits, optional dots
    between them, a comma and more digits it is the decimal number whose
    fraction follows the comma; the dots are dropped, so that without a
    comma a dot never marks a fraction and the amount is the whole number
    of all its digits; and an amount of dots, commas and minus signs
    without a digit is [NaN]. *)
Theorem price_of_formats (g f : Text.text) :
  grouped g = true -> digits f = true ->
  (Text.remove_all Text.dot g ++ f <> [] ->
   numeq (price_of (g ++ Text.comma :: f))
         (Fin (decimal (Text.remove_all Text.dot g) f)))
  /\ (Text.remove_all Text.dot g <> [] ->
      numeq (price_of g)
            (Fin (inject_Z
                    (Text.number_of_digits (Text.remove_all Text.dot g)))))
  /\ (forall s,
        forallb is_amount_char s = true -> no_digit s = true ->
        price_of s = NaN).
Proof.
  intros G D. split; [|split].
  - intro NE. rewrite (price_of_comma g f G D).
    apply parseFloat_decimal; [apply remove_grouped, G | exact D | exact NE].
  - intro NE. rewrite (price_of_grouped g G).
    apply parseFloat_digits; [apply remove_grouped, G | exact NE].
  - apply price_of_no_digit.
Qed.

Lemma price_of_formats_witness :
  grouped (Text.of_string "1.234") = true
  /\ digits (Text.of_string "56") = true
  /\ numeq (price_of (Text.of_string "1.234,56")) (Fin 1234.56)
  /\ numeq (price_of (Text.of_string "2.50")) (Fin 250).
Proof.
  split; [reflexivity|]. split; [reflexivity|].
  split.
  - apply (price_of_formats (Text.of_string "1.234") (Text.of_string "56"));
      [reflexivity | reflexivity | discriminate].
  - apply (price_of_formats (Text.of_string "2.50") []);
      [reflexivity | reflexivity | discriminate].
Defined.

(** ** The budget field of the popup *)

(** X22: whatever the budget field holds, the budget that [saveSettings]
    sends is a number that is neither [NaN] nor negative, and it is 14 or
    what [parseFloat] reads; an empty field gives 14, and a field of digits
    gives their number, zero included. *)
Theorem saved_budget_is_never_negative (dailyBudgetInput : Text.text) :
  let dailyBudget := saveSettings_dailyBudget dailyBudgetInput in
  isNaN dailyBudget = false
  /\ lt dailyBudget (Fin 0) = false
  /\ (dailyBudget = Fin 14
      \/ dailyBudget = Text.parseFloat dailyBudgetInput)
  /\ saveSettings_dailyBudget [] = Fin 14
  /\ (digits dailyBudgetInput = true -> dailyBudgetInput <> [] ->
      numeq dailyBudget
            (Fin (inject_Z (Text.number_of_digits dailyBudgetInput)))).
Proof.
  cbv zeta.
  assert (Shape :
            saveSettings_dailyBudget dailyBudgetInput
            = match dailyBudgetInput with
              | [] => Fin 14
              | _ =>
                  if isNaN (Text.parseFloat dailyBudgetInput)
                     || lt (Text.parseFloat dailyBudgetInput) (Fin 0)
                  then Fin 14
                  else Text.parseFloat dailyBudgetInput
              end) by reflexivity.
  split; [|split; [|split; [|split]]].
  - rewrite Shape. destruct dailyBudgetInput as [|c s]; [reflexivity|].
    destruct (Text.parseFloat (c :: s)) as [q | | |]; cbn [isNaN orb];
      try reflexivity.
    destruct (lt (Fin q) (Fin 0)); reflexivity.
  - rewrite Shape. destruct dailyBudgetInput as [|c s]; [reflexivity|].
    destruct (Text.parseFloat (c :: s)) as [q | | |]; cbn [isNaN orb];
      try reflexivity.
    destruct (lt (Fin q) (Fin 0)) eqn:L; [reflexivity | exact L].
  - rewrite Shape. destruct dailyBudgetInput as [|c s]; [left; reflexivity|].
    destruct (isNaN (Text.parseFloat (c :: s))
              || lt (Text.parseFloat (c :: s)) (Fin 0));
      [left | right]; reflexivity.
  - reflexivity.
  - intros D NE. rewrite Shape.
    pose proof (parseFloat_digits dailyBudgetInput D NE) as P.
    pose proof (number_of_digits_nonneg dailyBudgetInput) as Pos.
    destruct dailyBudgetInput as [|c s]; [congruence|].
    destruct (Text.parseFloat (c :: s)) as [q | | |]; cbn [numeq] in P;
      try contradiction.
    cbn [isNaN orb].
    assert (L : lt (Fin q) (Fin 0) = false).
    { cbn [lt]. apply Qlt_bool_false. rewrite P.
      change 0 with (inject_Z 0). rewrite <- Zle_Qle. exact Pos. }
    rewrite L. exact P.
Qed.

(** ** safeParseFloat *)

Lemma replace_first_absent (a b : N) (s : Text.text) :
  forallb (fun c => negb (c =? a)%N) s = true ->
  Text.replace_first a b s = s.
Proof.
  induction s as [|c s IH]; intro H; [reflexivity|].
  cbn [forallb] in H. apply andb_true_iff in H as [Hc H].
  apply negb_true_iff in Hc. cbn [Text.replace_first]. rewrite Hc.
  f_equal. apply IH, H.
Qed.

Lemma strip_currency_no_comma (s : Text.text) :
  forallb (fun c => negb (c =? Text.comma)%N) (strip_currency s) = true.
Proof.
  apply forallb_forall. intros c I. unfold strip_currency in I.
  apply filter_In in I as [_ I]. apply negb_true_iff in I.
  unfold is_currency_or_space in I.
  destruct (c =? Text.comma)%N; [|reflexivity].
  rewrite !orb_true_r in I. discriminate I.
Qed.

Lemma strip_currency_digits (i : Text.text) :
  digits i = true -> strip_currency i = i.
Proof.
  induction i as [|c i IH]; intro D; [reflexivity|].
  cbn [digits forallb] in D. apply andb_true_iff in D as [Dc D].
  cbn [strip_currency filter].
  assert (F : is_currency_or_space c = false).
  { unfold is_currency_or_space. rewrite (digit_not_space c Dc).
    apply is_digit_spec in Dc. unfold Text.euro, Text.comma.
    repeat match goal with
           | |- context [(c =? ?k)%N] => destruct (N.eqb_spec c k); [lia|]
           end.
    reflexivity. }
  rewrite F. cbn [negb]. f_equal. apply IH, D.
Qed.

(** X23: [safeParseFloat] gives [NaN] only when the default it was handed
    is [NaN], so never with the default left out.  For a string it removes
    every comma together with the currency signs and the white space
    before it replaces a comma by a dot, so that this replacement never
    finds one: a string of digits, a comma and more digits reads as the
    whole number of all its digits, never as a decimal number. *)
Theorem safeParseFloat_drops_commas (value : Any.t)
    (defaultValue : option number) :
  (isNaN (safeParseFloat value defaultValue) = true ->
   defaultValue = Some NaN)
  /\ (forall s,
        Text.replace_first Text.comma Text.dot (strip_currency s)
        = strip_currency s)
  /\ (forall i f,
        digits i = true -> digits f = true -> i ++ f <> [] ->
        numeq (safeParseFloat (Any.string_ (i ++ Text.comma :: f))
                              defaultValue)
              (Fin (inject_Z (Text.number_of_digits (i ++ f))))).
Proof.
  split; [|split].
  - unfold safeParseFloat.
    assert (D : forall n : number,
               isNaN (if isNaN n
                      then match defaultValue with
                           | Some d => d
                           | None => Fin 0
                           end
                      else n) = true ->
               defaultValue = Some NaN).
    { intros n. destruct (isNaN n) eqn:E.
      - destruct defaultValue as [[| | |]|]; intro H; try discriminate H.
        reflexivity.
      - intro H. rewrite H in E. discriminate E. }
    destruct value as [| | n | s |]; try apply D.
    all: destruct defaultValue as [[| | |]|]; intro H; try discriminate H;
      reflexivity.
  - intro s. apply replace_first_absent, strip_currency_no_comma.
  - intros i f Di Df NE. unfold safeParseFloat.
    rewrite (replace_first_absent _ _ _ (strip_currency_no_comma _)).
    assert (E : strip_currency (i ++ Text.comma :: f) = i ++ f).
    { unfold strip_currency. rewrite filter_app. cbn [filter].
      change (negb (is_currency_or_space Text.comma)) with false. cbv iota.
      fold (strip_currency i). fold (strip_currency f).
      rewrite (strip_currency_digits i Di), (strip_currency_digits f Df).
      reflexivity. }
    rewrite E.
    assert (D : digits (i ++ f) = true).
    { unfold digits in *. rewrite forallb_app, Di, Df. reflexivity. }
    pose proof (parseFloat_digits (i ++ f) D NE) as P.
    destruct (Text.parseFloat (i ++ f)) as [q | | |]; cbn [numeq] in P;
      try contradiction.
    cbn [isNaN]. exact P.
Qed.

(** ** Item prices *)








